(** * deferred-fetch-mcp: the fetch-and-persist pipeline of [src/Fetcher.ts]

    A shallow embedding of the [Fetcher] class: the filename generator, the
    download-directory guard, the private-address guard, the four output
    formats and the uniform result shape, over an explicit model of the
    platform (clock, random source, URL parser, file system, HTTP client,
    DOM and Markdown engines).

    Strings are [String.string]: a JavaScript string whose code units all
    lie below 256, one [ascii] per code unit. [JSON.parse] and
    [JSON.stringify], which the json format composes, are embedded in full
    (module [JSON]), with numbers as binary64 values.

    Beside the pipeline, the development covers the window function
    [applyLengthLimits], the resolution of the download directory in both
    versions of [config.ts] (over an embedding of [path.resolve],
    [path.join], [path.dirname] and [path.basename] of Node.js on POSIX),
    and the YouTube helper [parseVideoId].

    Layout: the platform and the source first, then a test platform, the
    vocabulary of the statements, and the facts. *)

From Stdlib Require Import ZArith NArith Ascii String List Lia Bool Sorted.
From Stdlib Require Import Floats.SpecFloat.
From stdpp Require Import base strings gmap list sorting.

Local Open Scope string_scope.
Set Warnings "-register-all".

(** stdpp keeps [String.append] folded under [simpl]; the proofs below
    compute with it. *)
#[local] Arguments String.append !s1 s2 : simpl nomatch.

(* ===================================================================== *)
(** ** JavaScript string primitives used by the source                    *)
(* ===================================================================== *)

Module JS.

(** Code-unit classes of the regular expressions in [Fetcher.ts]. *)
Definition code (c : ascii) : N := N_of_ascii c.

Definition in_range (lo hi : N) (c : ascii) : bool :=
  ((lo <=? code c) && (code c <=? hi))%N.

Definition is_digit (c : ascii) : bool := in_range 48 57 c.
Definition is_lower (c : ascii) : bool := in_range 97 122 c.
Definition is_upper (c : ascii) : bool := in_range 65 90 c.

(** [[a-zA-Z0-9_\-]] *)
Definition is_filename_safe (c : ascii) : bool :=
  is_lower c || is_upper c || is_digit c
  || (code c =? 95)%N || (code c =? 45)%N.

(** [[-:.]] *)
Definition is_iso_punct (c : ascii) : bool :=
  ((code c =? 45) || (code c =? 58) || (code c =? 46))%N.

(** [\s] restricted to code units below 256: TAB, LF, VT, FF, CR, SPACE
    and NO-BREAK SPACE. [String.prototype.trim] strips the same set. *)
Definition is_space (c : ascii) : bool :=
  (in_range 9 13 c || (code c =? 32) || (code c =? 160))%N.

(** [s.replace(/[class]/g, "")] *)
Fixpoint remove_all (p : ascii -> bool) (s : string) : string :=
  match s with
  | EmptyString => EmptyString
  | String c r => if p c then remove_all p r else String c (remove_all p r)
  end.

(** [s.replace(/[class]/g, r)] for a one-character replacement [r]. *)
Fixpoint replace_all (p : ascii -> bool) (r : ascii) (s : string) : string :=
  match s with
  | EmptyString => EmptyString
  | String c s' => String (if p c then r else c) (replace_all p r s')
  end.

(** [s.slice(0, n)] and [s.substring(0, n)] coincide for [n >= 0]. *)
Fixpoint prefix (n : nat) (s : string) : string :=
  match n, s with
  | S n', String c r => String c (prefix n' r)
  | _, _ => EmptyString
  end.

(** [s.substring(start, end)] for [0 <= start <= end <= s.length]. *)
Fixpoint drop (n : nat) (s : string) : string :=
  match n, s with
  | S n', String _ r => drop n' r
  | _, _ => s
  end.

Definition substring (s : string) (start stop : nat) : string :=
  prefix (stop - start) (drop start s).

(** [s.split(sep)] for a one-character separator: never the empty list. *)
Fixpoint split (sep : ascii) (s : string) : list string :=
  match s with
  | EmptyString => [EmptyString]
  | String c r =>
      if Ascii.eqb c sep then EmptyString :: split sep r
      else match split sep r with
           | h :: t => String c h :: t
           | [] => [String c EmptyString]
           end
  end.

(** [Boolean(s)] on a string: the empty string is the only falsy one. *)
Definition truthy (s : string) : bool :=
  match s with EmptyString => false | _ => true end.

(** [s.replace(/\s+/g, " ")]: every maximal run of white space becomes one
    space. [in_run] records that the previous code unit was white space. *)
Fixpoint collapse_from (in_run : bool) (s : string) : string :=
  match s with
  | EmptyString => EmptyString
  | String c r =>
      if is_space c
      then if in_run then collapse_from true r
           else String " " (collapse_from true r)
      else String c (collapse_from false r)
  end.

Definition collapse_spaces (s : string) : string := collapse_from false s.

Fixpoint trim_start (s : string) : string :=
  match s with
  | String c r => if is_space c then trim_start r else s
  | EmptyString => EmptyString
  end.

Fixpoint trim_end (s : string) : string :=
  match s with
  | EmptyString => EmptyString
  | String c r =>
      match trim_end r with
      | EmptyString => if is_space c then EmptyString else String c EmptyString
      | r' => String c r'
      end
  end.

Definition trim (s : string) : string := trim_end (trim_start s).

(** [s.startsWith(p)] and [s.includes(p)] *)
Fixpoint startsWith (p s : string) : bool :=
  match p, s with
  | EmptyString, _ => true
  | String a p', String b s' => Ascii.eqb a b && startsWith p' s'
  | _, _ => false
  end.

Fixpoint includes (p s : string) : bool :=
  startsWith p s
  || match s with
     | EmptyString => false
     | String _ s' => includes p s'
     end.

(** Decimal digits, most significant first, in a field of [w] digits. *)
Definition digit_char (d : nat) : ascii := ascii_of_nat (48 + d mod 10).

Fixpoint pad_digits (w n : nat) : string :=
  match w with
  | 0 => EmptyString
  | S w' => pad_digits w' (n / 10) +:+ String (digit_char n) EmptyString
  end.

(** [String(n)] for a non-negative integer: its decimal digits without
    leading zeros. A number has no more decimal digits than bits, which
    bounds the recursion. *)
Definition digit_of_N (n : N) : ascii := ascii_of_N (48 + n mod 10).

Fixpoint decimal_go (fuel : nat) (n : N) (acc : string) : string :=
  match fuel with
  | 0 => acc
  | S f =>
      let acc' := String (digit_of_N n) acc in
      if (n / 10 =? 0)%N then acc' else decimal_go f (n / 10) acc'
  end.

Definition decimal (n : N) : string :=
  decimal_go (S (N.to_nat (N.log2 n))) n EmptyString.

Fixpoint repeat_char (c : ascii) (n : nat) : string :=
  match n with
  | 0 => EmptyString
  | S n' => String c (repeat_char c n')
  end.

(** Lower-case hexadecimal, as [Buffer.toString("hex")] prints it. *)
Definition hex_digit (n : N) : ascii :=
  if (n <? 10)%N then ascii_of_N (48 + n) else ascii_of_N (87 + n).

Definition is_hex_digit (c : ascii) : bool :=
  is_digit c || in_range 97 102 c.

Definition hex_of_byte (b : Byte.byte) : string :=
  let n := Byte.to_N b in
  String (hex_digit (n / 16)) (String (hex_digit (n mod 16)) EmptyString).

Fixpoint hex (buf : list Byte.byte) : string :=
  match buf with
  | [] => EmptyString
  | b :: r => hex_of_byte b +:+ hex r
  end.

End JS.

(* ===================================================================== *)
(** ** The clock: [new Date().toISOString()]                              *)
(* ===================================================================== *)

(** A [Date] as its UTC fields, named after the accessors that read them.
    [getUTCMonth] is zero-based, as in JavaScript. *)
Record Date := mkDate {
  getUTCFullYear : Z;
  getUTCMonth : nat;
  getUTCDate : nat;
  getUTCHours : nat;
  getUTCMinutes : nat;
  getUTCSeconds : nat;
  getUTCMilliseconds : nat
}.

(** Years 0..9999 print as four digits; any other year as a sign and six
    digits (the expanded-year form of [Date.prototype.toISOString]). *)
Definition iso_year (y : Z) : string :=
  if ((0 <=? y) && (y <=? 9999))%Z then JS.pad_digits 4 (Z.to_nat y)
  else (if (y <? 0)%Z then "-" else "+") +:+ JS.pad_digits 6 (Z.to_nat (Z.abs y)).

Definition toISOString (d : Date) : string :=
  iso_year (getUTCFullYear d) +:+ "-" +:+
  JS.pad_digits 2 (S (getUTCMonth d)) +:+ "-" +:+
  JS.pad_digits 2 (getUTCDate d) +:+ "T" +:+
  JS.pad_digits 2 (getUTCHours d) +:+ ":" +:+
  JS.pad_digits 2 (getUTCMinutes d) +:+ ":" +:+
  JS.pad_digits 2 (getUTCSeconds d) +:+ "." +:+
  JS.pad_digits 3 (getUTCMilliseconds d) +:+ "Z".

(** A date whose year prints with four digits. *)
Definition four_digit_year (d : Date) : Prop :=
  (0 <= getUTCFullYear d <= 9999)%Z.

(** [YYYYMMDDTHHMMSS], the stamp the spec names. *)
Definition compact_stamp (d : Date) : string :=
  JS.pad_digits 4 (Z.to_nat (getUTCFullYear d)) +:+
  JS.pad_digits 2 (S (getUTCMonth d)) +:+
  JS.pad_digits 2 (getUTCDate d) +:+ "T" +:+
  JS.pad_digits 2 (getUTCHours d) +:+
  JS.pad_digits 2 (getUTCMinutes d) +:+
  JS.pad_digits 2 (getUTCSeconds d).

(* ===================================================================== *)
(** ** The parsed URL object                                              *)
(* ===================================================================== *)

(** The two properties of a [URL] object that [Fetcher.ts] reads. *)
Record URL := mkURL {
  hostname : string;
  pathname : string
}.

(* ===================================================================== *)
(** ** [JSON.parse] and [JSON.stringify]                                  *)
(* ===================================================================== *)

(** The json format reads the body with [response.json()] and prints it with
    [JSON.stringify(jsonData, null, 2)]. Both are ECMAScript built-ins:
    they are modelled after ECMA-262 (sections JSON.parse, JSON.stringify,
    Number::toString) and ECMA-404. Numbers are IEEE 754 binary64 values,
    taken from [SpecFloat] with [prec = 53] and [emax = 1024]. *)
Module JSON.

#[local] Unset Elimination Schemes.
Inductive value :=
| Null
| Bool (b : bool)
| Number (x : spec_float)
| Str (s : string)
| Array (items : list value)
| Object (members : list (string * value)).
#[local] Set Elimination Schemes.

Definition prec : Z := 53.
Definition emax : Z := 1024.

(** *** Numbers *)

(** The binary64 value nearest to [(-1)^neg * m * 10^e], ties to even:
    the value of a decimal literal. A literal too large for binary64
    becomes an infinity, as [StringToNumber] has it. *)
Definition double_of_decimal (neg : bool) (m : N) (e : Z) : spec_float :=
  match m with
  | N0 => S754_zero neg
  | Npos p =>
      if (0 <=? e)%Z
      then binary_round prec emax neg (p * Z.to_pos (10 ^ e))%positive 0
      else SFdiv prec emax (S754_finite neg p 0)
                 (S754_finite false (Z.to_pos (10 ^ (- e))) 0)
  end.

(** Structural equality of binary64 values (it tells [+0] from [-0]). *)
Definition same_double (x y : spec_float) : bool :=
  match x, y with
  | S754_zero a, S754_zero b => Bool.eqb a b
  | S754_infinity a, S754_infinity b => Bool.eqb a b
  | S754_nan, S754_nan => true
  | S754_finite a m e, S754_finite b n f =>
      Bool.eqb a b && (m =? n)%positive && (e =? f)%Z
  | _, _ => false
  end.

Definition isFinite (x : spec_float) : bool :=
  match x with
  | S754_zero _ | S754_finite _ _ _ => true
  | _ => false
  end.

(** A positive finite double [m * 2^e] as the fraction [num / den]. *)
Definition fraction_of (m : positive) (e : Z) : Z * Z :=
  if (0 <=? e)%Z then (Zpos m * 2 ^ e, 1)%Z else (Zpos m, 2 ^ (- e))%Z.

(** The least [n] with [num / den < 10^n], searched upwards from [n]. *)
Fixpoint decade_from (fuel : nat) (num den n : Z) : Z :=
  match fuel with
  | 0 => n
  | S f =>
      if (if (0 <=? n)%Z then (num <? den * 10 ^ n)%Z
          else (num * 10 ^ (- n) <? den)%Z)
      then n else decade_from f num den (n + 1)
  end.

Definition decade (num den : Z) : Z :=
  let guess := ((Z.log2 num - Z.log2 den - 1) * 30102 / 100000 - 2)%Z in
  decade_from 12 num den guess.

(** The candidate significands with [k] digits next to [num / den], scaled
    by [10^(n - k)]: the one below and the one above. *)
Definition scaled (num den q : Z) : Z * Z :=
  if (0 <=? q)%Z then (num, den * 10 ^ q)%Z else (num * 10 ^ (- q), den)%Z.

(** Step 5 of Number::toString: the shortest significand [s] of [k] digits
    and the exponent [n] with [s * 10^(n-k)] rounding to the double, the
    closest one when two qualify, the even one on a tie. *)
Fixpoint shortest_from (fuel : nat) (x : spec_float) (num den n : Z) (k : Z)
  : Z * Z * Z :=
  let q := (n - k)%Z in
  let '(a, b) := scaled num den q in
  let lo := (a / b)%Z in
  let hi := (lo + 1)%Z in
  let ok c := same_double (double_of_decimal false (Z.to_N c) q) x in
  let pick c := if (c =? 10 ^ k)%Z then (10 ^ (k - 1), k, n + 1)%Z else (c, k, n) in
  match fuel with
  | 0 => (lo, k, n)
  | S f =>
      match ok lo, ok hi with
      | true, true =>
          match (2 * (a mod b) ?= b)%Z with
          | Lt => pick lo
          | Gt => pick hi
          | Eq => if Z.even lo then pick lo else pick hi
          end
      | true, false => pick lo
      | false, true => pick hi
      | false, false => shortest_from f x num den n (k + 1)
      end
  end.

Definition shortest (m : positive) (e : Z) : Z * Z * Z :=
  let '(num, den) := fraction_of m e in
  shortest_from 17 (S754_finite false m e) num den (decade num den) 1.

(** Steps 6 to 10 of Number::toString: the digits of [s] laid out for the
    exponent [n]. *)
Definition layout (s k n : Z) : string :=
  let digits := JS.decimal (Z.to_N s) in
  let zeros z := JS.repeat_char "0" (Z.to_nat z) in
  if ((k <=? n) && (n <=? 21))%Z then digits +:+ zeros (n - k)%Z
  else if ((0 <? n) && (n <=? 21))%Z
  then JS.prefix (Z.to_nat n) digits +:+ "." +:+ JS.drop (Z.to_nat n) digits
  else if ((-6 <? n) && (n <=? 0))%Z then "0." +:+ zeros (- n)%Z +:+ digits
  else
    let e := (n - 1)%Z in
    let exponent :=
      "e" +:+ (if (e <? 0)%Z then "-" else "+") +:+ JS.decimal (Z.to_N (Z.abs e)) in
    if (k =? 1)%Z then digits +:+ exponent
    else JS.prefix 1 digits +:+ "." +:+ JS.drop 1 digits +:+ exponent.

(** Number::toString in radix 10. *)
Definition Number_toString (x : spec_float) : string :=
  match x with
  | S754_nan => "NaN"
  | S754_zero _ => "0"
  | S754_infinity neg => if neg then "-Infinity" else "Infinity"
  | S754_finite neg m e =>
      let '(s, k, n) := shortest m e in
      (if neg then "-" else "") +:+ layout s k n
  end.

(** *** Number literals *)

Definition digit_value (c : ascii) : N := (JS.code c - 48)%N.

(** The longest run of digits at the head of [s], accumulated into [acc];
    [cnt] counts the digits read. *)
Fixpoint take_digits (acc : N) (cnt : nat) (s : string) : N * nat * string :=
  match s with
  | String c r =>
      if JS.is_digit c then take_digits (acc * 10 + digit_value c) (S cnt) r
      else (acc, cnt, s)
  | EmptyString => (acc, cnt, s)
  end.

(** [0] or a digit from 1 to 9 followed by digits. *)
Definition scan_int (s : string) : option (N * string) :=
  match s with
  | String c r =>
      if Ascii.eqb c "0" then Some (0%N, r)
      else if JS.is_digit c
      then let '(m, _, r') := take_digits (digit_value c) 0 r in Some (m, r')
      else None
  | EmptyString => None
  end.

(** An optional fraction: a dot and at least one digit. The digits extend
    the significand [m]; their number is returned with it. *)
Definition scan_frac (m : N) (s : string) : option (N * nat * string) :=
  match s with
  | String c r =>
      if Ascii.eqb c "." then
        match r with
        | String d _ => if JS.is_digit d then Some (take_digits m 0 r) else None
        | EmptyString => None
        end
      else Some (m, 0, s)
  | EmptyString => Some (m, 0, s)
  end.

Definition scan_sign (s : string) : bool * string :=
  match s with
  | String c r =>
      if Ascii.eqb c "-" then (true, r)
      else if Ascii.eqb c "+" then (false, r)
      else (false, s)
  | EmptyString => (false, s)
  end.

(** An optional exponent: [e] or [E], an optional sign, at least one digit. *)
Definition scan_exp (s : string) : option (Z * string) :=
  match s with
  | String c r =>
      if Ascii.eqb c "e" || Ascii.eqb c "E" then
        let '(neg, r1) := scan_sign r in
        match r1 with
        | String d _ =>
            if JS.is_digit d
            then let '(x, _, r2) := take_digits 0 0 r1 in
                 Some (if neg then (- Z.of_N x)%Z else Z.of_N x, r2)
            else None
        | EmptyString => None
        end
      else Some (0%Z, s)
  | EmptyString => Some (0%Z, s)
  end.

Definition scan_minus (s : string) : bool * string :=
  match s with
  | String c r => if Ascii.eqb c "-" then (true, r) else (false, s)
  | EmptyString => (false, s)
  end.

(** A JSON number at the head of [s] and its binary64 value. *)
Definition scan_number (s : string) : option (spec_float * string) :=
  let '(neg, s1) := scan_minus s in
  match scan_int s1 with
  | Some (m, s2) =>
      match scan_frac m s2 with
      | Some (m', fd, s3) =>
          match scan_exp s3 with
          | Some (e, s4) =>
              Some (double_of_decimal neg m' (e - Z.of_nat fd), s4)
          | None => None
          end
      | None => None
      end
  | None => None
  end.

(** *** Strings *)

Definition dquote : ascii := "034".
Definition backslash : ascii := "\".
Definition newline : ascii := "010".

(** QuoteJSONString, one code unit at a time. *)
Definition escape (c : ascii) : string :=
  let n := JS.code c in
  if (n =? 8)%N then "\b"
  else if (n =? 9)%N then "\t"
  else if (n =? 10)%N then "\n"
  else if (n =? 12)%N then "\f"
  else if (n =? 13)%N then "\r"
  else if (n =? 34)%N then String backslash (String dquote EmptyString)
  else if (n =? 92)%N then "\\"
  else if (n <? 32)%N
  then "\u00" +:+ String (JS.hex_digit (n / 16)) (String (JS.hex_digit (n mod 16)) EmptyString)
  else String c EmptyString.

Fixpoint quote_chars (s : string) : string :=
  match s with
  | EmptyString => EmptyString
  | String c r => escape c +:+ quote_chars r
  end.

Definition quote (s : string) : string :=
  String dquote (quote_chars s +:+ String dquote EmptyString).

(** The code unit an escape letter stands for. *)
Definition unescape (e : ascii) : option ascii :=
  let n := JS.code e in
  if (n =? 34)%N then Some dquote
  else if (n =? 92)%N then Some backslash
  else if (n =? 47)%N then Some "/"%char
  else if (n =? 98)%N then Some "008"%char
  else if (n =? 102)%N then Some "012"%char
  else if (n =? 110)%N then Some "010"%char
  else if (n =? 114)%N then Some "013"%char
  else if (n =? 116)%N then Some "009"%char
  else None.

Definition hex_value (c : ascii) : option N :=
  let n := JS.code c in
  if JS.is_digit c then Some (n - 48)%N
  else if JS.in_range 97 102 c then Some (n - 87)%N
  else if JS.in_range 65 70 c then Some (n - 55)%N
  else None.

Definition hex4 (a b c d : ascii) : option N :=
  match hex_value a, hex_value b, hex_value c, hex_value d with
  | Some x, Some y, Some z, Some w => Some (((x * 16 + y) * 16 + z) * 16 + w)%N
  | _, _, _, _ => None
  end.

(** The characters of a string literal after its opening quote, up to and
    past the closing quote. An escape for a code unit of 256 or more has
    no counterpart in [String.string] and is not accepted. *)
Fixpoint parse_chars (s : string) : option (string * string) :=
  match s with
  | EmptyString => None
  | String c r =>
      if Ascii.eqb c dquote then Some (EmptyString, r)
      else if Ascii.eqb c backslash then
        match r with
        | String e r' =>
            match unescape e with
            | Some ch =>
                match parse_chars r' with
                | Some (str, rest) => Some (String ch str, rest)
                | None => None
                end
            | None =>
                if Ascii.eqb e "u" then
                  match r' with
                  | String h1 (String h2 (String h3 (String h4 r''))) =>
                      match hex4 h1 h2 h3 h4 with
                      | Some n =>
                          if (n <? 256)%N then
                            match parse_chars r'' with
                            | Some (str, rest) => Some (String (ascii_of_N n) str, rest)
                            | None => None
                            end
                          else None
                      | None => None
                      end
                  | _ => None
                  end
                else None
            end
        | EmptyString => None
        end
      else if (JS.code c <? 32)%N then None
      else
        match parse_chars r with
        | Some (str, rest) => Some (String c str, rest)
        | None => None
        end
  end.

(** *** Objects: property order *)

Fixpoint all_digits (s : string) : bool :=
  match s with
  | EmptyString => true
  | String c r => JS.is_digit c && all_digits r
  end.

Fixpoint digits_value (acc : N) (s : string) : N :=
  match s with
  | EmptyString => acc
  | String c r => digits_value (acc * 10 + digit_value c) r
  end.

(** An array index: the canonical decimal string of an integer below
    [2^32 - 1]. Such keys are enumerated first, in ascending order. *)
Definition array_index (k : string) : option N :=
  match k with
  | EmptyString => None
  | String c r =>
      if all_digits k && (negb (Ascii.eqb c "0") || negb (JS.truthy r))
      then let n := digits_value 0 k in
           if (n <? 4294967295)%N then Some n else None
      else None
  end.

Fixpoint has_key (k : string) (m : list (string * value)) : bool :=
  match m with
  | [] => false
  | (k', _) :: r => String.eqb k k' || has_key k r
  end.

Fixpoint set_member (k : string) (v : value) (m : list (string * value))
  : list (string * value) :=
  match m with
  | [] => []
  | (k', v') :: r =>
      if String.eqb k k' then (k', v) :: r else (k', v') :: set_member k v r
  end.

(** A new array-index key goes after the array-index keys that are not
    greater and before everything else. *)
Fixpoint insert_index (i : N) (k : string) (v : value)
  (m : list (string * value)) : list (string * value) :=
  match m with
  | [] => [(k, v)]
  | (k', v') :: r =>
      match array_index k' with
      | Some j =>
          if (j <=? i)%N then (k', v') :: insert_index i k v r
          else (k, v) :: m
      | None => (k, v) :: m
      end
  end.

(** CreateDataProperty on an ordinary object, whose members are listed in
    property order: an existing key keeps its place and takes the new
    value; a new key is placed by the order of OrdinaryOwnPropertyKeys. *)
Definition define (k : string) (v : value) (m : list (string * value))
  : list (string * value) :=
  if has_key k m then set_member k v m
  else match array_index k with
       | Some i => insert_index i k v m
       | None => m ++ [(k, v)]
       end.

(** *** The parser *)

Definition is_ws (c : ascii) : bool :=
  let n := JS.code c in ((n =? 32) || (n =? 9) || (n =? 10) || (n =? 13))%N.

Fixpoint skip_ws (s : string) : string :=
  match s with
  | String c r => if is_ws c then skip_ws r else s
  | EmptyString => EmptyString
  end.

Fixpoint expect (lit s : string) : option string :=
  match lit with
  | EmptyString => Some s
  | String c l =>
      match s with
      | String d r => if Ascii.eqb c d then expect l r else None
      | EmptyString => None
      end
  end.

(** The rest of [s] after the code unit [c], if [s] begins with it. *)
Definition begins_with (c : ascii) (s : string) : option string :=
  match s with
  | String d r => if Ascii.eqb d c then Some r else None
  | EmptyString => None
  end.

Definition keyword (lit : string) (v : value) (s : string)
  : option (value * string) :=
  match expect lit s with
  | Some r => Some (v, r)
  | None => None
  end.

(** Recursive descent over the JSON grammar. Every call spends one unit of
    [fuel]; [parse] below supplies more than any text can use. *)
Fixpoint parse_value (fuel : nat) (s : string) {struct fuel}
  : option (value * string) :=
  match fuel with
  | 0 => None
  | S f =>
      match skip_ws s with
      | EmptyString => None
      | String c r =>
          if Ascii.eqb c "n" then keyword "ull" Null r
          else if Ascii.eqb c "t" then keyword "rue" (Bool true) r
          else if Ascii.eqb c "f" then keyword "alse" (Bool false) r
          else if Ascii.eqb c dquote then
            match parse_chars r with
            | Some (str, r') => Some (Str str, r')
            | None => None
            end
          else if Ascii.eqb c "[" then
            match begins_with "]" (skip_ws r) with
            | Some r' => Some (Array [], r')
            | None =>
                match parse_elements f r with
                | Some (items, r') => Some (Array items, r')
                | None => None
                end
            end
          else if Ascii.eqb c "{" then
            match begins_with "}" (skip_ws r) with
            | Some r' => Some (Object [], r')
            | None =>
                match parse_members f [] r with
                | Some (members, r') => Some (Object members, r')
                | None => None
                end
            end
          else
            match scan_number (String c r) with
            | Some (x, r') => Some (Number x, r')
            | None => None
            end
      end
  end

with parse_elements (fuel : nat) (s : string) {struct fuel}
  : option (list value * string) :=
  match fuel with
  | 0 => None
  | S f =>
      match parse_value f s with
      | Some (v, r) =>
          match skip_ws r with
          | String c r' =>
              if Ascii.eqb c "," then
                match parse_elements f r' with
                | Some (vs, r'') => Some (v :: vs, r'')
                | None => None
                end
              else if Ascii.eqb c "]" then Some ([v], r')
              else None
          | EmptyString => None
          end
      | None => None
      end
  end

with parse_members (fuel : nat) (acc : list (string * value)) (s : string)
  {struct fuel} : option (list (string * value) * string) :=
  match fuel with
  | 0 => None
  | S f =>
      match skip_ws s with
      | String q r =>
          if Ascii.eqb q dquote then
            match parse_chars r with
            | Some (k, r1) =>
                match skip_ws r1 with
                | String c r2 =>
                    if Ascii.eqb c ":" then
                      match parse_value f r2 with
                      | Some (v, r3) =>
                          let acc' := define k v acc in
                          match skip_ws r3 with
                          | String d r4 =>
                              if Ascii.eqb d "," then parse_members f acc' r4
                              else if Ascii.eqb d "}" then Some (acc', r4)
                              else None
                          | EmptyString => None
                          end
                      | None => None
                      end
                    else None
                | EmptyString => None
                end
            | None => None
            end
          else None
      | EmptyString => None
      end
  end.

(** [JSON.parse(text)]: [None] stands for the SyntaxError it throws. *)
Definition parse (text : string) : option value :=
  match parse_value (2 * String.length text + 2) text with
  | Some (v, r) =>
      match skip_ws r with
      | EmptyString => Some v
      | _ => None
      end
  | None => None
  end.

(** *** [JSON.stringify(value, null, space)] *)

Fixpoint join (sep : string) (l : list string) : string :=
  match l with
  | [] => EmptyString
  | [x] => x
  | x :: r => x +:+ sep +:+ join sep r
  end.

(** SerializeJSONProperty with a non-empty [gap]; [indent] is the
    indentation of the enclosing level. A number that is not finite
    prints as [null]. *)
Fixpoint serialize (gap indent : string) (v : value) {struct v} : string :=
  match v with
  | Null => "null"
  | Bool true => "true"
  | Bool false => "false"
  | Number x => if isFinite x then Number_toString x else "null"
  | Str s => quote s
  | Array [] => "[]"
  | Array items =>
      let inner := indent +:+ gap in
      let separator := "," +:+ String newline inner in
      "[" +:+ String newline inner +:+
      join separator (List.map (serialize gap inner) items) +:+
      String newline indent +:+ "]"
  | Object [] => "{}"
  | Object members =>
      let inner := indent +:+ gap in
      let separator := "," +:+ String newline inner in
      "{" +:+ String newline inner +:+
      join separator
        (List.map (fun kv => quote (fst kv) +:+ ": " +:+ serialize gap inner (snd kv))
           members) +:+
      String newline indent +:+ "}"
  end.

(** [JSON.stringify(v, null, n)] for a number [n]: the gap is [n] spaces,
    at most ten. With [n = 0] the compact form has another layout, which
    the source does not use. *)
Definition stringify (v : value) (space : nat) : string :=
  serialize (JS.repeat_char " " (Nat.min space 10)) EmptyString v.

End JSON.

(* ===================================================================== *)
(** ** Exceptions, the outside world, and asynchronous computations       *)
(* ===================================================================== *)

(** A thrown value: an [Error] object with its [message], or a value that
    is not an [Error] (it fails [instanceof Error] and has no [message]). *)
Inductive thrown :=
| ErrorObj (message : string)
| NonError.

(** [(error as Error).message]: [None] is [undefined]. *)
Definition message_of (error : thrown) : option string :=
  match error with
  | ErrorObj m => Some m
  | NonError => None
  end.

(** A value interpolated into a template literal. *)
Definition interpolate (o : option string) : string :=
  match o with
  | Some s => s
  | None => "undefined"
  end.

Inductive completion (A : Type) :=
| Normal (a : A)
| Throw (e : thrown).
Arguments Normal {A} a.
Arguments Throw {A} e.

(** What a call can change: the directories it created, the files it wrote
    and the HTTP requests it sent (most recent first). *)
Record World := mkWorld {
  directories : gset string;
  files : gmap string string;
  requests : list (string * gmap string string)
}.

Definition add_directory (path : string) (w : World) : World :=
  mkWorld ({[ path ]} ∪ directories w) (files w) (requests w).

Definition add_file (path content : string) (w : World) : World :=
  mkWorld (directories w) (<[ path := content ]> (files w)) (requests w).

Definition add_request (url : string) (headers : gmap string string)
  (w : World) : World :=
  mkWorld (directories w) (files w) ((url, headers) :: requests w).

(** An [async] function body: it runs in a world, completes normally or
    abruptly, and leaves a world behind. [await] is sequencing. *)
Definition Async (A : Type) : Type := World -> completion A * World.

Definition ret {A} (a : A) : Async A := fun w => (Normal a, w).

Definition throw {A} (e : thrown) : Async A := fun w => (Throw e, w).

Definition bind {A B} (m : Async A) (k : A -> Async B) : Async B :=
  fun w =>
    match m w with
    | (Normal a, w') => k a w'
    | (Throw e, w') => (Throw e, w')
    end.

(** [try { body } catch (error) { handler }]: the effects of [body] up to
    the throw stay. *)
Definition try_catch {A} (body : Async A) (handler : thrown -> Async A)
  : Async A :=
  fun w =>
    match body w with
    | (Normal a, w') => (Normal a, w')
    | (Throw e, w') => handler e w'
    end.

(** A synchronous call that may throw. *)
Definition lift {A} (c : completion A) : Async A := fun w => (c, w).

Declare Scope async_scope.
Delimit Scope async_scope with async.
Notation "x <- m ;; k" := (bind m (fun x => k))
  (at level 100, m at next level, right associativity) : async_scope.
Notation "m ;;; k" := (bind m (fun _ => k))
  (at level 100, right associativity) : async_scope.

(* ===================================================================== *)
(** ** The platform                                                       *)
(* ===================================================================== *)

(** A [Response] of the Fetch API, as far as the source reads it:
    [response.ok], [response.status] and how [response.text()] settles. *)
Record Response := mkResponse {
  ok : bool;
  status : N;
  Response_text : completion string
}.

(** Everything [Fetcher.ts] imports or finds in the global scope, as it
    behaves during one call.
    - [downloadDir]: the constant exported by [config.ts];
    - [Date_now]: the value of [new Date()];
    - [random_source]: the bytes [crypto.randomBytes] hands out, in order;
    - [URL_new]: [new URL(url)], which throws on a string it cannot parse;
    - [isIpPrivate]: the default export of [private-ip];
    - [mkdir_error], [writeFile_error]: the message of the [Error] with
      which [fs.mkdir] (recursive) or [fs.writeFile] rejects, if it does;
    - [fetch_result]: how the global [fetch] settles;
    - [SyntaxError_message]: the message of the error [response.json()]
      rejects with on a body that is not JSON;
    - [JSDOM_body_text]: [new JSDOM(html)], every [script] and [style]
      element removed, then [document.body.textContent] ([None] is [null]);
    - [turndown]: [new TurndownService().turndown(html)]. *)
Record Platform := mkPlatform {
  downloadDir : string;
  Date_now : Date;
  random_source : nat -> Byte.byte;
  URL_new : string -> completion URL;
  isIpPrivate : string -> bool;
  mkdir_error : string -> option string;
  fetch_result : string -> gmap string string -> completion Response;
  SyntaxError_message : string -> string;
  JSDOM_body_text : string -> completion (option string);
  turndown : string -> completion string;
  writeFile_error : string -> string -> option string
}.

Section Primitives.
Variable P : Platform.

(** [crypto.randomBytes(n)] *)
Definition randomBytes (n : nat) : list Byte.byte :=
  List.map (random_source P) (seq 0 n).

(** [fs.mkdir(path, { recursive: true })] *)
Definition mkdir (path : string) : Async unit :=
  fun w =>
    match mkdir_error P path with
    | Some m => (Throw (ErrorObj m), w)
    | None => (Normal tt, add_directory path w)
    end.

(** [fs.writeFile(path, content, "utf8")]: creates or replaces the file. *)
Definition writeFile (path content : string) : Async unit :=
  fun w =>
    match writeFile_error P path content with
    | Some m => (Throw (ErrorObj m), w)
    | None => (Normal tt, add_file path content w)
    end.

(** [fetch(url, { headers })] *)
Definition fetch (url : string) (headers : gmap string string)
  : Async Response :=
  fun w => (fetch_result P url headers, add_request url headers w).

(** [response.json()]: the body text, parsed. *)
Definition Response_json (response : Response) : completion JSON.value :=
  match Response_text response with
  | Normal body =>
      match JSON.parse body with
      | Some v => Normal v
      | None => Throw (ErrorObj (SyntaxError_message P body))
      end
  | Throw e => Throw e
  end.

End Primitives.

(** [path.join(dir, name)] for a directory in the normal form that
    [path.resolve] returns (absolute, no trailing separator except for the
    root) and a name without separators. *)
Definition path_join (dir name : string) : string :=
  if String.eqb dir "/" then dir +:+ name else dir +:+ "/" +:+ name.

(* ===================================================================== *)
(** ** [src/types.ts] and the result shape                                *)
(* ===================================================================== *)

Record RequestPayload := mkRequest {
  url : string;
  headers : option (gmap string string)
}.

Inductive OutputFormat := Html | Json | Txt | Markdown.

(** One element of [content]. [text] is [None] when the property holds
    [undefined]. *)
Record TextContent := mkText {
  type : string;
  text : option string
}.

Record FetchResult := mkResult {
  content : list TextContent;
  isError : bool
}.

(* ===================================================================== *)
(** ** [src/Fetcher.ts]                                                   *)
(* ===================================================================== *)

Module Fetcher.
Section Fetcher.
Variable P : Platform.
Local Open Scope async_scope.

Definition applyLengthLimits (text : string) (maxLength startIndex : nat)
  : string :=
  if (String.length text <=? startIndex)%nat then EmptyString
  else
    let stop := Nat.min (startIndex + maxLength) (String.length text) in
    JS.substring text startIndex stop.

Definition ensureDownloadDirExists : Async unit :=
  try_catch
    (mkdir P (downloadDir P))
    (fun error =>
       throw (ErrorObj ("Failed to create download directory: "
                        +:+ interpolate (message_of error)))).

Definition generateUniqueFilename (url extension : string)
  : completion string :=
  let timestamp :=
    JS.prefix 15 (JS.remove_all JS.is_iso_punct (toISOString (Date_now P)))
    +:+ "Z" in
  let randomString := JS.hex (randomBytes P 4) in
  match URL_new P url with
  | Throw e => Throw e
  | Normal urlObj =>
      let pathParts := List.filter JS.truthy (JS.split "/" (pathname urlObj)) in
      let baseName :=
        if (0 <? List.length pathParts)%nat
        then List.last pathParts EmptyString
        else hostname urlObj in
      let baseName :=
        JS.substring
          (JS.replace_all (fun c => negb (JS.is_filename_safe c)) "_" baseName)
          0 50 in
      Normal (timestamp +:+ "-" +:+ randomString +:+ "-" +:+ baseName
              +:+ "." +:+ extension)
  end.

Definition userAgent : string :=
  "Mozilla/5.0 (Windows NT 10.0; Win64; x64) AppleWebKit/537.36 (KHTML, like Gecko) Chrome/120.0.0.0 Safari/537.36".

(** [{ "User-Agent": ..., ...headers }]: the caller's entries win. *)
Definition requestHeaders (headers : option (gmap string string))
  : gmap string string :=
  match headers with
  | Some h => h ∪ {[ "User-Agent" := userAgent ]}
  | None => {[ "User-Agent" := userAgent ]}
  end.

Definition blockedMessage (url : string) : string :=
  "Fetcher blocked an attempt to fetch a private IP " +:+ url +:+
  ". This is to prevent a security vulnerability where a local MCP could fetch privileged local IPs and exfiltrate data.".

(** The [switch] over [outputFormat]: content, content type, extension.
    Its [default] branch cannot be reached from the four operations and has
    no case here. *)
Definition process (response : Response) (outputFormat : OutputFormat)
  : completion (string * string * string) :=
  match outputFormat with
  | Html =>
      match Response_text response with
      | Normal content => Normal (content, "text/html", "html")
      | Throw e => Throw e
      end
  | Json =>
      match Response_json P response with
      | Normal jsonData =>
          Normal (JSON.stringify jsonData 2, "application/json", "json")
      | Throw e => Throw e
      end
  | Txt =>
      match Response_text response with
      | Normal htmlForText =>
          match JSDOM_body_text P htmlForText with
          | Normal textContent =>
              let content :=
                match textContent with
                | Some t => if JS.truthy t then t else EmptyString
                | None => EmptyString
                end in
              let content := JS.trim (JS.collapse_spaces content) in
              Normal (content, "text/plain", "txt")
          | Throw e => Throw e
          end
      | Throw e => Throw e
      end
  | Markdown =>
      match Response_text response with
      | Normal htmlForMarkdown =>
          match turndown P htmlForMarkdown with
          | Normal content => Normal (content, "text/markdown", "md")
          | Throw e => Throw e
          end
      | Throw e => Throw e
      end
  end.

Definition _fetchAndSave (url : string) (headers : option (gmap string string))
  (outputFormat : OutputFormat) : Async (string * string) :=
  try_catch
    (ensureDownloadDirExists ;;;
     (if isIpPrivate P url then throw (ErrorObj (blockedMessage url))
      else ret tt) ;;;
     response <- fetch P url (requestHeaders headers) ;;
     (if negb (ok response)
      then throw (ErrorObj ("HTTP error: " +:+ JS.decimal (status response)))
      else ret tt) ;;;
     processed <- lift (process response outputFormat) ;;
     let '(content, contentType, fileExtension) := processed in
     filename <- lift (generateUniqueFilename url fileExtension) ;;
     let filePath := path_join (downloadDir P) filename in
     writeFile P filePath content ;;;
     ret (filePath, contentType))
    (fun error =>
       match error with
       | ErrorObj message =>
           throw (ErrorObj ("Failed to fetch " +:+ url +:+ ": " +:+ message))
       | NonError =>
           throw (ErrorObj ("Failed to fetch " +:+ url +:+ ": Unknown error"))
       end).

Definition saved (filePath contentType : string) : FetchResult :=
  {| content :=
       [ mkText "text" (Some ("File saved to: " +:+ filePath));
         mkText "text" (Some ("Content-Type: " +:+ contentType)) ];
     isError := false |}.

Definition failed (error : thrown) : FetchResult :=
  {| content := [ mkText "text" (message_of error) ];
     isError := true |}.

Definition html (requestPayload : RequestPayload) : Async FetchResult :=
  try_catch
    (r <- _fetchAndSave (url requestPayload) (headers requestPayload) Html ;;
     ret (saved (fst r) (snd r)))
    (fun error => ret (failed error)).

Definition json (requestPayload : RequestPayload) : Async FetchResult :=
  try_catch
    (r <- _fetchAndSave (url requestPayload) (headers requestPayload) Json ;;
     ret (saved (fst r) (snd r)))
    (fun error => ret (failed error)).

Definition txt (requestPayload : RequestPayload) : Async FetchResult :=
  try_catch
    (r <- _fetchAndSave (url requestPayload) (headers requestPayload) Txt ;;
     ret (saved (fst r) (snd r)))
    (fun error => ret (failed error)).

Definition markdown (requestPayload : RequestPayload) : Async FetchResult :=
  try_catch
    (r <- _fetchAndSave (url requestPayload) (headers requestPayload) Markdown ;;
     ret (saved (fst r) (snd r)))
    (fun error => ret (failed error)).

End Fetcher.
End Fetcher.

(* ===================================================================== *)
(** ** A test platform                                                    *)
(* ===================================================================== *)

(** A fixed platform in the manner of the mocks of [fetcher.unit.test.ts]:
    the clock stands at 2023-10-27T10:30:00.000Z, the random bytes are
    a1 b2 c3 d4, the download directory is [/mock/.downloaded_files], the
    file system accepts every call and the network serves a few canned
    pages. Variants of it make one stage fail. *)
Module Demo.

Definition upper_hex_digit (n : N) : ascii :=
  if (n <? 10)%N then ascii_of_N (48 + n) else ascii_of_N (55 + n).

Definition percent (n : N) : string :=
  String "%" (String (upper_hex_digit (n / 16))
                (String (upper_hex_digit (n mod 16)) EmptyString)).

(** The path percent-encode set of the URL standard; a code unit from
    128 to 255 is encoded through its two UTF-8 bytes. *)
Definition encode_path_char (c : ascii) : string :=
  let n := JS.code c in
  if (n <? 33)%N || (n =? 34)%N || (n =? 35)%N || (n =? 60)%N || (n =? 62)%N
     || (n =? 63)%N || (n =? 96)%N || (n =? 123)%N || (n =? 125)%N
     || (n =? 127)%N
  then percent n
  else if (n <? 128)%N then String c EmptyString
  else percent (192 + n / 64) +:+ percent (128 + n mod 64).

Fixpoint encode_path (s : string) : string :=
  match s with
  | EmptyString => EmptyString
  | String c r => encode_path_char c +:+ encode_path r
  end.

(** The text before the first code unit satisfying [p], and the rest. *)
Fixpoint break (p : ascii -> bool) (s : string) : string * string :=
  match s with
  | EmptyString => (EmptyString, EmptyString)
  | String c r =>
      if p c then (EmptyString, s)
      else let '(a, b) := break p r in (String c a, b)
  end.

Definition one_of (set : string) (c : ascii) : bool :=
  negb (String.eqb (JS.remove_all (Ascii.eqb c) set) set).

Fixpoint every (p : ascii -> bool) (s : string) : bool :=
  match s with
  | EmptyString => true
  | String c r => p c && every p r
  end.

(** A stand-in for [new URL(url)] on plain [scheme://host/path?query#hash]
    addresses in lower case, without credentials, port or dot segments. *)
Definition parse_url (u : string) : completion URL :=
  let '(scheme, rest) := break (Ascii.eqb ":") u in
  match rest with
  | String _ (String "/" (String "/" after)) =>
      let '(authority, tail) := break (one_of "/?#") after in
      let '(path, _) := break (one_of "?#") tail in
      if JS.truthy scheme && every JS.is_lower scheme && JS.truthy authority
      then Normal {| hostname := authority;
                     pathname := if JS.truthy path then encode_path path else "/" |}
      else Throw (ErrorObj "Invalid URL")
  | _ => Throw (ErrorObj "Invalid URL")
  end.

Definition clock : Date := mkDate 2023 9 27 10 30 0 0.

Definition tape (i : nat) : Byte.byte :=
  match i mod 4 with
  | 0 => Byte.xa1
  | 1 => Byte.xb2
  | 2 => Byte.xc3
  | _ => Byte.xd4
  end.

(** A stand-in for [private-ip]: addresses written with a private,
    loopback or link-local IPv4 host. *)
Definition private_address (u : string) : bool :=
  JS.startsWith "http://10." u || JS.startsWith "http://192.168." u
  || JS.startsWith "http://127." u || JS.startsWith "http://169.254." u.

Definition mockHtml : string :=
  "<html><head><title>Test Page</title><script>console.log('This should be removed');</script><style>body { color: red; }</style></head><body><h1>Hello World</h1> <p>This is a test paragraph.</p></body></html>".

Definition blankHtml : string :=
  "<html><head><script>let x = 1;</script></head><body>   <style>p { margin: 0 }</style> </body></html>".

Definition mockJson : string :=
  "{" +:+ JSON.quote "key" +:+ ": " +:+ JSON.quote "value" +:+ ", "
  +:+ JSON.quote "count" +:+ ": 3}".

Definition serve (u : string) (_ : gmap string string) : completion Response :=
  match parse_url u with
  | Throw _ => Throw (ErrorObj ("Failed to parse URL from " +:+ u))
  | Normal _ =>
      if String.eqb u "https://example.com/missing"
      then Normal (mkResponse false 404 (Normal "Not Found"))
      else if String.eqb u "https://example.com/blank"
      then Normal (mkResponse true 200 (Normal blankHtml))
      else if String.eqb u "https://api.example.com/data.json"
      then Normal (mkResponse true 200 (Normal mockJson))
      else if String.eqb u "https://api.example.com/huge.json"
      then Normal (mkResponse true 200 (Normal "1e999"))
      else if JS.startsWith "https://example.com" u
      then Normal (mkResponse true 200 (Normal mockHtml))
      else Throw (ErrorObj "fetch failed")
  end.

Definition body_text (html : string) : completion (option string) :=
  if String.eqb html mockHtml
  then Normal (Some "Hello World This is a test paragraph.")
  else if String.eqb html blankHtml then Normal (Some "    ")
  else Normal (Some EmptyString).

Definition to_markdown (html : string) : completion string :=
  if String.eqb html mockHtml
  then Normal ("# Hello World" +:+ String JSON.newline (String JSON.newline
               "This is a test paragraph."))
  else Normal EmptyString.

Definition make (mkdir_answer : string -> option string)
  (network : string -> gmap string string -> completion Response)
  (write_answer : string -> string -> option string) : Platform :=
  {| downloadDir := "/mock/.downloaded_files";
     Date_now := clock;
     random_source := tape;
     URL_new := parse_url;
     isIpPrivate := private_address;
     mkdir_error := mkdir_answer;
     fetch_result := network;
     SyntaxError_message := fun _ => "Unexpected token";
     JSDOM_body_text := body_text;
     turndown := to_markdown;
     writeFile_error := write_answer |}.

Definition platform : Platform :=
  make (fun _ => None) serve (fun _ _ => None).

(** The same platform on a file system that refuses to create the
    download directory. *)
Definition read_only : Platform :=
  make (fun _ => Some "EACCES: permission denied, mkdir '/mock/.downloaded_files'")
    serve (fun _ _ => None).

(** The same platform on a full disk. *)
Definition disk_full : Platform :=
  make (fun _ => None) serve (fun _ _ => Some "Disk full").

(** The same platform in front of a server that answers 404. *)
Definition not_found : Platform :=
  make (fun _ => None)
    (fun _ _ => Normal (mkResponse false 404 (Normal "Not Found")))
    (fun _ _ => None).

(** The same platform with a network on which [fetch] rejects. *)
Definition offline (reason : thrown) : Platform :=
  make (fun _ => None) (fun _ _ => Throw reason) (fun _ _ => None).

Definition nothing : World := mkWorld ∅ ∅ [].

Definition request (u : string) : RequestPayload := mkRequest u None.

End Demo.

(* ===================================================================== *)
(** ** Vocabulary of the statements                                       *)
(* ===================================================================== *)

(** The public operation for an output format. *)
Definition operation (P : Platform) (k : OutputFormat)
  : RequestPayload -> Async FetchResult :=
  match k with
  | Html => Fetcher.html P
  | Json => Fetcher.json P
  | Txt => Fetcher.txt P
  | Markdown => Fetcher.markdown P
  end.

(** The content type and the file extension that go with a format. *)
Definition contentType_of (k : OutputFormat) : string :=
  match k with
  | Html => "text/html"
  | Json => "application/json"
  | Txt => "text/plain"
  | Markdown => "text/markdown"
  end.

Definition extension_of (k : OutputFormat) : string :=
  match k with
  | Html => "html"
  | Json => "json"
  | Txt => "txt"
  | Markdown => "md"
  end.

(** The replacement the generator applies to a base name. *)
Definition sanitize (s : string) : string :=
  JS.replace_all (fun c => negb (JS.is_filename_safe c)) "_" s.

(** The time stamp and the random part at the head of a generated name. *)
Definition name_head (P : Platform) : string :=
  (JS.prefix 15 (JS.remove_all JS.is_iso_punct (toISOString (Date_now P)))
   +:+ "Z") +:+ "-" +:+ JS.hex (randomBytes P 4).

Fixpoint all_chars (p : ascii -> bool) (s : string) : bool :=
  match s with
  | EmptyString => true
  | String c r => p c && all_chars p r
  end.

(** The message for a blocked address in the words of the specification. *)
Definition specified_blocked_message (url : string) : string :=
  "Failed to fetch " +:+ url +:+
  ": Fetcher blocked an attempt to fetch a private IP " +:+ url +:+
  ". This is to prevent a security vulnerability where a local agent could fetch privileged local IPs and exfiltrate data.".

(** The error that the [catch] clause of [_fetchAndSave] throws for a
    caught value. *)
Definition wrapped (url : string) (error : thrown) : thrown :=
  match error with
  | ErrorObj message =>
      ErrorObj ("Failed to fetch " +:+ url +:+ ": " +:+ message)
  | NonError => ErrorObj ("Failed to fetch " +:+ url +:+ ": Unknown error")
  end.

(** An error result with one message. *)
Definition error_result (message : string) : FetchResult :=
  mkResult [mkText "text" (Some message)] true.

(** The stages of the pipeline that can fail, and the first one that does
    on a given platform, if any. *)
Inductive Stage :=
| DirectoryCreation
| PrivateAddress
| Transport
| HttpStatus
| Transformation
| Naming
| FileWrite.

Definition first_failure (P : Platform) (req : RequestPayload) (k : OutputFormat)
  : option Stage :=
  match mkdir_error P (downloadDir P) with
  | Some _ => Some DirectoryCreation
  | None =>
      if isIpPrivate P (url req) then Some PrivateAddress
      else
        match fetch_result P (url req) (Fetcher.requestHeaders (headers req)) with
        | Throw _ => Some Transport
        | Normal response =>
            if negb (ok response) then Some HttpStatus
            else
              match Fetcher.process P response k with
              | Throw _ => Some Transformation
              | Normal (body, _, extension) =>
                  match Fetcher.generateUniqueFilename P (url req) extension with
                  | Throw _ => Some Naming
                  | Normal name =>
                      match writeFile_error P (path_join (downloadDir P) name) body with
                      | Some _ => Some FileWrite
                      | None => None
                      end
                  end
              end
        end
  end.

(** An error result: [isError] set and one text segment with a message
    that is not empty. *)
Definition error_shaped (r : FetchResult) : Prop :=
  isError r = true /\
  exists m, content r = [mkText "text" (Some m)] /\ m <> EmptyString.

(** Every number of a value is finite and is read back from its own
    printed form. Negative zero (printed [0]) and the infinities (printed
    [null]) are the doubles that fail this. *)
Definition number_survives (x : spec_float) : bool :=
  JSON.isFinite x &&
  match JSON.scan_number (JSON.Number_toString x) with
  | Some (y, EmptyString) => JSON.same_double y x
  | _ => false
  end.

Fixpoint numbers_survive (v : JSON.value) : bool :=
  match v with
  | JSON.Number x => number_survives x
  | JSON.Array items => forallb numbers_survive items
  | JSON.Object members => forallb (fun kv => numbers_survive (snd kv)) members
  | _ => true
  end.

(** *** Vocabulary for JSON values *)

(** Whether the key [k] may stand before the key [k'] in the property
    order of an object: array indices first, in ascending order. *)
Definition key_before (k k' : string) : Prop :=
  match JSON.array_index k, JSON.array_index k' with
  | Some i, Some j => (i <= j)%N
  | Some _, None => True
  | None, Some _ => False
  | None, None => True
  end.

Definition keys (m : list (string * JSON.value)) : list string :=
  List.map fst m.

Definition property_order (m : list (string * JSON.value)) : Prop :=
  NoDup (keys m) /\ StronglySorted key_before (keys m).

(** The values [JSON.parse] can build: every object lists each key once,
    in property order. *)
Inductive well_formed : JSON.value -> Prop :=
| wf_null : well_formed JSON.Null
| wf_bool (b : bool) : well_formed (JSON.Bool b)
| wf_number (x : spec_float) : well_formed (JSON.Number x)
| wf_str (s : string) : well_formed (JSON.Str s)
| wf_array (items : list JSON.value) :
    Forall well_formed items -> well_formed (JSON.Array items)
| wf_object (members : list (string * JSON.value)) :
    property_order members ->
    Forall (fun kv => well_formed (snd kv)) members ->
    well_formed (JSON.Object members).

(** Fuel that suffices to parse the printed form of a value. *)
Fixpoint weight (v : JSON.value) : nat :=
  match v with
  | JSON.Array items => S (list_sum (List.map (fun x => S (weight x)) items))
  | JSON.Object members =>
      S (list_sum (List.map (fun kv => S (weight (snd kv))) members))
  | _ => 1
  end.

(** What may follow a number literal without being read as part of it. *)
Definition ends_token (rest : string) : bool :=
  match rest with
  | EmptyString => true
  | String c _ =>
      negb (JS.is_digit c || Ascii.eqb c "." || Ascii.eqb c "e" || Ascii.eqb c "E")
  end.

Definition spaces (n : nat) : string := JS.repeat_char " " n.

(** Indentation: a run of JSON white space. *)
Definition blank (s : string) : Prop := all_chars JSON.is_ws s = true.

(** The printed form of [v], at any indentation and followed by anything
    that ends a token, parses to [v] and leaves what followed. *)
Definition reads_back (gap : string) (v : JSON.value) : Prop :=
  forall (ind rest : string) (fuel : nat),
    blank ind -> ends_token rest = true -> weight v <= fuel ->
    JSON.parse_value fuel (JSON.serialize gap ind v +:+ rest) = Some (v, rest).

(** The members of a list defined one after the other on [acc]. *)
Definition define_all (members acc : list (string * JSON.value))
  : list (string * JSON.value) :=
  fold_left (fun a kv => JSON.define (fst kv) (snd kv) a) members acc.

(** The text of one member of an object. *)
Definition member_text (gap inner : string) (kv : string * JSON.value) : string :=
  JSON.quote (fst kv) +:+ ": " +:+ JSON.serialize gap inner (snd kv).

(* ===================================================================== *)
(** ** Vocabulary for the text format and the file names                  *)
(* ===================================================================== *)

(** The words of a text: its maximal runs of code units that are not white
    space, in order. *)
Fixpoint words (s : string) : list string :=
  match s with
  | EmptyString => []
  | String c r =>
      if JS.is_space c then words r
      else
        match r with
        | EmptyString => [String c EmptyString]
        | String d _ =>
            if JS.is_space d then String c EmptyString :: words r
            else
              match words r with
              | w :: ws => String c w :: ws
              | [] => [String c EmptyString]
              end
        end
  end.

(** A word: not empty, no white space in it. *)
Definition is_word (w : string) : Prop :=
  w <> EmptyString /\ all_chars (fun c => negb (JS.is_space c)) w = true.

(** The text that the txt format keeps of the text content of a body. *)
Definition visible_text (textContent : option string) : string :=
  match textContent with
  | Some t => t
  | None => EmptyString
  end.

(** The value of a lower-case hexadecimal digit. *)
Definition hex_digit_value (c : ascii) : N :=
  if JS.is_digit c then JS.code c - 48 else JS.code c - 87.

(** The bytes that a lower-case hexadecimal text stands for. *)
Fixpoint unhex (s : string) : list Byte.byte :=
  match s with
  | String a (String b r) =>
      match Byte.of_N (16 * hex_digit_value a + hex_digit_value b) with
      | Some x => x :: unhex r
      | None => []
      end
  | _ => []
  end.

(** The code units of a file name that is one plain path segment. *)
Definition is_name_char (c : ascii) : bool :=
  JS.is_filename_safe c || Ascii.eqb c ".".

(* ===================================================================== *)
(** ** The [path] module of Node.js on POSIX                              *)
(* ===================================================================== *)

(** [config.ts] resolves the download directory with [path.resolve], and
    [Fetcher.ts] puts file names under it with [path.join]. Both rest on
    [normalizeString], which walks the segments between separators: empty
    segments and [.] are dropped, [..] cancels the segment kept last. *)
Module Path.

(** [path.isAbsolute(path)] *)
Definition isAbsolute (path : string) : bool := JS.startsWith "/" path.

(** Whether the last code unit of a path is a separator. *)
Fixpoint trailingSeparator (path : string) : bool :=
  match path with
  | EmptyString => false
  | String c EmptyString => Ascii.eqb c "/"
  | String _ r => trailingSeparator r
  end.

(** The loop of [normalizeString] over the segments; [res] holds the
    segments kept so far, the last one first. *)
Fixpoint normalize_segments (allowAboveRoot : bool) (res segments : list string)
  : list string :=
  match segments with
  | [] => List.rev res
  | s :: rest =>
      if String.eqb s EmptyString || String.eqb s "."
      then normalize_segments allowAboveRoot res rest
      else if String.eqb s ".."
      then
        match res with
        | last :: before =>
            if String.eqb last ".."
            then normalize_segments allowAboveRoot
                   (if allowAboveRoot then ".." :: res else res) rest
            else normalize_segments allowAboveRoot before rest
        | [] =>
            normalize_segments allowAboveRoot
              (if allowAboveRoot then [".."] else []) rest
        end
      else normalize_segments allowAboveRoot (s :: res) rest
  end.

Definition normalizeString (path : string) (allowAboveRoot : bool) : string :=
  JSON.join "/" (normalize_segments allowAboveRoot [] (JS.split "/" path)).

(** [path.normalize(path)] *)
Definition normalize (path : string) : string :=
  if String.eqb path EmptyString then "."
  else
    let isAbsolute := isAbsolute path in
    let trailing := trailingSeparator path in
    let path := normalizeString path (negb isAbsolute) in
    if String.eqb path EmptyString
    then if isAbsolute then "/" else if trailing then "./" else "."
    else
      let path := if trailing then path +:+ "/" else path in
      if isAbsolute then "/" +:+ path else path.

(** [path.join(...paths)]: the non-empty arguments, joined and normalized. *)
Definition join (paths : list string) : string :=
  match List.filter JS.truthy paths with
  | [] => "."
  | parts => normalize (JSON.join "/" parts)
  end.

(** The loop of [path.resolve]: from the last argument to the first and
    then the working directory, until the path built is absolute. *)
Fixpoint resolve_loop (pending : list string) (resolvedPath : string)
  : string * bool :=
  match pending with
  | [] => (resolvedPath, false)
  | path :: more =>
      if String.eqb path EmptyString then resolve_loop more resolvedPath
      else
        let resolvedPath := path +:+ "/" +:+ resolvedPath in
        if isAbsolute path then (resolvedPath, true)
        else resolve_loop more resolvedPath
  end.

(** [path.resolve(...paths)] in a process whose working directory is
    [cwd]. *)
Definition resolve (cwd : string) (paths : list string) : string :=
  let '(resolvedPath, resolvedAbsolute) :=
    resolve_loop (List.rev paths ++ [cwd])%list EmptyString in
  let resolvedPath := normalizeString resolvedPath (negb resolvedAbsolute) in
  if resolvedAbsolute then "/" +:+ resolvedPath
  else if JS.truthy resolvedPath then resolvedPath else ".".

(** The code units of a path from its end: separators are skipped, then
    the code units of the last segment are taken or skipped. *)
Definition is_separator (c : ascii) : bool := Ascii.eqb c "/".

Fixpoint skip (p : ascii -> bool) (l : list ascii) : list ascii :=
  match l with
  | c :: r => if p c then skip p r else l
  | [] => []
  end.

Fixpoint take (p : ascii -> bool) (l : list ascii) : list ascii :=
  match l with
  | c :: r => if p c then c :: take p r else []
  | [] => []
  end.

(** [path.basename(path)]: the last segment, whatever separators follow
    it; empty when the path has no segment. *)
Definition basename (path : string) : string :=
  let fromEnd := skip is_separator (List.rev (list_ascii_of_string path)) in
  string_of_list_ascii
    (List.rev (take (fun c => negb (is_separator c)) fromEnd)).

(** [path.dirname(path)]: the path up to the separator before its last
    segment. The scan from the end stops at index 1, so a leading
    separator is never given up. *)
Definition dirname (path : string) : string :=
  match path with
  | EmptyString => "."
  | String first rest =>
      let hasRoot := is_separator first in
      let fromEnd := skip is_separator (List.rev (list_ascii_of_string rest)) in
      match skip (fun c => negb (is_separator c)) fromEnd with
      | [] => if hasRoot then "/" else "."
      | _ :: before =>
          match before with
          | [] => if hasRoot then "//" else String first EmptyString
          | _ => String first (string_of_list_ascii (List.rev before))
          end
      end
  end.

End Path.

(** A segment that [normalizeString] keeps as it is: not empty, neither
    [.] nor [..], and without a separator. *)
Definition plain_segment (s : string) : Prop :=
  s <> EmptyString /\ s <> "." /\ s <> ".."
  /\ all_chars (fun c => negb (Ascii.eqb c "/")) s = true.

(** An absolute path in normal form: the root, or a separator before each
    of its plain segments. This is the form of what [path.resolve]
    returns in a process with an absolute working directory. *)
Definition normal_path (p : string) : Prop :=
  exists segments,
    Forall plain_segment segments /\ p = "/" +:+ JSON.join "/" segments.

(* ===================================================================== *)
(** ** [src/config.ts]                                                    *)
(* ===================================================================== *)

Module Config.

(** A property of the object that [minimist] builds from the command
    line. An option that is not given is [undefined]; [--name=text] gives
    the text; anything else [minimist] makes of an option (a number for
    text that reads as one, [true] for a bare option, [false] for
    [--no-name], an array for a repeated option) is no string, and
    [rejection] is the message of the [TypeError] with which the functions
    of [path] refuse it. *)
Inductive Arg :=
| Undefined
| Text (s : string)
| Other (truthy : bool) (rejection : string).

Definition truthy (a : Arg) : bool :=
  match a with
  | Undefined => false
  | Text s => JS.truthy s
  | Other b _ => b
  end.

(** What the module reads when it is loaded: two properties of [argv],
    one of [process.env] (after [dotenv.config()]) and [process.cwd()]. *)
Record Process := mkProcess {
  argv_download_dir : Arg;
  argv_downloadDir : Arg;
  env_MCP_DOWNLOAD_DIR : option string;
  cwd : string
}.

(** The value that lines 13 to 18 leave in [downloadDirSource]. *)
Definition downloadDirSource (p : Process) : Arg :=
  let downloadDirSource :=
    if truthy (argv_download_dir p) then argv_download_dir p
    else argv_downloadDir p in
  if negb (truthy downloadDirSource)
  then match env_MCP_DOWNLOAD_DIR p with
       | Some s => Text s
       | None => Undefined
       end
  else downloadDirSource.

(** The exported constant, by the value of [downloadDirSource]: a truthy
    one goes to [path.resolve], which throws on a value that is no string;
    evaluating the module can throw. *)
Definition downloadDir (p : Process) : completion string :=
  match downloadDirSource p with
  | Text s =>
      if JS.truthy s then Normal (Path.resolve (cwd p) [s])
      else Normal (Path.resolve (cwd p) [cwd p; ".downloaded_files"])
  | Other true rejection => Throw (ErrorObj rejection)
  | Other false _ | Undefined =>
      Normal (Path.resolve (cwd p) [cwd p; ".downloaded_files"])
  end.

(** What [minimist] makes of a bare [--download-dir]: [true], which
    [path.resolve] of Node.js 20 refuses in these words. *)
Definition bare_option : Arg :=
  Other true ("The " +:+ JSON.quote "paths[0]" +:+
              " argument must be of type string. Received type boolean (true)").

End Config.

(* ===================================================================== *)
(** ** The YouTube helper [parseVideoId]                                  *)
(* ===================================================================== *)

Module YouTube.

(** A [URL] object with its query: [searchParams] lists the name-value
    pairs of the query, decoded, in the order of the query. *)
Record Location := mkLocation {
  address : URL;
  searchParams : list (string * string)
}.

(** [searchParams.get(name)]: the value of the first pair with that name;
    [searchParams.has(name)] tells whether there is one. *)
Fixpoint get (name : string) (params : list (string * string)) : option string :=
  match params with
  | [] => None
  | (n, v) :: rest => if String.eqb n name then Some v else get name rest
  end.

Definition has (name : string) (params : list (string * string)) : bool :=
  match get name params with
  | Some _ => true
  | None => false
  end.

(** [s.endsWith(suffix)] *)
Fixpoint endsWith (suffix s : string) : bool :=
  String.eqb s suffix
  || match s with
     | EmptyString => false
     | String _ r => endsWith suffix r
     end.

(** [/^[a-zA-Z0-9_-]{11}$/.test(s)] *)
Definition is_video_id (s : string) : bool :=
  (String.length s =? 11)%nat && all_chars JS.is_filename_safe s.

(** [/[a-zA-Z0-9_-]{11}/] anchored at the start of [s]: the eleven code
    units it matches. *)
Definition eleven (s : string) : option string :=
  let id := JS.prefix 11 s in
  if is_video_id id then Some id else None.

(** [/\/(embed|shorts)\/([a-zA-Z0-9_-]{11})/] anchored at the start of
    [s]: its second group. *)
Definition embed_or_shorts_here (s : string) : option string :=
  if JS.startsWith "/embed/" s then eleven (JS.drop 7 s)
  else if JS.startsWith "/shorts/" s then eleven (JS.drop 8 s)
  else None.

(** [s.match(/\/(embed|shorts)\/([a-zA-Z0-9_-]{11})/)]: the second group
    of the leftmost match. *)
Fixpoint match_embed_or_shorts (s : string) : option string :=
  match embed_or_shorts_here s with
  | Some id => Some id
  | None =>
      match s with
      | EmptyString => None
      | String _ r => match_embed_or_shorts r
      end
  end.

(** [s.replace(/^\//, "")] *)
Definition strip_leading_slash (s : string) : string :=
  match s with
  | String "/" r => r
  | _ => s
  end.

Section ParseVideoId.

(** [new URL(url)] with the query it parsed. *)
Variable URL_new : string -> completion Location.

(** The body of the [try] block once the URL is parsed. *)
Definition recognise (u : Location) : completion string :=
  let notRecognised :=
    Throw (ErrorObj "Not a recognized YouTube video URL") in
  if endsWith "youtube.com" (hostname (address u))
     && (String.eqb (pathname (address u)) "/watch"
         || String.eqb (pathname (address u)) "/embed/"
         || String.eqb (pathname (address u)) "/shorts/")
  then
    match (if has "v" (searchParams u)
           then match get "v" (searchParams u) with
                | Some vid => if is_video_id vid then Some vid else None
                | None => None
                end
           else None) with
    | Some vid => Normal vid
    | None =>
        match match_embed_or_shorts (pathname (address u)) with
        | Some id => Normal id
        | None => notRecognised
        end
    end
  else if String.eqb (hostname (address u)) "youtu.be"
  then
    let vid := strip_leading_slash (pathname (address u)) in
    if is_video_id vid then Normal vid else notRecognised
  else notRecognised.

Definition parseVideoId (url : string) : completion string :=
  match
    match URL_new url with
    | Normal u => recognise u
    | Throw e => Throw e
    end
  with
  | Normal id => Normal id
  | Throw _ => Throw (ErrorObj "Invalid YouTube URL")
  end.

End ParseVideoId.

(** A stand-in for [new URL(url)] on addresses of the form
    [scheme://host/path?v=value]. *)
Definition parse_location (u : string) : completion Location :=
  match Demo.parse_url u with
  | Throw e => Throw e
  | Normal parsed =>
      let '(_, query) := Demo.break (Ascii.eqb "?") u in
      let '(query, _) := Demo.break (Ascii.eqb "#") query in
      Normal {| address := parsed;
                searchParams :=
                  match query with
                  | String "?" (String "v" (String "=" value)) => [("v", value)]
                  | _ => []
                  end |}
  end.

End YouTube.

(* ===================================================================== *)
(** ** The later [config.ts]: a download directory that can be written    *)
(* ===================================================================== *)

(** The version of [config.ts] that the tests of [config.unit.test.ts]
    exercise. It prefers the home directory and checks that the parent of
    the directory it picks exists and can be written. Console output and
    the debug report ([isDebugMode], [gatherDebugInfo]) are left out, and
    so is [getSafestBaseDir], which nothing calls. *)
Module SafeConfig.

(** What the module reads when it is loaded. An option is a [Config.Arg];
    here [Config.Other] stands for [true], [false] or a number (an array,
    from a repeated option, is not covered).
    - [existsSync]: [fs.existsSync(path)];
    - [writable]: whether [fs.accessSync(path, fs.constants.W_OK)]
      returns; it throws otherwise. *)
Record Host := mkHost {
  argv_download_dir : Config.Arg;
  argv_downloadDir : Config.Arg;
  env_MCP_DOWNLOAD_DIR : option string;
  env_MCP_HOST : option string;
  env_NODE_ENV : option string;
  cwd : string;
  homedir : string;
  existsSync : string -> bool;
  writable : string -> bool
}.

(** [variable === text] on a property of [process.env]. *)
Definition env_is (variable : option string) (text : string) : bool :=
  match variable with
  | Some value => String.eqb value text
  | None => false
  end.

(** [!!variable] *)
Definition env_set (variable : option string) : bool :=
  match variable with
  | Some value => JS.truthy value
  | None => false
  end.

Section SafeConfig.
Variable h : Host.

Definition isMcpEnvironment : bool :=
  let directSignals :=
    [ env_set (env_MCP_HOST h);
      env_is (env_NODE_ENV h) "mcp";
      String.eqb (cwd h) "/";
      env_is (env_MCP_DOWNLOAD_DIR h) "/fetch_downloads";
      env_is (env_MCP_DOWNLOAD_DIR h) "./fetch_downloads"
      && String.eqb (cwd h) "/" ] in
  if List.existsb (fun signal => signal) directSignals then true
  else if String.eqb (cwd h) "/"
       then if writable h "/" then false else true
       else false.

Definition IS_MCP : bool := isMcpEnvironment.

Definition createSafePath (basePath dirName : string) : string :=
  let fullPath := Path.join [basePath; dirName] in
  let parentDir := Path.dirname fullPath in
  if negb (existsSync h parentDir) then Path.join [homedir h; dirName]
  else if negb (writable h parentDir) then Path.join [homedir h; dirName]
  else fullPath.

(** [dirName || relativeDirName] and [dirName ? ... : ...] on the optional
    [dirName]. *)
Definition given (dirName : option string) : bool :=
  match dirName with
  | Some d => JS.truthy d
  | None => false
  end.

Definition normalizePath (inputPath : Config.Arg) : completion string :=
  match inputPath with
  | Config.Undefined | Config.Other false _ =>
      Normal (createSafePath (homedir h) "fetch_downloads")
  | Config.Other true _ =>
      Throw (ErrorObj "inputPath.includes is not a function")
  | Config.Text inputPath =>
      if negb (JS.truthy inputPath)
      then Normal (createSafePath (homedir h) "fetch_downloads")
      else if String.eqb inputPath "/fetch_downloads"
      then Normal (createSafePath (homedir h) "fetch_downloads")
      else
        let simple :=
          negb (JS.includes "/" inputPath) && negb (JS.includes "\" inputPath) in
        let dirName := if simple then Some inputPath else None in
        let inputPath := if simple then "./" +:+ inputPath else inputPath in
        if IS_MCP && (JS.startsWith "./" inputPath
                      || JS.startsWith "../" inputPath)
        then
          let relativeDirName := Path.basename inputPath in
          if given dirName || negb (String.eqb relativeDirName ".")
          then Normal (createSafePath (homedir h)
                         (match dirName with
                          | Some d => if JS.truthy d then d else relativeDirName
                          | None => relativeDirName
                          end))
          else Normal (createSafePath (homedir h) "fetch_downloads")
        else if Path.isAbsolute inputPath
        then Normal (createSafePath (Path.dirname inputPath)
                       (Path.basename inputPath))
        else if String.eqb (cwd h) "/"
        then
          match dirName with
          | Some d =>
              if JS.truthy d then Normal (createSafePath (homedir h) d)
              else Normal (createSafePath (homedir h) "fetch_downloads")
          | None => Normal (createSafePath (homedir h) "fetch_downloads")
          end
        else
          let resolvedPath := Path.resolve (cwd h) [cwd h; inputPath] in
          Normal (createSafePath (Path.dirname resolvedPath)
                    (Path.basename resolvedPath))
  end.

Definition downloadDirSource : Config.Arg :=
  let downloadDirSource :=
    if Config.truthy (argv_download_dir h) then argv_download_dir h
    else argv_downloadDir h in
  if negb (Config.truthy downloadDirSource)
  then match env_MCP_DOWNLOAD_DIR h with
       | Some s => Config.Text s
       | None => Config.Undefined
       end
  else downloadDirSource.

Definition downloadDir : string :=
  let resolvedPath :=
    match (if Config.truthy downloadDirSource
           then normalizePath downloadDirSource
           else Normal (createSafePath (homedir h) "fetch_downloads")) with
    | Normal resolvedPath => resolvedPath
    | Throw _ => createSafePath (homedir h) "fetch_downloads"
    end in
  if negb (JS.truthy resolvedPath)
  then createSafePath (homedir h) "fetch_downloads"
  else resolvedPath.

End SafeConfig.

(** A host in the manner of the tests: the home directory is
    [/home/user], the working directory [/home/user/project]; every
    directory exists, and the home directory, the working directory and
    [/tmp] can be written. *)
Definition desktop (MCP_HOST MCP_DOWNLOAD_DIR : option string) : Host :=
  {| argv_download_dir := Config.Undefined;
     argv_downloadDir := Config.Undefined;
     env_MCP_DOWNLOAD_DIR := MCP_DOWNLOAD_DIR;
     env_MCP_HOST := MCP_HOST;
     env_NODE_ENV := None;
     cwd := "/home/user/project";
     homedir := "/home/user";
     existsSync := fun _ => true;
     writable := fun path =>
       String.eqb path "/home/user" || String.eqb path "/home/user/project"
       || String.eqb path "/tmp" |}.

End SafeConfig.

(* ===================================================================== *)
(** * Facts about the string primitives                                   *)
(* ===================================================================== *)

Section StringFacts.

Lemma append_nil_r (s : string) : s +:+ EmptyString = s.
Proof. induction s as [|c s IH]; simpl; [reflexivity | now rewrite IH]. Qed.

Lemma append_assoc (a b c : string) : (a +:+ b) +:+ c = a +:+ (b +:+ c).
Proof. induction a as [|x a IH]; simpl; [reflexivity | now rewrite IH]. Qed.

Lemma length_append (a b : string) :
  String.length (a +:+ b) = String.length a + String.length b.
Proof. induction a as [|x a IH]; simpl; [reflexivity | now rewrite IH]. Qed.

Lemma remove_all_append p (a b : string) :
  JS.remove_all p (a +:+ b) = JS.remove_all p a +:+ JS.remove_all p b.
Proof.
  induction a as [|x a IH]; simpl; [reflexivity |].
  destruct (p x); simpl; now rewrite IH.
Qed.

Lemma prefix_exact (a b : string) :
  JS.prefix (String.length a) (a +:+ b) = a.
Proof. induction a as [|x a IH]; simpl; [now destruct b | now rewrite IH]. Qed.

Lemma prefix_length n (s : string) :
  String.length (JS.prefix n s) = Nat.min n (String.length s).
Proof.
  revert s; induction n as [|n IH]; intros [|c s]; simpl; try reflexivity.
  now rewrite IH.
Qed.

Lemma substring_from_zero (s : string) n : JS.substring s 0 n = JS.prefix n s.
Proof. unfold JS.substring. rewrite Nat.sub_0_r. now destruct s. Qed.

Lemma length_pad_digits w n : String.length (JS.pad_digits w n) = w.
Proof.
  revert n; induction w as [|w IH]; intros n; simpl; [reflexivity |].
  rewrite length_append, IH. simpl. lia.
Qed.

Lemma digit_char_cases d :
  exists k, k < 10 /\ JS.digit_char d = ascii_of_nat (48 + k).
Proof.
  exists (d mod 10). split; [apply Nat.mod_upper_bound; lia | reflexivity].
Qed.

Lemma digit_char_not_punct d : JS.is_iso_punct (JS.digit_char d) = false.
Proof.
  destruct (digit_char_cases d) as (k & Hk & ->).
  do 10 (destruct k as [|k]; [reflexivity |]). lia.
Qed.

Lemma remove_punct_pad_digits w n :
  JS.remove_all JS.is_iso_punct (JS.pad_digits w n) = JS.pad_digits w n.
Proof.
  revert n; induction w as [|w IH]; intros n; simpl; [reflexivity |].
  rewrite remove_all_append, IH. cbn [JS.remove_all].
  now rewrite digit_char_not_punct.
Qed.

(** The stamp of the file name for a four-digit year. *)
Lemma timestamp_compact (d : Date) :
  four_digit_year d ->
  JS.prefix 15 (JS.remove_all JS.is_iso_punct (toISOString d))
  = compact_stamp d.
Proof.
  intros [Hlo Hhi]. unfold toISOString, iso_year.
  replace ((0 <=? getUTCFullYear d)%Z && (getUTCFullYear d <=? 9999)%Z)
    with true
    by (symmetry; apply andb_true_intro; split; apply Z.leb_le; assumption).
  repeat rewrite remove_all_append.
  repeat rewrite remove_punct_pad_digits.
  cbn [JS.remove_all JS.is_iso_punct JS.code N_of_ascii N_of_digits
       N.eqb Pos.eqb orb N.add N.mul].
  simpl. reflexivity.
Qed.

Lemma length_compact_stamp d : String.length (compact_stamp d) = 15.
Proof.
  unfold compact_stamp.
  repeat rewrite length_append. repeat rewrite length_pad_digits.
  reflexivity.
Qed.

Lemma length_hex buf : String.length (JS.hex buf) = 2 * List.length buf.
Proof.
  induction buf as [|b buf IH]; simpl; [reflexivity |]. rewrite IH. lia.
Qed.

Lemma hex_digit_is_hex n : (n < 16)%N -> JS.is_hex_digit (JS.hex_digit n) = true.
Proof.
  intros H.
  assert (Hn : exists k, k < 16 /\ n = N.of_nat k).
  { exists (N.to_nat n). split; [lia | now rewrite N2Nat.id]. }
  destruct Hn as (k & Hk & ->).
  do 16 (destruct k as [|k]; [reflexivity |]). lia.
Qed.

Lemma all_chars_append p (a b : string) :
  all_chars p (a +:+ b) = all_chars p a && all_chars p b.
Proof.
  induction a as [|x a IH]; simpl; [reflexivity |].
  rewrite IH. now rewrite andb_assoc.
Qed.

Lemma hex_all_hex buf : all_chars JS.is_hex_digit (JS.hex buf) = true.
Proof.
  induction buf as [|b buf IH]; [reflexivity |].
  cbn [JS.hex]. rewrite all_chars_append, IH, andb_true_r.
  unfold JS.hex_of_byte. cbn [all_chars].
  assert (Hb : (Byte.to_N b <= 255)%N) by apply Byte.to_N_bounded.
  rewrite !hex_digit_is_hex; [reflexivity | |].
  - apply N.mod_upper_bound. lia.
  - apply N.Div0.div_lt_upper_bound. lia.
Qed.

Lemma length_randomBytes P n : List.length (randomBytes P n) = n.
Proof. unfold randomBytes. now rewrite List.length_map, List.length_seq. Qed.

(** Sanitizing replaces code unit by code unit. *)
Lemma length_sanitize (s : string) :
  String.length (sanitize s) = String.length s.
Proof.
  unfold sanitize.
  induction s as [|c s IH]; simpl; [reflexivity | now rewrite IH].
Qed.

Lemma get_sanitize (s : string) i :
  String.get i (sanitize s)
  = option_map (fun c => if JS.is_filename_safe c then c else "_"%char)
      (String.get i s).
Proof.
  unfold sanitize.
  revert i; induction s as [|c s IH]; intros i; simpl; [reflexivity |].
  destruct i as [|i]; simpl.
  - now destruct (JS.is_filename_safe c).
  - apply IH.
Qed.

Lemma sanitize_all_safe (s : string) :
  all_chars JS.is_filename_safe (sanitize s) = true.
Proof.
  unfold sanitize.
  induction s as [|c s IH]; simpl; [reflexivity |].
  rewrite IH, andb_true_r.
  destruct (JS.is_filename_safe c) eqn:E; simpl; [exact E | reflexivity].
Qed.

Lemma all_chars_prefix p n (s : string) :
  all_chars p s = true -> all_chars p (JS.prefix n s) = true.
Proof.
  revert s; induction n as [|n IH]; intros [|c s]; simpl; try reflexivity.
  intros H. apply andb_true_iff in H as [Hc Hs]. now rewrite Hc, IH.
Qed.

(** Splitting at a separator. *)
Lemma split_not_nil sep (s : string) : JS.split sep s <> [].
Proof.
  induction s as [|c s IH]; simpl; [discriminate |].
  destruct (Ascii.eqb c sep); [discriminate |].
  destruct (JS.split sep s); [contradiction | discriminate].
Qed.

Lemma split_append sep (a b : string) :
  JS.split sep (a +:+ String sep b) = (JS.split sep a ++ JS.split sep b)%list.
Proof.
  induction a as [|x a IH]; simpl.
  - now rewrite Ascii.eqb_refl.
  - destruct (Ascii.eqb x sep); [now rewrite IH |].
    rewrite IH.
    destruct (JS.split sep a) as [|h t] eqn:E; [now apply split_not_nil in E |].
    reflexivity.
Qed.

Lemma split_no_separator sep (s : string) :
  all_chars (fun c => negb (Ascii.eqb c sep)) s = true ->
  JS.split sep s = [s].
Proof.
  induction s as [|c s IH]; simpl; [reflexivity |].
  intros H. apply andb_true_iff in H as [Hc Hs].
  apply negb_true_iff in Hc. rewrite Hc, (IH Hs). reflexivity.
Qed.

Lemma filter_truthy_split_separators sep n :
  List.filter JS.truthy (JS.split sep (JS.repeat_char sep n)) = [].
Proof.
  induction n as [|n IH]; simpl; [reflexivity |].
  now rewrite Ascii.eqb_refl.
Qed.

(** The non-empty segments of a path that ends in a segment [seg] and
    any number of separators. *)
Lemma segments_ending_in sep (before seg : string) n :
  seg <> EmptyString ->
  all_chars (fun c => negb (Ascii.eqb c sep)) seg = true ->
  List.filter JS.truthy
    (JS.split sep (before +:+ String sep (seg +:+ JS.repeat_char sep n)))
  = (List.filter JS.truthy (JS.split sep before) ++ [seg])%list.
Proof.
  intros Hne Hseg. rewrite split_append, List.filter_app. f_equal.
  destruct n as [|n]; simpl.
  - rewrite append_nil_r, (split_no_separator _ _ Hseg). simpl.
    now destruct seg.
  - rewrite split_append, List.filter_app, (split_no_separator _ _ Hseg).
    rewrite filter_truthy_split_separators. simpl. now destruct seg.
Qed.

End StringFacts.

(* ===================================================================== *)
(** * The file name generator                                             *)
(* ===================================================================== *)

Section FilenameFacts.
Variable P : Platform.

(** The generated name in terms of the segments of the parsed path. *)
Lemma generateUniqueFilename_parts url extension urlObj :
  URL_new P url = Normal urlObj ->
  Fetcher.generateUniqueFilename P url extension
  = Normal
      (name_head P +:+ "-" +:+
       JS.prefix 50
         (sanitize
            (match List.filter JS.truthy (JS.split "/" (pathname urlObj)) with
             | [] => hostname urlObj
             | parts => List.last parts EmptyString
             end))
       +:+ "." +:+ extension).
Proof.
  intros H. unfold Fetcher.generateUniqueFilename, name_head. rewrite H.
  rewrite substring_from_zero. fold sanitize.
  rewrite !append_assoc.
  destruct (List.filter JS.truthy (JS.split "/" (pathname urlObj)));
    reflexivity.
Qed.

Lemma generateUniqueFilename_segment url extension urlObj before seg n :
  URL_new P url = Normal urlObj ->
  pathname urlObj = before +:+ String "/" (seg +:+ JS.repeat_char "/" n) ->
  seg <> EmptyString ->
  all_chars (fun c => negb (Ascii.eqb c "/")) seg = true ->
  Fetcher.generateUniqueFilename P url extension
  = Normal (name_head P +:+ "-" +:+ JS.prefix 50 (sanitize seg)
            +:+ "." +:+ extension).
Proof.
  intros H Hpath Hne Hseg.
  rewrite (generateUniqueFilename_parts _ _ _ H), Hpath.
  rewrite (segments_ending_in _ _ _ _ Hne Hseg).
  destruct (List.filter JS.truthy (JS.split "/" before) ++ [seg])%list
    as [|p ps] eqn:E.
  - now destruct (List.filter JS.truthy (JS.split "/" before)).
  - rewrite <- E, List.last_last. reflexivity.
Qed.

Lemma generateUniqueFilename_hostname url extension urlObj n :
  URL_new P url = Normal urlObj ->
  pathname urlObj = JS.repeat_char "/" n ->
  Fetcher.generateUniqueFilename P url extension
  = Normal (name_head P +:+ "-" +:+ JS.prefix 50 (sanitize (hostname urlObj))
            +:+ "." +:+ extension).
Proof.
  intros H Hpath.
  rewrite (generateUniqueFilename_parts _ _ _ H), Hpath.
  now rewrite filter_truthy_split_separators.
Qed.

Lemma name_head_compact :
  four_digit_year (Date_now P) ->
  name_head P
  = compact_stamp (Date_now P) +:+ "Z-" +:+ JS.hex (randomBytes P 4).
Proof.
  intros H. unfold name_head. rewrite (timestamp_compact _ H).
  now rewrite !append_assoc.
Qed.

End FilenameFacts.

(** C5. With the clock and the random source fixed, the generated name is a
    function of the URL and the extension alone: the stamp YYYYMMDDTHHMMSS
    of the clock, [Z], a dash, the eight hexadecimal digits of the four
    random bytes, a dash, a base name of at most 50 code units from
    [A-Za-z0-9_-], a dot and the extension. Platforms with the same clock, random bytes and URL parser
    generate the same name. At 2023-10-27T10:30:00Z with random bytes
    a1 b2 c3 d4, the name for [https://example.com/path/to/page] and
    [html] is [20231027T103000Z-a1b2c3d4-page.html]. *)
Theorem C5_generateUniqueFilename_deterministic :
  forall (P : Platform) (url extension : string) (urlObj : URL),
    four_digit_year (Date_now P) ->
    URL_new P url = Normal urlObj ->
    (exists baseName,
        Fetcher.generateUniqueFilename P url extension
        = Normal (compact_stamp (Date_now P) +:+ "Z-" +:+
                  JS.hex (randomBytes P 4) +:+ "-" +:+ baseName +:+ "." +:+
                  extension)
        /\ all_chars JS.is_filename_safe baseName = true
        /\ String.length baseName <= 50)
    /\ String.length (compact_stamp (Date_now P)) = 15
    /\ String.length (JS.hex (randomBytes P 4)) = 8
    /\ all_chars JS.is_hex_digit (JS.hex (randomBytes P 4)) = true
    /\ (forall P' : Platform,
          Date_now P' = Date_now P ->
          (forall i, random_source P' i = random_source P i) ->
          URL_new P' url = URL_new P url ->
          Fetcher.generateUniqueFilename P' url extension
          = Fetcher.generateUniqueFilename P url extension)
    /\ (Date_now P = mkDate 2023 9 27 10 30 0 0 ->
        randomBytes P 4 = [Byte.xa1; Byte.xb2; Byte.xc3; Byte.xd4] ->
        url = "https://example.com/path/to/page" ->
        urlObj = mkURL "example.com" "/path/to/page" ->
        Fetcher.generateUniqueFilename P url "html"
        = Normal "20231027T103000Z-a1b2c3d4-page.html").
Proof.
  intros P url extension urlObj Hyear Hurl.
  split; [| split; [| split; [| split; [| split]]]].
  - rewrite (generateUniqueFilename_parts P _ _ _ Hurl).
    rewrite (name_head_compact P Hyear), !append_assoc.
    eexists. split; [reflexivity |]. split.
    + apply all_chars_prefix, sanitize_all_safe.
    + rewrite prefix_length. lia.
  - apply length_compact_stamp.
  - now rewrite length_hex, length_randomBytes.
  - apply hex_all_hex.
  - intros P' Hdate Hrandom Hparse.
    unfold Fetcher.generateUniqueFilename, randomBytes.
    rewrite Hdate, Hparse.
    replace (List.map (random_source P') (seq 0 4))
      with (List.map (random_source P) (seq 0 4))
      by (apply List.map_ext; intros i; symmetry; apply Hrandom).
    reflexivity.
  - intros Hdate Hrandom -> ->.
    rewrite (generateUniqueFilename_parts P _ _ _ Hurl).
    unfold name_head. rewrite Hdate, Hrandom. reflexivity.
Qed.

Lemma C5_generateUniqueFilename_deterministic_witness :
  Fetcher.generateUniqueFilename Demo.platform
    "https://example.com/path/to/page" "html"
  = Normal "20231027T103000Z-a1b2c3d4-page.html".
Proof.
  destruct (C5_generateUniqueFilename_deterministic Demo.platform
              "https://example.com/path/to/page" "html"
              (mkURL "example.com" "/path/to/page"))
    as (_ & _ & _ & _ & _ & H).
  - unfold four_digit_year. simpl. lia.
  - reflexivity.
  - apply H; reflexivity.
Defined.

(** C6. The base name of a generated name comes from the last non-empty
    segment of the path of the parsed URL, or from the host name when the
    path has no non-empty segment. Every code unit outside [A-Za-z0-9_-]
    is replaced by one underscore, which keeps the length, and the result
    is cut to its first 50 code units. For a URL parsed to the host
    [example.com] and the path [/], the base name is [example_com]. *)
Theorem C6_basename_sanitized :
  forall (P : Platform) (url extension : string) (urlObj : URL),
    URL_new P url = Normal urlObj ->
    (forall before seg n,
        pathname urlObj = before +:+ String "/" (seg +:+ JS.repeat_char "/" n) ->
        seg <> EmptyString ->
        all_chars (fun c => negb (Ascii.eqb c "/")) seg = true ->
        Fetcher.generateUniqueFilename P url extension
        = Normal (name_head P +:+ "-" +:+ JS.prefix 50 (sanitize seg)
                  +:+ "." +:+ extension))
    /\ (forall n,
          pathname urlObj = JS.repeat_char "/" n ->
          Fetcher.generateUniqueFilename P url extension
          = Normal (name_head P +:+ "-" +:+
                    JS.prefix 50 (sanitize (hostname urlObj))
                    +:+ "." +:+ extension))
    /\ (forall s i,
          String.length (sanitize s) = String.length s
          /\ String.get i (sanitize s)
             = option_map
                 (fun c => if JS.is_filename_safe c then c else "_"%char)
                 (String.get i s)
          /\ String.length (JS.prefix 50 (sanitize s))
             = Nat.min 50 (String.length s))
    /\ (hostname urlObj = "example.com" -> pathname urlObj = "/" ->
        Fetcher.generateUniqueFilename P url extension
        = Normal (name_head P +:+ "-example_com." +:+ extension)).
Proof.
  intros P url extension urlObj Hurl.
  split; [| split; [| split]].
  - intros before seg n. now apply generateUniqueFilename_segment.
  - intros n. now apply generateUniqueFilename_hostname.
  - intros s i. split; [apply length_sanitize |].
    split; [apply get_sanitize |].
    now rewrite prefix_length, length_sanitize.
  - intros Hhost Hpath.
    rewrite (generateUniqueFilename_hostname P _ _ _ 1 Hurl Hpath), Hhost.
    reflexivity.
Qed.

Lemma C6_basename_sanitized_witness :
  Fetcher.generateUniqueFilename Demo.platform
    "https://example.com/file with spaces & special: chars!" "txt"
  = Normal (name_head Demo.platform +:+
            "-file_20with_20spaces_20__20special__20chars_.txt")
  /\ Fetcher.generateUniqueFilename Demo.platform "https://example.com" "json"
     = Normal (name_head Demo.platform +:+ "-example_com.json").
Proof.
  split.
  - destruct (C6_basename_sanitized Demo.platform
                "https://example.com/file with spaces & special: chars!" "txt"
                (mkURL "example.com"
                   "/file%20with%20spaces%20&%20special:%20chars!"))
      as (H & _); [reflexivity |].
    apply (H EmptyString "file%20with%20spaces%20&%20special:%20chars!" 0);
      [reflexivity | discriminate | reflexivity].
  - destruct (C6_basename_sanitized Demo.platform "https://example.com" "json"
                (mkURL "example.com" "/")) as (_ & _ & _ & H); [reflexivity |].
    apply H; reflexivity.
Defined.

(* ===================================================================== *)
(** * The pipeline                                                        *)
(* ===================================================================== *)

Section PipelineFacts.
Variable P : Platform.

(** [_fetchAndSave], stage by stage. *)
Lemma fetchAndSave_run url headers k w :
  Fetcher._fetchAndSave P url headers k w =
  match mkdir_error P (downloadDir P) with
  | Some m =>
      (Throw (wrapped url
                (ErrorObj ("Failed to create download directory: " +:+ m))), w)
  | None =>
      let w1 := add_directory (downloadDir P) w in
      if isIpPrivate P url
      then (Throw (wrapped url (ErrorObj (Fetcher.blockedMessage url))), w1)
      else
        let w2 := add_request url (Fetcher.requestHeaders headers) w1 in
        match fetch_result P url (Fetcher.requestHeaders headers) with
        | Throw e => (Throw (wrapped url e), w2)
        | Normal response =>
            if negb (ok response)
            then (Throw (wrapped url
                           (ErrorObj ("HTTP error: " +:+
                                      JS.decimal (status response)))), w2)
            else
              match Fetcher.process P response k with
              | Throw e => (Throw (wrapped url e), w2)
              | Normal (body, contentType, extension) =>
                  match Fetcher.generateUniqueFilename P url extension with
                  | Throw e => (Throw (wrapped url e), w2)
                  | Normal name =>
                      let filePath := path_join (downloadDir P) name in
                      match writeFile_error P filePath body with
                      | Some m => (Throw (wrapped url (ErrorObj m)), w2)
                      | None =>
                          (Normal (filePath, contentType),
                           add_file filePath body w2)
                      end
                  end
              end
        end
  end.
Proof.
  unfold Fetcher._fetchAndSave, Fetcher.ensureDownloadDirExists,
    try_catch, bind, ret, throw, lift, mkdir, fetch, writeFile.
  destruct (mkdir_error P (downloadDir P)) as [m|]; [reflexivity |].
  cbn beta iota zeta.
  destruct (isIpPrivate P url); [reflexivity |].
  destruct (fetch_result P url (Fetcher.requestHeaders headers))
    as [response | e]; [| now destruct e].
  destruct (negb (ok response)); [reflexivity |].
  cbn beta iota zeta.
  destruct (Fetcher.process P response k) as [[[body contentType] extension] | e];
    [| now destruct e].
  destruct (Fetcher.generateUniqueFilename P url extension) as [name | e];
    [| now destruct e].
  cbn beta iota zeta.
  destruct (writeFile_error P (path_join (downloadDir P) name) body);
    reflexivity.
Qed.

(** Each public operation returns; it turns what [_fetchAndSave] yields
    into a result. *)
Lemma operation_run k req w :
  operation P k req w =
  match Fetcher._fetchAndSave P (url req) (headers req) k w with
  | (Normal r, w') => (Normal (Fetcher.saved (fst r) (snd r)), w')
  | (Throw e, w') => (Normal (Fetcher.failed e), w')
  end.
Proof.
  destruct k;
    unfold operation, Fetcher.html, Fetcher.json, Fetcher.txt,
      Fetcher.markdown, try_catch, bind, ret;
    destruct (Fetcher._fetchAndSave P (url req) (headers req) _ w)
      as [[r | e] w']; reflexivity.
Qed.

Lemma failed_wrapped url e :
  exists m, Fetcher.failed (wrapped url e)
            = error_result ("Failed to fetch " +:+ url +:+ ": " +:+ m).
Proof. destruct e as [m |]; eexists; reflexivity. Qed.

Lemma failed_wrapped_shaped url e : error_shaped (Fetcher.failed (wrapped url e)).
Proof.
  destruct (failed_wrapped url e) as [m ->]. split; [reflexivity |].
  eexists. split; [reflexivity | discriminate].
Qed.

(** The content type and the extension that [process] yields. *)
Lemma process_types response k body contentType extension :
  Fetcher.process P response k = Normal (body, contentType, extension) ->
  contentType = contentType_of k /\ extension = extension_of k.
Proof.
  destruct k; unfold Fetcher.process; intros H.
  - destruct (Response_text response); inversion H; now subst.
  - destruct (Response_json P response); inversion H; now subst.
  - destruct (Response_text response) as [h |]; [| discriminate].
    destruct (JSDOM_body_text P h); inversion H; now subst.
  - destruct (Response_text response) as [h |]; [| discriminate].
    destruct (turndown P h); inversion H; now subst.
Qed.

End PipelineFacts.

(* ===================================================================== *)
(** * The cases of [fetcher.unit.test.ts], replayed                       *)
(* ===================================================================== *)

Example html_saves_the_body :
  Fetcher.html Demo.platform (Demo.request "https://example.com") Demo.nothing
  = (Normal (Fetcher.saved
               "/mock/.downloaded_files/20231027T103000Z-a1b2c3d4-example_com.html"
               "text/html"),
     add_file
       "/mock/.downloaded_files/20231027T103000Z-a1b2c3d4-example_com.html"
       Demo.mockHtml
       (add_request "https://example.com" (Fetcher.requestHeaders None)
          (add_directory "/mock/.downloaded_files" Demo.nothing))).
Proof. reflexivity. Qed.

Example markdown_saves_the_conversion :
  fst (Fetcher.markdown Demo.platform (Demo.request "https://example.com")
         Demo.nothing)
  = Normal (Fetcher.saved
              "/mock/.downloaded_files/20231027T103000Z-a1b2c3d4-example_com.md"
              "text/markdown").
Proof. reflexivity. Qed.

Example txt_saves_the_visible_text :
  files (snd (Fetcher.txt Demo.platform (Demo.request "https://example.com")
                Demo.nothing))
  !! "/mock/.downloaded_files/20231027T103000Z-a1b2c3d4-example_com.txt"
  = Some "Hello World This is a test paragraph.".
Proof. reflexivity. Qed.

Example network_error_is_reported :
  fst (Fetcher.html (Demo.offline (ErrorObj "Network error"))
         (Demo.request "https://example.com") Demo.nothing)
  = Normal (error_result "Failed to fetch https://example.com: Network error").
Proof. reflexivity. Qed.

Example rejection_without_error_is_reported :
  fst (Fetcher.json (Demo.offline NonError)
         (Demo.request "https://example.com") Demo.nothing)
  = Normal (error_result "Failed to fetch https://example.com: Unknown error").
Proof. reflexivity. Qed.

Example disk_full_is_reported :
  Fetcher.html Demo.disk_full (Demo.request "https://example.com") Demo.nothing
  = (Normal (error_result "Failed to fetch https://example.com: Disk full"),
     add_request "https://example.com" (Fetcher.requestHeaders None)
       (add_directory "/mock/.downloaded_files" Demo.nothing)).
Proof. reflexivity. Qed.

Example caller_headers_win :
  Fetcher.requestHeaders (Some {[ "User-Agent" := "curl/8"; "Accept" := "*/*" ]})
  !! "User-Agent" = Some "curl/8"
  /\ Fetcher.requestHeaders (Some {[ "Accept" := "*/*" ]}) !! "User-Agent"
     = Some Fetcher.userAgent.
Proof. split; reflexivity. Qed.

(* ===================================================================== *)
(** * The private-address guard                                           *)
(* ===================================================================== *)




(* ===================================================================== *)
(** * Requests whose URL does not parse                                   *)
(* ===================================================================== *)

(** Nothing in [Fetcher.ts] looks at the URL before the download directory
    is made: whatever the URL, a directory that can be created is there
    when the operation returns. *)
Lemma directory_created_first (P : Platform) k req w :
  mkdir_error P (downloadDir P) = None ->
  downloadDir P ∈ directories (snd (operation P k req w)).
Proof.
  intros Hdir. rewrite operation_run, fetchAndSave_run, Hdir.
  cbn beta iota zeta.
  assert (H0 : downloadDir P ∈ directories (add_directory (downloadDir P) w))
    by (unfold add_directory; simpl; set_solver).
  destruct (isIpPrivate P (url req)); [exact H0 |].
  destruct (fetch_result P (url req) (Fetcher.requestHeaders (headers req)))
    as [response |]; [| exact H0].
  destruct (negb (ok response)); [exact H0 |].
  destruct (Fetcher.process P response k) as [[[body ct] ext] |]; [| exact H0].
  destruct (Fetcher.generateUniqueFilename P (url req) ext) as [name |];
    [| exact H0].
  cbn beta iota zeta.
  destruct (writeFile_error P (path_join (downloadDir P) name) body);
    exact H0.
Qed.

(** C2, evaluated. For the request [{ url: "not-a-valid-url" }], which
    [new URL] rejects, [Fetcher.html] creates the download directory and
    hands the string to [fetch] before anything fails; the message it
    returns is the wrapped message of [fetch] and does not contain
    "Invalid URL format". *)
Theorem C2_invalid_url_not_rejected_first :
  URL_new Demo.platform "not-a-valid-url" = Throw (ErrorObj "Invalid URL")
  /\ fst (Fetcher.html Demo.platform (Demo.request "not-a-valid-url") Demo.nothing)
     = Normal (error_result
         "Failed to fetch not-a-valid-url: Failed to parse URL from not-a-valid-url")
  /\ JS.includes "Invalid URL format"
       "Failed to fetch not-a-valid-url: Failed to parse URL from not-a-valid-url"
     = false
  /\ directories
       (snd (Fetcher.html Demo.platform (Demo.request "not-a-valid-url") Demo.nothing))
     = {[ "/mock/.downloaded_files" ]}
  /\ requests
       (snd (Fetcher.html Demo.platform (Demo.request "not-a-valid-url") Demo.nothing))
     = [("not-a-valid-url", Fetcher.requestHeaders None)].
Proof.
  repeat split; reflexivity.
Qed.

(* ===================================================================== *)
(** * The uniform result                                                  *)
(* ===================================================================== *)

(** C3. Each of the four operations returns a result for every request,
    on every platform and in every world. When a stage of the pipeline
    fails (directory creation, the private-address guard, the HTTP
    transport, a status that is not ok, the transformation, the naming of
    the file, the write), the result has [isError] true and its content is
    one text segment with a message that is not empty; when none fails,
    [isError] is false. *)
Theorem C3_errors_become_results :
  forall (P : Platform) (k : OutputFormat) (req : RequestPayload) (w : World),
    exists r w',
      operation P k req w = (Normal r, w')
      /\ match first_failure P req k with
         | Some _ => error_shaped r
         | None => isError r = false
         end.
Proof.
  intros P k req w. rewrite operation_run, fetchAndSave_run.
  unfold first_failure.
  destruct (mkdir_error P (downloadDir P)) as [m |]; cbn beta iota zeta.
  { eexists _, _. split; [reflexivity | apply failed_wrapped_shaped]. }
  destruct (isIpPrivate P (url req)).
  { eexists _, _. split; [reflexivity | apply failed_wrapped_shaped]. }
  destruct (fetch_result P (url req) (Fetcher.requestHeaders (headers req)))
    as [response | e].
  2: { eexists _, _. split; [reflexivity | apply failed_wrapped_shaped]. }
  destruct (negb (ok response)).
  { eexists _, _. split; [reflexivity | apply failed_wrapped_shaped]. }
  destruct (Fetcher.process P response k) as [[[body ct] ext] | e].
  2: { eexists _, _. split; [reflexivity | apply failed_wrapped_shaped]. }
  destruct (Fetcher.generateUniqueFilename P (url req) ext) as [name | e].
  2: { eexists _, _. split; [reflexivity | apply failed_wrapped_shaped]. }
  cbn beta iota zeta.
  destruct (writeFile_error P (path_join (downloadDir P) name) body).
  { eexists _, _. split; [reflexivity | apply failed_wrapped_shaped]. }
  eexists _, _. split; reflexivity.
Qed.

(** C4. A result with [isError] false has exactly two text segments, in
    this order: "File saved to: " followed by the path of the generated
    file in the download directory, then "Content-Type: " followed by the
    content type of the format. The file is there when the operation
    returns. The content of a result is never empty. *)
Theorem C4_success_shape :
  forall (P : Platform) (k : OutputFormat) (req : RequestPayload)
         (w w' : World) (r : FetchResult),
    operation P k req w = (Normal r, w') ->
    content r <> []
    /\ (isError r = false ->
        exists name,
          Fetcher.generateUniqueFilename P (url req) (extension_of k) = Normal name
          /\ content r
             = [ mkText "text"
                   (Some ("File saved to: " +:+ path_join (downloadDir P) name));
                 mkText "text" (Some ("Content-Type: " +:+ contentType_of k)) ]
          /\ is_Some (files w' !! path_join (downloadDir P) name)).
Proof.
  intros P k req w w' r. rewrite operation_run, fetchAndSave_run.
  destruct (mkdir_error P (downloadDir P)) as [m |]; cbn beta iota zeta.
  { intros [= <- <-]. split; discriminate. }
  destruct (isIpPrivate P (url req)).
  { intros [= <- <-]. split; discriminate. }
  destruct (fetch_result P (url req) (Fetcher.requestHeaders (headers req)))
    as [response | e].
  2: { intros [= <- <-]. split; discriminate. }
  destruct (negb (ok response)).
  { intros [= <- <-]. split; discriminate. }
  destruct (Fetcher.process P response k) as [[[body ct] ext] | e] eqn:Hprocess.
  2: { intros [= <- <-]. split; discriminate. }
  destruct (process_types P _ _ _ _ _ Hprocess) as [-> ->].
  destruct (Fetcher.generateUniqueFilename P (url req) (extension_of k))
    as [name | e] eqn:Hname.
  2: { intros [= <- <-]. split; discriminate. }
  cbn beta iota zeta.
  destruct (writeFile_error P (path_join (downloadDir P) name) body).
  { intros [= <- <-]. split; discriminate. }
  intros [= <- <-]. split; [discriminate |]. intros _.
  exists name. split; [reflexivity |]. split; [reflexivity |].
  unfold add_file. simpl. rewrite lookup_insert_eq. eauto.
Qed.

Lemma C4_success_shape_witness :
  exists name,
    Fetcher.generateUniqueFilename Demo.platform "https://example.com" "html"
    = Normal name
    /\ content
         (Fetcher.saved
            "/mock/.downloaded_files/20231027T103000Z-a1b2c3d4-example_com.html"
            "text/html")
       = [ mkText "text"
             (Some ("File saved to: " +:+ path_join "/mock/.downloaded_files" name));
           mkText "text" (Some "Content-Type: text/html") ]
    /\ is_Some
         (files (snd (operation Demo.platform Html
                        (Demo.request "https://example.com") Demo.nothing))
          !! path_join "/mock/.downloaded_files" name).
Proof.
  destruct (C4_success_shape Demo.platform Html
              (Demo.request "https://example.com") Demo.nothing
              (snd (operation Demo.platform Html
                      (Demo.request "https://example.com") Demo.nothing))
              (Fetcher.saved
                 "/mock/.downloaded_files/20231027T103000Z-a1b2c3d4-example_com.html"
                 "text/html")) as [_ H]; [reflexivity |].
  apply H. reflexivity.
Defined.

(* ===================================================================== *)
(** * Failing stages                                                      *)
(* ===================================================================== *)

(** C7. When the response of the server is not ok, the operation returns
    the error result with the message "Failed to fetch <url>: HTTP error:
    <status>", the status in decimal, and no file is written. *)
Theorem C7_http_error :
  forall (P : Platform) (k : OutputFormat) (req : RequestPayload) (w : World)
         (response : Response),
    mkdir_error P (downloadDir P) = None ->
    isIpPrivate P (url req) = false ->
    fetch_result P (url req) (Fetcher.requestHeaders (headers req))
    = Normal response ->
    ok response = false ->
    fst (operation P k req w)
    = Normal (error_result ("Failed to fetch " +:+ url req +:+
                            ": HTTP error: " +:+ JS.decimal (status response)))
    /\ files (snd (operation P k req w)) = files w.
Proof.
  intros P k req w response Hdir Hpublic Hfetch Hok.
  rewrite operation_run, fetchAndSave_run, Hdir, Hpublic.
  cbn beta iota zeta. rewrite Hfetch, Hok. cbn [negb fst snd].
  split; [| reflexivity].
  unfold Fetcher.failed, wrapped, error_result, message_of.
  rewrite ?append_assoc; reflexivity.
Qed.

Lemma C7_http_error_witness :
  fst (operation Demo.not_found Html (Demo.request "https://example.com") Demo.nothing)
  = Normal (error_result "Failed to fetch https://example.com: HTTP error: 404")
  /\ files (snd (operation Demo.not_found Html (Demo.request "https://example.com")
                   Demo.nothing)) = ∅.
Proof.
  apply (C7_http_error Demo.not_found Html (Demo.request "https://example.com")
           Demo.nothing (mkResponse false 404 (Normal "Not Found")));
    reflexivity.
Defined.

(** C8, as the code has it. When the download directory cannot be created,
    [ensureDownloadDirExists] fails with exactly "Failed to create download
    directory: <reason>", and the operation returns the error result whose
    message is "Failed to fetch <url>: Failed to create download directory:
    <reason>": that message inside the wrapper that [_fetchAndSave] puts
    around every failure. Nothing else happens. *)
Theorem C8_directory_failure_wrapped :
  forall (P : Platform) (k : OutputFormat) (req : RequestPayload) (w : World)
         (reason : string),
    mkdir_error P (downloadDir P) = Some reason ->
    Fetcher.ensureDownloadDirExists P w
    = (Throw (ErrorObj ("Failed to create download directory: " +:+ reason)), w)
    /\ operation P k req w
       = (Normal (error_result
            ("Failed to fetch " +:+ url req +:+
             ": Failed to create download directory: " +:+ reason)), w).
Proof.
  intros P k req w reason Hdir. split.
  - unfold Fetcher.ensureDownloadDirExists, try_catch, mkdir, throw.
    now rewrite Hdir.
  - rewrite operation_run, fetchAndSave_run, Hdir.
    unfold Fetcher.failed, wrapped, error_result, message_of.
    rewrite ?append_assoc; reflexivity.
Qed.

Lemma C8_directory_failure_wrapped_witness :
  Fetcher.ensureDownloadDirExists Demo.read_only Demo.nothing
  = (Throw (ErrorObj
       "Failed to create download directory: EACCES: permission denied, mkdir '/mock/.downloaded_files'"),
     Demo.nothing)
  /\ operation Demo.read_only Txt (Demo.request "https://example.com") Demo.nothing
     = (Normal (error_result
          "Failed to fetch https://example.com: Failed to create download directory: EACCES: permission denied, mkdir '/mock/.downloaded_files'"),
        Demo.nothing).
Proof.
  apply (C8_directory_failure_wrapped Demo.read_only Txt
           (Demo.request "https://example.com") Demo.nothing
           "EACCES: permission denied, mkdir '/mock/.downloaded_files'").
  reflexivity.
Defined.

(** The message of the operation is not the bare message of
    [ensureDownloadDirExists]. *)
Lemma C8_counterexample :
  mkdir_error Demo.read_only (downloadDir Demo.read_only)
  = Some "EACCES: permission denied, mkdir '/mock/.downloaded_files'"
  /\ fst (Fetcher.html Demo.read_only (Demo.request "https://example.com") Demo.nothing)
     <> Normal (error_result
          "Failed to create download directory: EACCES: permission denied, mkdir '/mock/.downloaded_files'").
Proof.
  split; [reflexivity |]. vm_compute. intros H. discriminate H.
Qed.

(* ===================================================================== *)
(** * The text format on a page without visible text                      *)
(* ===================================================================== *)

Section BlankText.

Lemma collapse_blank_run (s : string) :
  all_chars JS.is_space s = true -> JS.collapse_from true s = EmptyString.
Proof.
  induction s as [|c s IH]; simpl; [reflexivity |].
  intros H. apply andb_true_iff in H as [Hc Hs]. rewrite Hc. now apply IH.
Qed.

Lemma trim_collapse_blank (s : string) :
  all_chars JS.is_space s = true ->
  JS.trim (JS.collapse_spaces s) = EmptyString.
Proof.
  destruct s as [|c s]; [reflexivity |].
  simpl. intros H. apply andb_true_iff in H as [Hc Hs].
  unfold JS.collapse_spaces. simpl. rewrite Hc, (collapse_blank_run _ Hs).
  reflexivity.
Qed.

End BlankText.

(** C10. A success result can point at an empty file. When the body of the
    page has no visible text once scripts and styles are gone (its text
    content is missing or consists of white space), [Fetcher.txt] succeeds:
    [isError] is false, both text segments of the result are non-empty,
    and the file it names holds the empty string. *)
Theorem C10_txt_can_write_empty_file :
  forall (P : Platform) (req : RequestPayload) (w : World)
         (response : Response) (html : string) (visible : option string)
         (name : string),
    mkdir_error P (downloadDir P) = None ->
    isIpPrivate P (url req) = false ->
    fetch_result P (url req) (Fetcher.requestHeaders (headers req))
    = Normal response ->
    ok response = true ->
    Response_text response = Normal html ->
    JSDOM_body_text P html = Normal visible ->
    match visible with
    | Some t => all_chars JS.is_space t = true
    | None => True
    end ->
    Fetcher.generateUniqueFilename P (url req) "txt" = Normal name ->
    writeFile_error P (path_join (downloadDir P) name) EmptyString = None ->
    exists r,
      fst (Fetcher.txt P req w) = Normal r
      /\ isError r = false
      /\ content r
         = [ mkText "text"
               (Some ("File saved to: " +:+ path_join (downloadDir P) name));
             mkText "text" (Some "Content-Type: text/plain") ]
      /\ Forall (fun segment => exists t, text segment = Some t /\ t <> EmptyString)
           (content r)
      /\ files (snd (Fetcher.txt P req w)) !! path_join (downloadDir P) name
         = Some EmptyString.
Proof.
  intros P req w response html visible name
    Hdir Hpublic Hfetch Hok Hbody Hdom Hblank Hname Hwrite.
  change (Fetcher.txt P) with (operation P Txt).
  rewrite operation_run, fetchAndSave_run, Hdir, Hpublic.
  cbn beta iota zeta. rewrite Hfetch, Hok. cbn [negb].
  assert (Hprocess : Fetcher.process P response Txt
                     = Normal (EmptyString, "text/plain", "txt")).
  { unfold Fetcher.process. rewrite Hbody, Hdom.
    destruct visible as [t |]; [| reflexivity].
    replace (if JS.truthy t then t else EmptyString) with t
      by (now destruct t).
    now rewrite (trim_collapse_blank _ Hblank). }
  rewrite Hprocess, Hname. cbn beta iota zeta. rewrite Hwrite.
  eexists. split; [reflexivity |]. split; [reflexivity |].
  split; [reflexivity |]. split.
  - repeat constructor; eexists; (split; [reflexivity | discriminate]).
  - unfold add_file. simpl. apply lookup_insert_eq.
Qed.

Lemma C10_txt_can_write_empty_file_witness :
  exists r,
    fst (Fetcher.txt Demo.platform (Demo.request "https://example.com/blank")
           Demo.nothing) = Normal r
    /\ isError r = false
    /\ content r
       = [ mkText "text"
             (Some "File saved to: /mock/.downloaded_files/20231027T103000Z-a1b2c3d4-blank.txt");
           mkText "text" (Some "Content-Type: text/plain") ]
    /\ Forall (fun segment => exists t, text segment = Some t /\ t <> EmptyString)
         (content r)
    /\ files (snd (Fetcher.txt Demo.platform
                     (Demo.request "https://example.com/blank") Demo.nothing))
       !! "/mock/.downloaded_files/20231027T103000Z-a1b2c3d4-blank.txt"
       = Some EmptyString.
Proof.
  apply (C10_txt_can_write_empty_file Demo.platform
           (Demo.request "https://example.com/blank") Demo.nothing
           (mkResponse true 200 (Normal Demo.blankHtml)) Demo.blankHtml
           (Some "    ") "20231027T103000Z-a1b2c3d4-blank.txt");
    reflexivity.
Defined.

(* ===================================================================== *)
(** * JSON: what is printed is read back                                  *)
(* ===================================================================== *)

Section JSONStrings.

(** An escaped code unit is read back as that code unit. *)
Lemma parse_chars_escape (c : ascii) (s : string) :
  JSON.parse_chars (JSON.escape c +:+ s)
  = match JSON.parse_chars s with
    | Some (str, rest) => Some (String c str, rest)
    | None => None
    end.
Proof. destruct c as [[] [] [] [] [] [] [] []]; reflexivity. Qed.

Lemma parse_chars_quote_chars (s rest : string) :
  JSON.parse_chars (JSON.quote_chars s +:+ String JSON.dquote rest)
  = Some (s, rest).
Proof.
  induction s as [|c s IH]; [reflexivity |].
  cbn [JSON.quote_chars]. rewrite append_assoc, parse_chars_escape, IH.
  reflexivity.
Qed.

(** A quoted string, without its opening quote. *)
Lemma parse_chars_quote (s rest : string) :
  exists body, JSON.quote s +:+ rest = String JSON.dquote body
               /\ JSON.parse_chars body = Some (s, rest).
Proof.
  exists (JSON.quote_chars s +:+ String JSON.dquote rest). split.
  - unfold JSON.quote. cbn [String.append]. now rewrite append_assoc.
  - apply parse_chars_quote_chars.
Qed.

End JSONStrings.

Section JSONNumbers.

Lemma ends_token_cons (c : ascii) (r : string) :
  ends_token (String c r) = true ->
  JS.is_digit c = false /\ Ascii.eqb c "." = false
  /\ Ascii.eqb c "e" = false /\ Ascii.eqb c "E" = false.
Proof.
  unfold ends_token. intros H. apply negb_true_iff in H.
  apply orb_false_iff in H as [H HE].
  apply orb_false_iff in H as [H He].
  apply orb_false_iff in H as [Hd Hdot]. auto.
Qed.

Lemma take_digits_extend (s rest : string) :
  ends_token rest = true ->
  forall acc cnt m c r,
    JSON.take_digits acc cnt s = (m, c, r) ->
    JSON.take_digits acc cnt (s +:+ rest) = (m, c, r +:+ rest).
Proof.
  intros Hend. induction s as [|x s IH]; intros acc cnt m c r.
  - cbn [JSON.take_digits String.append]. intros [= <- <- <-].
    destruct rest as [|d rest]; [reflexivity |].
    destruct (ends_token_cons _ _ Hend) as (Hd & _).
    cbn [JSON.take_digits]. now rewrite Hd.
  - cbn [JSON.take_digits String.append].
    destruct (JS.is_digit x); [apply IH |].
    now intros [= <- <- <-].
Qed.

Lemma scan_int_extend (s rest : string) m r :
  ends_token rest = true ->
  JSON.scan_int s = Some (m, r) ->
  JSON.scan_int (s +:+ rest) = Some (m, r +:+ rest).
Proof.
  intros Hend. destruct s as [|c s]; [discriminate |].
  cbn [JSON.scan_int String.append].
  destruct (Ascii.eqb c "0"); [now intros [= <- <-] |].
  destruct (JS.is_digit c); [| discriminate].
  destruct (JSON.take_digits (JSON.digit_value c) 0 s) as [[m' c'] r'] eqn:E.
  intros [= <- <-].
  now rewrite (take_digits_extend _ _ Hend _ _ _ _ _ E).
Qed.

Lemma scan_frac_extend (s rest : string) m m' fd r :
  ends_token rest = true ->
  JSON.scan_frac m s = Some (m', fd, r) ->
  JSON.scan_frac m (s +:+ rest) = Some (m', fd, r +:+ rest).
Proof.
  intros Hend. destruct s as [|c s].
  - cbn [JSON.scan_frac String.append]. intros [= <- <- <-].
    destruct rest as [|d rest]; [reflexivity |].
    destruct (ends_token_cons _ _ Hend) as (_ & Hdot & _).
    cbn [JSON.scan_frac]. now rewrite Hdot.
  - cbn [JSON.scan_frac String.append].
    destruct (Ascii.eqb c "."); [| now intros [= <- <- <-]].
    destruct s as [|d s]; [discriminate |].
    cbn [String.append].
    destruct (JS.is_digit d); [| discriminate].
    intros [= E]. f_equal.
    change (String d (s +:+ rest)) with (String d s +:+ rest).
    now apply take_digits_extend.
Qed.

Lemma scan_sign_extend (c : ascii) (s rest : string) neg r :
  JSON.scan_sign (String c s) = (neg, r) ->
  JSON.scan_sign (String c s +:+ rest) = (neg, r +:+ rest).
Proof.
  cbn [JSON.scan_sign String.append].
  destruct (Ascii.eqb c "-"); [now intros [= <- <-] |].
  destruct (Ascii.eqb c "+"); now intros [= <- <-].
Qed.

Lemma scan_exp_extend (s rest : string) e r :
  ends_token rest = true ->
  JSON.scan_exp s = Some (e, r) ->
  JSON.scan_exp (s +:+ rest) = Some (e, r +:+ rest).
Proof.
  intros Hend. destruct s as [|c s].
  - cbn [JSON.scan_exp String.append]. intros [= <- <-].
    destruct rest as [|d rest]; [reflexivity |].
    destruct (ends_token_cons _ _ Hend) as (_ & _ & He & HE).
    cbn [JSON.scan_exp]. now rewrite He, HE.
  - cbn [JSON.scan_exp String.append].
    destruct (Ascii.eqb c "e" || Ascii.eqb c "E"); [| now intros [= <- <-]].
    destruct s as [|x s]; [discriminate |].
    destruct (JSON.scan_sign (String x s)) as [neg r1] eqn:Esign.
    change (String x s +:+ rest) with (String x s +:+ rest).
    rewrite (scan_sign_extend _ _ rest _ _ Esign).
    destruct r1 as [|d r1]; [discriminate |].
    cbn [String.append].
    destruct (JS.is_digit d); [| discriminate].
    destruct (JSON.take_digits 0 0 (String d r1)) as [[x' c'] r2] eqn:E.
    intros [= <- <-].
    change (String d (r1 +:+ rest)) with (String d r1 +:+ rest).
    now rewrite (take_digits_extend _ _ Hend _ _ _ _ _ E).
Qed.

(** A number literal followed by something that is no part of a number is
    read as alone. *)
Lemma scan_number_extend (s rest : string) x r :
  ends_token rest = true ->
  JSON.scan_number s = Some (x, r) ->
  JSON.scan_number (s +:+ rest) = Some (x, r +:+ rest).
Proof.
  intros Hend. unfold JSON.scan_number.
  destruct s as [|c s]; [discriminate |].
  assert (Hminus : forall neg s1,
             JSON.scan_minus (String c s) = (neg, s1) ->
             s1 <> EmptyString ->
             JSON.scan_minus (String c s +:+ rest) = (neg, s1 +:+ rest)).
  { cbn [JSON.scan_minus String.append].
    destruct (Ascii.eqb c "-"); now intros neg s1 [= <- <-]. }
  destruct (JSON.scan_minus (String c s)) as [neg s1] eqn:Eminus.
  destruct (JSON.scan_int s1) as [[m s2] |] eqn:Eint; [| discriminate].
  assert (Hs1 : s1 <> EmptyString) by (intros ->; discriminate).
  rewrite (Hminus _ _ eq_refl Hs1), (scan_int_extend _ _ _ _ Hend Eint).
  destruct (JSON.scan_frac m s2) as [[[m' fd] s3] |] eqn:Efrac; [| discriminate].
  rewrite (scan_frac_extend _ _ _ _ _ _ Hend Efrac).
  destruct (JSON.scan_exp s3) as [[e s4] |] eqn:Eexp; [| discriminate].
  rewrite (scan_exp_extend _ _ _ _ Hend Eexp).
  now intros [= <- <-].
Qed.

Lemma scan_number_head (s : string) x r :
  JSON.scan_number s = Some (x, r) ->
  exists c s', s = String c s'
               /\ (Ascii.eqb c "-" = true \/ JS.is_digit c = true).
Proof.
  destruct s as [|c s]; [discriminate |]. intros H. exists c, s.
  split; [reflexivity |]. revert H. unfold JSON.scan_number.
  cbn [JSON.scan_minus].
  destruct (Ascii.eqb c "-"); [now left |].
  cbn [JSON.scan_int].
  destruct (Ascii.eqb c "0") eqn:E0.
  - apply Ascii.eqb_eq in E0 as ->. now right.
  - destruct (JS.is_digit c); [now right | discriminate].
Qed.

Lemma same_double_eq (x y : spec_float) : JSON.same_double x y = true -> x = y.
Proof.
  destruct x as [a | a | | a m e], y as [b | b | | b n f]; simpl;
    try discriminate; try reflexivity.
  - intros H. apply Bool.eqb_prop in H. now subst.
  - intros H. apply Bool.eqb_prop in H. now subst.
  - intros H. apply andb_true_iff in H as [H He].
    apply andb_true_iff in H as [Hs Hm].
    apply Bool.eqb_prop in Hs. apply Pos.eqb_eq in Hm. apply Z.eqb_eq in He.
    now subst.
Qed.

(** The printed form of a number that survives, followed by the end of a
    token, is read back as that number. *)
Lemma number_survives_scan (x : spec_float) (rest : string) :
  number_survives x = true ->
  ends_token rest = true ->
  JSON.isFinite x = true
  /\ JSON.scan_number (JSON.Number_toString x +:+ rest) = Some (x, rest).
Proof.
  unfold number_survives. intros H Hend.
  apply andb_true_iff in H as [Hfin H]. split; [exact Hfin |].
  destruct (JSON.scan_number (JSON.Number_toString x)) as [[y r] |] eqn:E;
    [| discriminate].
  destruct r; [| discriminate].
  apply same_double_eq in H as ->.
  now rewrite (scan_number_extend _ _ _ _ Hend E).
Qed.

End JSONNumbers.

Section JSONValues.

Lemma value_induction (Q : JSON.value -> Prop) :
  Q JSON.Null ->
  (forall b, Q (JSON.Bool b)) ->
  (forall x, Q (JSON.Number x)) ->
  (forall s, Q (JSON.Str s)) ->
  (forall items, Forall Q items -> Q (JSON.Array items)) ->
  (forall members, Forall (fun kv => Q (snd kv)) members ->
                   Q (JSON.Object members)) ->
  forall v, Q v.
Proof.
  intros Hnull Hbool Hnumber Hstr Harray Hobject.
  fix IH 1. intros [| b | x | s | items | members].
  - exact Hnull.
  - apply Hbool.
  - apply Hnumber.
  - apply Hstr.
  - apply Harray. revert items. fix IHitems 1. intros [| v vs].
    + constructor.
    + constructor; [apply IH | apply IHitems].
  - apply Hobject. revert members. fix IHmembers 1. intros [| kv ms].
    + constructor.
    + constructor; [apply IH | apply IHmembers].
Qed.

Lemma skip_ws_blank (b s : string) :
  blank b -> JSON.skip_ws (b +:+ s) = JSON.skip_ws s.
Proof.
  unfold blank. induction b as [|c b IH]; [reflexivity |].
  cbn [all_chars String.append JSON.skip_ws]. intros H.
  apply andb_true_iff in H as [Hc Hb]. rewrite Hc. now apply IH.
Qed.

Lemma skip_ws_newline_blank (b s : string) :
  blank b -> JSON.skip_ws (String JSON.newline (b +:+ s)) = JSON.skip_ws s.
Proof. intros H. cbn [JSON.skip_ws]. now apply skip_ws_blank. Qed.

Lemma skip_ws_idem (s : string) : JSON.skip_ws (JSON.skip_ws s) = JSON.skip_ws s.
Proof.
  induction s as [|c s IH]; [reflexivity |].
  cbn [JSON.skip_ws]. destruct (JSON.is_ws c) eqn:E; [exact IH |].
  cbn [JSON.skip_ws]. now rewrite E.
Qed.

Lemma skip_ws_head (c : ascii) (s : string) :
  JSON.is_ws c = false -> JSON.skip_ws (String c s) = String c s.
Proof. intros H. cbn [JSON.skip_ws]. now rewrite H. Qed.

Lemma parse_value_skip fuel (s : string) :
  JSON.parse_value fuel (JSON.skip_ws s) = JSON.parse_value fuel s.
Proof.
  destruct fuel as [|f]; [reflexivity |].
  cbn [JSON.parse_value]. now rewrite skip_ws_idem.
Qed.

Lemma parse_value_blank fuel (b s : string) :
  blank b -> JSON.parse_value fuel (b +:+ s) = JSON.parse_value fuel s.
Proof.
  intros H. rewrite <- parse_value_skip, (skip_ws_blank _ _ H).
  apply parse_value_skip.
Qed.

Lemma blank_append (a b : string) : blank a -> blank b -> blank (a +:+ b).
Proof.
  unfold blank. intros Ha Hb. now rewrite all_chars_append, Ha, Hb.
Qed.

(** A number begins with a minus sign or a digit, which no other value and
    no white space begins with. *)
Lemma number_head_dispatch (c : ascii) :
  Ascii.eqb c "-" = true \/ JS.is_digit c = true ->
  JSON.is_ws c = false /\ Ascii.eqb c "n" = false /\ Ascii.eqb c "t" = false
  /\ Ascii.eqb c "f" = false /\ Ascii.eqb c JSON.dquote = false
  /\ Ascii.eqb c "[" = false /\ Ascii.eqb c "{" = false
  /\ Ascii.eqb c "]" = false.
Proof.
  destruct c as [[] [] [] [] [] [] [] []]; intros [H | H];
    try discriminate H; repeat split; reflexivity.
Qed.

Lemma number_survives_head (x : spec_float) :
  number_survives x = true ->
  JSON.isFinite x = true
  /\ exists c body, JSON.Number_toString x = String c body
                    /\ (Ascii.eqb c "-" = true \/ JS.is_digit c = true).
Proof.
  unfold number_survives. intros H. apply andb_true_iff in H as [Hfin H].
  split; [exact Hfin |].
  destruct (JSON.scan_number (JSON.Number_toString x)) as [[y r] |] eqn:E;
    [| discriminate].
  now apply scan_number_head in E.
Qed.

(** No printed value begins with white space or a closing bracket. *)
Lemma serialize_head (gap ind : string) (v : JSON.value) :
  numbers_survive v = true ->
  exists c body, JSON.serialize gap ind v = String c body
                 /\ JSON.is_ws c = false /\ Ascii.eqb c "]" = false.
Proof.
  destruct v as [| [] | x | s | [| item items] | [| member members]]; intros H;
    try (eexists _, _; split; [reflexivity | split; reflexivity]).
  cbn [numbers_survive] in H.
  destruct (number_survives_head _ H) as (Hfin & c & body & Htext & Hc).
  cbn [JSON.serialize]. rewrite Hfin, Htext. exists c, body.
  destruct (number_head_dispatch _ Hc) as (? & _ & _ & _ & _ & _ & _ & ?).
  auto.
Qed.

End JSONValues.

Section JSONRoundTrip.
Variable gap : string.
Hypothesis gap_blank : blank gap.

Lemma serialize_array_text (ind : string) v vs (rest : string) :
  JSON.serialize gap ind (JSON.Array (v :: vs)) +:+ rest
  = String "[" (String JSON.newline
      ((ind +:+ gap) +:+
       (JSON.join ("," +:+ String JSON.newline (ind +:+ gap))
          (List.map (JSON.serialize gap (ind +:+ gap)) (v :: vs))
        +:+ String JSON.newline (ind +:+ String "]" rest)))).
Proof.
  cbn [JSON.serialize String.append]. rewrite !append_assoc.
  cbn [String.append]. rewrite ?append_assoc. reflexivity.
Qed.

Lemma serialize_object_text (ind : string) kv ms (rest : string) :
  JSON.serialize gap ind (JSON.Object (kv :: ms)) +:+ rest
  = String "{" (String JSON.newline
      ((ind +:+ gap) +:+
       (JSON.join ("," +:+ String JSON.newline (ind +:+ gap))
          (List.map (member_text gap (ind +:+ gap)) (kv :: ms))
        +:+ String JSON.newline (ind +:+ String "}" rest)))).
Proof.
  cbn [JSON.serialize String.append]. rewrite !append_assoc.
  cbn [String.append]. rewrite ?append_assoc. reflexivity.
Qed.

(** The elements of a printed array, from the line break after the opening
    bracket to the closing bracket. *)
Lemma elements_read_back (inner ind rest : string) (vs : list JSON.value) :
  blank inner -> blank ind ->
  Forall (reads_back gap) vs ->
  vs <> [] ->
  forall fuel,
    list_sum (List.map (fun x => S (weight x)) vs) <= fuel ->
    JSON.parse_elements fuel
      (String JSON.newline
         (inner +:+
          (JSON.join ("," +:+ String JSON.newline inner)
             (List.map (JSON.serialize gap inner) vs)
           +:+ String JSON.newline (ind +:+ String "]" rest))))
    = Some (vs, rest).
Proof.
  intros Hinner Hind Hall. induction Hall as [| v vs Hv Hvs IH]; [congruence |].
  intros _ fuel Hfuel. cbn [List.map list_sum fold_right] in Hfuel.
  destruct fuel as [|f]; [lia |].
  cbn [JSON.parse_elements].
  change (String JSON.newline (inner +:+ ?t)) with (String JSON.newline inner +:+ t).
  rewrite parse_value_blank by (apply (blank_append (String JSON.newline EmptyString)); [reflexivity | exact Hinner]).
  destruct vs as [| v' vs'].
  - cbn [List.map JSON.join].
    rewrite (Hv inner (String JSON.newline (ind +:+ String "]" rest)) f
               Hinner eq_refl) by lia.
    rewrite (skip_ws_newline_blank _ _ Hind). reflexivity.
  - cbn [List.map JSON.join]. rewrite !append_assoc.
    cbn [String.append].
    match goal with
    | |- context [JSON.parse_value f (_ +:+ String "," ?t)] =>
        rewrite (Hv inner (String "," t) f Hinner eq_refl) by lia
    end.
    rewrite skip_ws_head by reflexivity.
    replace (Ascii.eqb "," ",") with true by reflexivity.
    cbn [List.map JSON.join] in IH. rewrite IH; [reflexivity | discriminate |].
    cbn [List.map list_sum fold_right] in *. lia.
Qed.

End JSONRoundTrip.

(* ===================================================================== *)
(** * JSON: the property order of objects                                 *)
(* ===================================================================== *)

Section ObjectOrder.

Lemma keys_app (a b : list (string * JSON.value)) :
  keys (a ++ b) = (keys a ++ keys b)%list.
Proof. apply List.map_app. Qed.

Lemma keys_set_member k v m : keys (JSON.set_member k v m) = keys m.
Proof.
  unfold keys. induction m as [| [k' v'] m IH]; [reflexivity |].
  cbn [JSON.set_member]. destruct (String.eqb k k'); [reflexivity |].
  cbn [List.map fst]. now rewrite IH.
Qed.

Lemma has_key_elem k m : JSON.has_key k m = true <-> k ∈ keys m.
Proof.
  induction m as [| [k' v'] m IH]; cbn [JSON.has_key keys List.map fst].
  - split; [discriminate | intros H; inversion H].
  - rewrite orb_true_iff, String.eqb_eq, IH, elem_of_cons. reflexivity.
Qed.

Lemma elem_keys_insert_index x i k v m :
  x ∈ keys (JSON.insert_index i k v m) <-> x = k \/ x ∈ keys m.
Proof.
  induction m as [| [k' v'] m IH]; cbn [JSON.insert_index].
  - cbn [keys List.map fst]. rewrite elem_of_cons. reflexivity.
  - destruct (JSON.array_index k') as [j |]; [destruct (j <=? i)%N |];
      cbn [keys List.map fst] in *; rewrite !elem_of_cons; try rewrite IH;
      tauto.
Qed.

Lemma insert_index_sorted i k v m :
  JSON.array_index k = Some i ->
  StronglySorted key_before (keys m) ->
  StronglySorted key_before (keys (JSON.insert_index i k v m)).
Proof.
  intros Hk. induction m as [| [k' v'] m IH]; cbn [JSON.insert_index].
  - intros _. repeat constructor.
  - cbn [keys List.map fst]. intros Hsorted.
    apply StronglySorted_cons in Hsorted as [Hhead Htail].
    assert (Hall : forall k'', k'' ∈ keys m -> key_before k' k'')
      by (now apply Forall_forall).
    destruct (JSON.array_index k') as [j |] eqn:Ej;
      [destruct (j <=? i)%N eqn:Ele |].
    + cbn [keys List.map fst]. apply StronglySorted_cons. split; [| now apply IH].
      apply Forall_forall. intros x Hx.
      apply elem_keys_insert_index in Hx as [-> | Hx]; [| now apply Hall].
      unfold key_before. rewrite Ej, Hk. now apply N.leb_le.
    + apply N.leb_gt in Ele.
      cbn [keys List.map fst]. apply StronglySorted_cons. split.
      * apply Forall_cons. split.
        -- unfold key_before. rewrite Hk, Ej. lia.
        -- apply Forall_forall. intros x Hx. specialize (Hall x Hx).
           unfold key_before in *. rewrite Hk. rewrite Ej in Hall.
           destruct (JSON.array_index x); [lia | exact I].
      * apply StronglySorted_cons. split; assumption.
    + cbn [keys List.map fst]. apply StronglySorted_cons. split.
      * apply Forall_cons. split.
        -- unfold key_before. now rewrite Hk, Ej.
        -- apply Forall_forall. intros x Hx. specialize (Hall x Hx).
           unfold key_before in *. rewrite Hk. rewrite Ej in Hall.
           destruct (JSON.array_index x); [contradiction | exact I].
      * apply StronglySorted_cons. split; assumption.
Qed.

Lemma insert_index_nodup i k v m :
  k ∉ keys m -> NoDup (keys m) -> NoDup (keys (JSON.insert_index i k v m)).
Proof.
  induction m as [| [k' v'] m IH]; cbn [JSON.insert_index].
  - intros _ _. cbn [keys List.map fst]. apply NoDup_singleton.
  - cbn [keys List.map fst]. intros Hnew Hnodup.
    apply not_elem_of_cons in Hnew as [Hne Hnew].
    apply NoDup_cons in Hnodup as [Hfresh Hnodup].
    assert (Hins : NoDup (k :: k' :: keys m)).
    { apply NoDup_cons. split; [| apply NoDup_cons; split; assumption].
      apply not_elem_of_cons. split; assumption. }
    destruct (JSON.array_index k') as [j |]; [destruct (j <=? i)%N |];
      try exact Hins.
    cbn [keys List.map fst]. apply NoDup_cons. split; [| now apply IH].
    rewrite elem_keys_insert_index. intros [-> | H]; [congruence | contradiction].
Qed.

(** Defining a property keeps the property order. *)
Lemma define_order k v m :
  property_order m -> property_order (JSON.define k v m).
Proof.
  intros [Hnodup Hsorted]. unfold JSON.define, property_order.
  destruct (JSON.has_key k m) eqn:Ehas.
  - now rewrite keys_set_member.
  - assert (Hnew : k ∉ keys m).
    { intros H. apply has_key_elem in H. congruence. }
    destruct (JSON.array_index k) as [i |] eqn:Ek.
    + split; [now apply insert_index_nodup | now apply insert_index_sorted].
    + rewrite keys_app. cbn [keys List.map fst]. split.
      * apply NoDup_app. split; [exact Hnodup |]. split; [| apply NoDup_singleton].
        intros x Hx Hk. apply list_elem_of_singleton in Hk as ->. contradiction.
      * apply StronglySorted_app_2; [| exact Hsorted | repeat constructor].
        intros x1 x2 _ Hx2. apply list_elem_of_singleton in Hx2 as ->.
        unfold key_before. rewrite Ek. now destruct (JSON.array_index x1).
Qed.

Lemma insert_index_last i k v m :
  JSON.array_index k = Some i ->
  Forall (fun k' => key_before k' k) (keys m) ->
  JSON.insert_index i k v m = (m ++ [(k, v)])%list.
Proof.
  intros Hk. induction m as [| [k' v'] m IH]; [reflexivity |].
  cbn [keys List.map fst]. intros Hall.
  apply Forall_cons in Hall as [Hhead Hall].
  cbn [JSON.insert_index]. unfold key_before in Hhead. rewrite Hk in Hhead.
  destruct (JSON.array_index k') as [j |]; [| contradiction].
  apply N.leb_le in Hhead. rewrite Hhead, (IH Hall). reflexivity.
Qed.

(** A key in its place at the end of the property order is defined
    there. *)
Lemma define_last k v m :
  property_order (m ++ [(k, v)]) ->
  JSON.define k v m = (m ++ [(k, v)])%list.
Proof.
  unfold property_order. rewrite keys_app. cbn [keys List.map fst].
  intros [Hnodup Hsorted].
  apply NoDup_app in Hnodup as (_ & Hfresh & _).
  assert (Hnew : JSON.has_key k m = false).
  { destruct (JSON.has_key k m) eqn:E; [| reflexivity].
    apply has_key_elem in E. exfalso. apply (Hfresh k E). now left. }
  unfold JSON.define. rewrite Hnew.
  destruct (JSON.array_index k) as [i |] eqn:Ek; [| reflexivity].
  apply insert_index_last; [exact Ek |].
  apply Forall_forall. intros x Hx.
  apply (StronglySorted_app_1_elem_of _ _ _ _ _ Hsorted Hx). now left.
Qed.

Lemma property_order_prefix (a b : list (string * JSON.value)) :
  property_order (a ++ b) -> property_order a.
Proof.
  unfold property_order. rewrite keys_app. intros [Hnodup Hsorted]. split.
  - now apply NoDup_app in Hnodup as (? & _ & _).
  - now apply StronglySorted_app_1_l in Hsorted.
Qed.

Lemma define_all_append (m acc : list (string * JSON.value)) :
  property_order (acc ++ m) -> define_all m acc = (acc ++ m)%list.
Proof.
  revert acc. induction m as [| [k v] m IH]; intros acc Horder.
  - cbn [define_all fold_left]. now rewrite List.app_nil_r.
  - cbn [define_all fold_left fst snd].
    replace (acc ++ (k, v) :: m)%list with ((acc ++ [(k, v)]) ++ m)%list in *
      by now rewrite <- List.app_assoc.
    rewrite (define_last k v acc) by now apply property_order_prefix in Horder.
    now apply IH.
Qed.

(** The members of a well-ordered object, defined one after the other on
    the empty object, give the object back. *)
Lemma define_all_order (m : list (string * JSON.value)) :
  property_order m -> define_all m [] = m.
Proof. intros H. now apply (define_all_append m []). Qed.

End ObjectOrder.

Section JSONObjects.
Variable gap : string.
Hypothesis gap_blank : blank gap.

(** The members of a printed object, from the line break after the opening
    brace to the closing brace, defined on [acc] in their order. *)
Lemma members_read_back (inner ind rest : string)
  (ms : list (string * JSON.value)) :
  blank inner -> blank ind ->
  Forall (fun kv => reads_back gap (snd kv)) ms ->
  ms <> [] ->
  forall fuel acc,
    list_sum (List.map (fun kv => S (weight (snd kv))) ms) <= fuel ->
    JSON.parse_members fuel acc
      (String JSON.newline
         (inner +:+
          (JSON.join ("," +:+ String JSON.newline inner)
             (List.map (member_text gap inner) ms)
           +:+ String JSON.newline (ind +:+ String "}" rest))))
    = Some (define_all ms acc, rest).
Proof.
  intros Hinner Hind Hall.
  induction Hall as [| [k v] ms Hv Hms IH]; [congruence |].
  intros _ fuel acc Hfuel. cbn [List.map list_sum fold_right snd] in Hfuel.
  cbn [snd] in Hv.
  destruct fuel as [|f]; [lia |].
  cbn [JSON.parse_members].
  rewrite (skip_ws_newline_blank _ _ Hinner).
  assert (Hstep : forall tail,
             ends_token tail = true ->
             JSON.skip_ws (member_text gap inner (k, v) +:+ tail)
             = String JSON.dquote
                 (JSON.quote_chars k +:+
                  String JSON.dquote (": " +:+ JSON.serialize gap inner v +:+ tail))
             /\ JSON.parse_value f (String " " (JSON.serialize gap inner v +:+ tail))
                = Some (v, tail)).
  { intros tail Htail. split.
    - unfold member_text, JSON.quote. cbn [fst snd String.append].
      rewrite !append_assoc. cbn [String.append].
      now rewrite skip_ws_head by reflexivity.
    - change (String " " ?t) with (" " +:+ t).
      rewrite parse_value_blank by reflexivity.
      apply Hv; [exact Hinner | exact Htail | lia]. }
  destruct ms as [| kv' ms'].
  - cbn [List.map JSON.join].
    destruct (Hstep (String JSON.newline (ind +:+ String "}" rest)) eq_refl)
      as [-> Hvalue].
    replace (Ascii.eqb JSON.dquote JSON.dquote) with true by reflexivity.
    rewrite parse_chars_quote_chars.
    cbn [String.append]. rewrite skip_ws_head by reflexivity.
    replace (Ascii.eqb ":" ":") with true by reflexivity.
    rewrite Hvalue, (skip_ws_newline_blank _ _ Hind).
    reflexivity.
  - cbn [List.map JSON.join]. rewrite !append_assoc. cbn [String.append].
    match goal with
    | |- context [member_text gap inner (k, v) +:+ String "," ?t] =>
        destruct (Hstep (String "," t) eq_refl) as [-> Hvalue]
    end.
    replace (Ascii.eqb JSON.dquote JSON.dquote) with true by reflexivity.
    rewrite parse_chars_quote_chars.
    cbn [String.append]. rewrite skip_ws_head by reflexivity.
    replace (Ascii.eqb ":" ":") with true by reflexivity.
    rewrite Hvalue. rewrite skip_ws_head by reflexivity.
    replace (Ascii.eqb "," ",") with true by reflexivity.
    cbn [List.map JSON.join] in IH. rewrite IH; [reflexivity | discriminate |].
    cbn [List.map list_sum fold_right] in *. lia.
Qed.

End JSONObjects.

(* ===================================================================== *)
(** * JSON: [parse] after [stringify]                                     *)
(* ===================================================================== *)

Section JSONParseStringify.
Variable gap : string.
Hypothesis gap_blank : blank gap.

Lemma parse_value_array f (r : string) :
  JSON.parse_value (S f) (String "[" r)
  = match JSON.begins_with "]" (JSON.skip_ws r) with
    | Some r' => Some (JSON.Array [], r')
    | None =>
        match JSON.parse_elements f r with
        | Some (items, r') => Some (JSON.Array items, r')
        | None => None
        end
    end.
Proof. reflexivity. Qed.

Lemma parse_value_object f (r : string) :
  JSON.parse_value (S f) (String "{" r)
  = match JSON.begins_with "}" (JSON.skip_ws r) with
    | Some r' => Some (JSON.Object [], r')
    | None =>
        match JSON.parse_members f [] r with
        | Some (members, r') => Some (JSON.Object members, r')
        | None => None
        end
    end.
Proof. reflexivity. Qed.

Lemma parse_value_string f (r : string) :
  JSON.parse_value (S f) (String JSON.dquote r)
  = match JSON.parse_chars r with
    | Some (str, r') => Some (JSON.Str str, r')
    | None => None
    end.
Proof. reflexivity. Qed.

Lemma parse_value_number f (c : ascii) (r : string) :
  Ascii.eqb c "-" = true \/ JS.is_digit c = true ->
  JSON.parse_value (S f) (String c r)
  = match JSON.scan_number (String c r) with
    | Some (x, r') => Some (JSON.Number x, r')
    | None => None
    end.
Proof.
  intros Hc.
  destruct (number_head_dispatch c Hc) as (Hws & Hn & Ht & Hf & Hq & Hb & Hbr & _).
  cbn [JSON.parse_value]. rewrite (skip_ws_head _ _ Hws).
  now rewrite Hn, Ht, Hf, Hq, Hb, Hbr.
Qed.

Lemma join_head {A} (sep : string) (f : A -> string) (x : A) (xs : list A) :
  exists tail, JSON.join sep (List.map f (x :: xs)) = f x +:+ tail.
Proof.
  destruct xs as [| x' xs]; cbn [List.map JSON.join].
  - exists EmptyString. now rewrite append_nil_r.
  - eexists. reflexivity.
Qed.

Lemma numbers_survive_items (items : list JSON.value) :
  forallb numbers_survive items = true ->
  forall v, v ∈ items -> numbers_survive v = true.
Proof.
  intros H v Hv. apply list_elem_of_In in Hv.
  now apply (proj1 (forallb_forall _ _) H).
Qed.

Lemma numbers_survive_members (members : list (string * JSON.value)) :
  forallb (fun kv => numbers_survive (snd kv)) members = true ->
  forall kv, kv ∈ members -> numbers_survive (snd kv) = true.
Proof.
  intros H kv Hkv. apply list_elem_of_In in Hkv.
  now apply (proj1 (forallb_forall _ _) H).
Qed.

(** The printed form of a well-formed value whose numbers survive is read
    back as that value. *)
Lemma serialize_reads_back (v : JSON.value) :
  well_formed v -> numbers_survive v = true -> reads_back gap v.
Proof.
  induction v as [| b | x | s | items IH | members IH] using value_induction;
    intros Hwf Hnum ind rest fuel Hind Hend Hfuel;
    (destruct fuel as [|f]; [cbn [weight] in Hfuel; lia |]).
  - reflexivity.
  - destruct b; reflexivity.
  - cbn [numbers_survive] in Hnum.
    destruct (number_survives_scan x rest Hnum Hend) as [Hfin Hscan].
    destruct (number_survives_head x Hnum) as (_ & c & body & Htext & Hc).
    cbn [JSON.serialize]. rewrite Hfin. rewrite Htext in *.
    cbn [String.append] in *.
    now rewrite (parse_value_number _ _ _ Hc), Hscan.
  - destruct (parse_chars_quote s rest) as (body & Htext & Hbody).
    cbn [JSON.serialize]. now rewrite Htext, parse_value_string, Hbody.
  - inversion Hwf as [| | | | items' Hitems |]; subst.
    cbn [numbers_survive] in Hnum.
    destruct items as [| v vs]; [reflexivity |].
    assert (Hall : Forall (reads_back gap) (v :: vs)).
    { apply Forall_forall. intros y Hy.
      apply (proj1 (Forall_forall _ _) IH y Hy).
      - now apply (proj1 (Forall_forall _ _) Hitems).
      - now apply (numbers_survive_items _ Hnum). }
    assert (Hinner : blank (ind +:+ gap)) by now apply blank_append.
    rewrite serialize_array_text, parse_value_array.
    rewrite (skip_ws_newline_blank _ _ Hinner).
    assert (Hv : numbers_survive v = true)
      by (apply (numbers_survive_items _ Hnum); now left).
    destruct (serialize_head gap (ind +:+ gap) v Hv) as (c & body & Htext & Hws & Hc).
    destruct (join_head ("," +:+ String JSON.newline (ind +:+ gap))
                (JSON.serialize gap (ind +:+ gap)) v vs) as [tail Hjoin].
    rewrite Hjoin at 1. rewrite Htext.
    cbn [String.append]. rewrite (skip_ws_head _ _ Hws).
    cbn [JSON.begins_with]. rewrite Hc.
    rewrite (elements_read_back gap (ind +:+ gap) ind rest (v :: vs));
      try assumption; try discriminate; [reflexivity |].
    cbn [weight] in Hfuel. lia.
  - inversion Hwf as [| | | | | members' Horder Hvalues]; subst.
    cbn [numbers_survive] in Hnum.
    destruct members as [| [k v] ms]; [reflexivity |].
    assert (Hall : Forall (fun kv => reads_back gap (snd kv)) ((k, v) :: ms)).
    { apply Forall_forall. intros y Hy.
      apply (proj1 (Forall_forall _ _) IH y Hy).
      - now apply (proj1 (Forall_forall _ _) Hvalues).
      - now apply (numbers_survive_members _ Hnum). }
    assert (Hinner : blank (ind +:+ gap)) by now apply blank_append.
    rewrite serialize_object_text, parse_value_object.
    rewrite (skip_ws_newline_blank _ _ Hinner).
    destruct (join_head ("," +:+ String JSON.newline (ind +:+ gap))
                (member_text gap (ind +:+ gap)) (k, v) ms) as [tail Hjoin].
    rewrite Hjoin at 1.
    unfold member_text at 1, JSON.quote. cbn [String.append fst].
    rewrite skip_ws_head by reflexivity.
    replace (JSON.begins_with "}" (String JSON.dquote _)) with (@None string)
      by reflexivity.
    rewrite (members_read_back gap (ind +:+ gap) ind rest ((k, v) :: ms));
      try assumption; try discriminate.
    + now rewrite (define_all_order _ Horder).
    + cbn [weight] in Hfuel. lia.
Qed.

End JSONParseStringify.

Section JSONParsed.

Lemma set_member_values (Q : JSON.value -> Prop) k v m :
  Q v -> Forall (fun kv => Q (snd kv)) m ->
  Forall (fun kv => Q (snd kv)) (JSON.set_member k v m).
Proof.
  intros Hv. induction 1 as [| [k' v'] m Hhead Htail IH]; [constructor |].
  cbn [JSON.set_member]. destruct (String.eqb k k'); constructor; assumption.
Qed.

Lemma insert_index_values (Q : JSON.value -> Prop) i k v m :
  Q v -> Forall (fun kv => Q (snd kv)) m ->
  Forall (fun kv => Q (snd kv)) (JSON.insert_index i k v m).
Proof.
  intros Hv. induction 1 as [| [k' v'] m Hhead Htail IH].
  - repeat constructor. exact Hv.
  - cbn [JSON.insert_index].
    destruct (JSON.array_index k') as [j |]; [destruct (j <=? i)%N |];
      repeat (constructor; try assumption).
Qed.

Lemma define_values (Q : JSON.value -> Prop) k v m :
  Q v -> Forall (fun kv => Q (snd kv)) m ->
  Forall (fun kv => Q (snd kv)) (JSON.define k v m).
Proof.
  intros Hv Hm. unfold JSON.define.
  destruct (JSON.has_key k m); [now apply set_member_values |].
  destruct (JSON.array_index k); [now apply insert_index_values |].
  apply Forall_app. split; [exact Hm | repeat constructor; exact Hv].
Qed.

Lemma property_order_nil : property_order [].
Proof. split; constructor. Qed.

(** Whatever the parser builds is well formed. *)
Lemma parse_well_formed_fuel (fuel : nat) :
  (forall s v r, JSON.parse_value fuel s = Some (v, r) -> well_formed v)
  /\ (forall s vs r, JSON.parse_elements fuel s = Some (vs, r) ->
                     Forall well_formed vs)
  /\ (forall acc s m r,
         JSON.parse_members fuel acc s = Some (m, r) ->
         property_order acc ->
         Forall (fun kv => well_formed (snd kv)) acc ->
         property_order m /\ Forall (fun kv => well_formed (snd kv)) m).
Proof.
  induction fuel as [| f (IHv & IHe & IHm)].
  { repeat split; intros; discriminate. }
  split; [| split].
  - intros s v r. cbn [JSON.parse_value].
    destruct (JSON.skip_ws s) as [| c t]; [discriminate |].
    destruct (Ascii.eqb c "n").
    { unfold JSON.keyword. destruct (JSON.expect _ _); [| discriminate].
      intros [= <- <-]. constructor. }
    destruct (Ascii.eqb c "t").
    { unfold JSON.keyword. destruct (JSON.expect _ _); [| discriminate].
      intros [= <- <-]. constructor. }
    destruct (Ascii.eqb c "f").
    { unfold JSON.keyword. destruct (JSON.expect _ _); [| discriminate].
      intros [= <- <-]. constructor. }
    destruct (Ascii.eqb c JSON.dquote).
    { destruct (JSON.parse_chars t) as [[str r'] |]; [| discriminate].
      intros [= <- <-]. constructor. }
    destruct (Ascii.eqb c "[").
    { destruct (JSON.begins_with "]" (JSON.skip_ws t)).
      - intros [= <- <-]. repeat constructor.
      - destruct (JSON.parse_elements f t) as [[items r'] |] eqn:E;
          [| discriminate].
        intros [= <- <-]. constructor. now apply (IHe _ _ _ E). }
    destruct (Ascii.eqb c "{").
    { destruct (JSON.begins_with "}" (JSON.skip_ws t)).
      - intros [= <- <-]. constructor; [apply property_order_nil | constructor].
      - destruct (JSON.parse_members f [] t) as [[members r'] |] eqn:E;
          [| discriminate].
        intros [= <- <-].
        destruct (IHm _ _ _ _ E property_order_nil (List.Forall_nil _)).
        now constructor. }
    destruct (JSON.scan_number (String c t)) as [[x r'] |]; [| discriminate].
    intros [= <- <-]. constructor.
  - intros s vs r. cbn [JSON.parse_elements].
    destruct (JSON.parse_value f s) as [[v r1] |] eqn:Ev; [| discriminate].
    destruct (JSON.skip_ws r1) as [| c r2]; [discriminate |].
    destruct (Ascii.eqb c ",").
    { destruct (JSON.parse_elements f r2) as [[vs' r3] |] eqn:Ee;
        [| discriminate].
      intros [= <- <-]. constructor; [now apply (IHv _ _ _ Ev) |].
      now apply (IHe _ _ _ Ee). }
    destruct (Ascii.eqb c "]"); [| discriminate].
    intros [= <- <-]. constructor; [now apply (IHv _ _ _ Ev) | constructor].
  - intros acc s m r. cbn [JSON.parse_members].
    destruct (JSON.skip_ws s) as [| q t]; [discriminate |].
    destruct (Ascii.eqb q JSON.dquote); [| discriminate].
    destruct (JSON.parse_chars t) as [[k r1] |]; [| discriminate].
    destruct (JSON.skip_ws r1) as [| c r2]; [discriminate |].
    destruct (Ascii.eqb c ":"); [| discriminate].
    destruct (JSON.parse_value f r2) as [[v r3] |] eqn:Ev; [| discriminate].
    destruct (JSON.skip_ws r3) as [| d r4]; [discriminate |].
    intros H Horder Hvalues.
    assert (Horder' : property_order (JSON.define k v acc))
      by now apply define_order.
    assert (Hvalues' : Forall (fun kv => well_formed (snd kv))
                         (JSON.define k v acc)).
    { apply define_values; [now apply (IHv _ _ _ Ev) | exact Hvalues]. }
    destruct (Ascii.eqb d ","); [now apply (IHm _ _ _ _ H) |].
    destruct (Ascii.eqb d "}"); [| discriminate].
    injection H as <- <-. now split.
Qed.

Lemma parse_well_formed (text : string) (v : JSON.value) :
  JSON.parse text = Some v -> well_formed v.
Proof.
  unfold JSON.parse.
  destruct (JSON.parse_value (2 * String.length text + 2) text) as [[v' r] |] eqn:E;
    [| discriminate].
  destruct (JSON.skip_ws r); [| discriminate].
  intros [= <-]. now apply (proj1 (parse_well_formed_fuel _) _ _ _ E).
Qed.

(** The fuel of [parse] is enough for what [serialize] prints. *)
Lemma join_weight_bound {A} (w : A -> nat) (f : A -> string) (sep : string)
  (xs : list A) :
  1 <= String.length sep ->
  Forall (fun x => w x <= String.length (f x)) xs ->
  list_sum (List.map (fun x => S (w x)) xs)
  <= S (String.length (JSON.join sep (List.map f xs))).
Proof.
  intros Hsep. induction 1 as [| x xs Hx Hxs IH];
    cbn [List.map list_sum fold_right]; [lia |].
  destruct xs as [| x' xs'].
  - cbn [List.map list_sum fold_right JSON.join]. lia.
  - cbn [List.map JSON.join] in *. rewrite !length_append.
    cbn [list_sum fold_right] in *. lia.
Qed.

Lemma weight_le_length (gap : string) (v : JSON.value) :
  numbers_survive v = true ->
  forall ind, weight v <= String.length (JSON.serialize gap ind v).
Proof.
  induction v as [| b | x | s | items IH | members IH] using value_induction;
    intros Hnum ind.
  - cbn. lia.
  - destruct b; cbn; lia.
  - cbn [numbers_survive] in Hnum.
    destruct (number_survives_head x Hnum) as (Hfin & c & body & Htext & _).
    cbn [JSON.serialize weight]. rewrite Hfin, Htext. cbn [String.length]. lia.
  - cbn [JSON.serialize weight]. unfold JSON.quote. cbn [String.length]. lia.
  - cbn [numbers_survive] in Hnum.
    destruct items as [| v vs]; [cbn; lia |].
    pose proof (serialize_array_text gap ind v vs EmptyString) as Htext.
    rewrite append_nil_r in Htext. rewrite Htext. clear Htext.
    cbn [weight String.length]. rewrite !length_append.
    assert (Hbound :
      list_sum (List.map (fun x => S (weight x)) (v :: vs))
      <= S (String.length
              (JSON.join ("," +:+ String JSON.newline (ind +:+ gap))
                 (List.map (JSON.serialize gap (ind +:+ gap)) (v :: vs))))).
    { apply join_weight_bound; [cbn; lia |].
      apply Forall_forall. intros y Hy.
      apply (proj1 (Forall_forall _ _) IH y Hy).
      now apply (numbers_survive_items _ Hnum). }
    cbn [String.length]. lia.
  - cbn [numbers_survive] in Hnum.
    destruct members as [| kv ms]; [cbn; lia |].
    pose proof (serialize_object_text gap ind kv ms EmptyString) as Htext.
    rewrite append_nil_r in Htext. rewrite Htext. clear Htext.
    cbn [weight String.length]. rewrite !length_append.
    assert (Hbound :
      list_sum (List.map (fun kv => S (weight (snd kv))) (kv :: ms))
      <= S (String.length
              (JSON.join ("," +:+ String JSON.newline (ind +:+ gap))
                 (List.map (member_text gap (ind +:+ gap)) (kv :: ms))))).
    { apply (join_weight_bound (fun kv => weight (snd kv))); [cbn; lia |].
      apply Forall_forall. intros y Hy. unfold member_text.
      rewrite !length_append.
      pose proof (proj1 (Forall_forall _ _) IH y Hy
                    (numbers_survive_members _ Hnum y Hy) (ind +:+ gap)).
      lia. }
    cbn [String.length]. lia.
Qed.

(** [JSON.parse(JSON.stringify(v, null, 2))] is [v] for a well-formed
    value whose numbers survive. *)
Lemma parse_stringify (v : JSON.value) :
  well_formed v -> numbers_survive v = true ->
  JSON.parse (JSON.stringify v 2) = Some v.
Proof.
  intros Hwf Hnum. unfold JSON.parse, JSON.stringify.
  pose proof (serialize_reads_back (JS.repeat_char " " (Nat.min 2 10)) eq_refl
                v Hwf Hnum EmptyString EmptyString
                (2 * String.length
                       (JSON.serialize (JS.repeat_char " " (Nat.min 2 10))
                          EmptyString v) + 2)
                eq_refl eq_refl) as H.
  rewrite append_nil_r in H. rewrite H; [reflexivity |].
  pose proof (weight_le_length (JS.repeat_char " " (Nat.min 2 10)) v Hnum
                EmptyString).
  lia.
Qed.

(** A parsed value is read back from its printed form when its numbers
    survive. *)
Lemma parse_stringify_parse (text : string) (v : JSON.value) :
  JSON.parse text = Some v ->
  numbers_survive v = true ->
  JSON.parse (JSON.stringify v 2) = Some v.
Proof.
  intros Hparse. apply parse_stringify. now apply parse_well_formed in Hparse.
Qed.

End JSONParsed.

(** Doubles that survive printing, and the three that do not. *)
Example numbers_that_survive :
  number_survives (JSON.double_of_decimal false 3 0) = true
  /\ number_survives (JSON.double_of_decimal false 1 (-1)) = true
  /\ number_survives (JSON.double_of_decimal true 125 (-2)) = true
  /\ number_survives (JSON.double_of_decimal false 1 21) = true
  /\ number_survives (JSON.double_of_decimal false 5 (-324)) = true
  /\ JSON.Number_toString (JSON.double_of_decimal false 1 (-1)) = "0.1"
  /\ JSON.Number_toString (JSON.double_of_decimal false 1 21) = "1e+21"
  /\ JSON.Number_toString (JSON.double_of_decimal false 5 (-324)) = "5e-324".
Proof. vm_compute. repeat split. Qed.

Example numbers_that_do_not_survive :
  number_survives (S754_zero true) = false
  /\ number_survives (S754_infinity false) = false
  /\ number_survives (S754_infinity true) = false
  /\ JSON.double_of_decimal false 1 999 = S754_infinity false
  /\ JSON.double_of_decimal true 0 0 = S754_zero true.
Proof. vm_compute. repeat split. Qed.

(* ===================================================================== *)
(** * The json format                                                     *)
(* ===================================================================== *)




(* ===================================================================== *)
(** * [applyLengthLimits]: a window on a text                             *)
(* ===================================================================== *)

Section LengthLimits.

Lemma length_drop n (s : string) :
  String.length (JS.drop n s) = String.length s - n.
Proof.
  revert s; induction n as [|n IH]; intros [|c s]; simpl; try reflexivity.
  apply IH.
Qed.

Lemma drop_drop a b (s : string) : JS.drop a (JS.drop b s) = JS.drop (b + a) s.
Proof.
  revert s; induction b as [|b IH]; intros s; [reflexivity |].
  destruct s as [|c s]; simpl; [now destruct a | apply IH].
Qed.

Lemma prefix_all n (s : string) : String.length s <= n -> JS.prefix n s = s.
Proof.
  revert s; induction n as [|n IH]; intros [|c s]; simpl; intros H;
    try reflexivity; [lia |].
  rewrite IH; [reflexivity | lia].
Qed.

Lemma prefix_min n (s : string) :
  JS.prefix (Nat.min n (String.length s)) s = JS.prefix n s.
Proof.
  revert s; induction n as [|n IH]; intros [|c s]; simpl; try reflexivity.
  now rewrite IH.
Qed.

Lemma prefix_add a b (s : string) :
  JS.prefix (a + b) s = JS.prefix a s +:+ JS.prefix b (JS.drop a s).
Proof.
  revert s; induction a as [|a IH]; intros s; simpl.
  - now destruct s.
  - destruct s as [|c s]; simpl; [now destruct b | now rewrite IH].
Qed.

Lemma get_prefix i n (s : string) :
  i < n -> String.get i (JS.prefix n s) = String.get i s.
Proof.
  revert i s; induction n as [|n IH]; intros i s H; [lia |].
  destruct s as [|c s]; simpl; [reflexivity |].
  destruct i as [|i]; [reflexivity |]. apply IH. lia.
Qed.

Lemma get_drop i n (s : string) :
  String.get i (JS.drop n s) = String.get (n + i) s.
Proof.
  revert s; induction n as [|n IH]; intros s; simpl; [now destruct s |].
  destruct s as [|c s]; simpl; [now destruct i | apply IH].
Qed.

(** The window as one expression: the two tests of the source only spare
    work. *)
Lemma applyLengthLimits_window text maxLength startIndex :
  Fetcher.applyLengthLimits text maxLength startIndex
  = JS.prefix maxLength (JS.drop startIndex text).
Proof.
  unfold Fetcher.applyLengthLimits, JS.substring.
  destruct (String.length text <=? startIndex)%nat eqn:E.
  - apply Nat.leb_le in E.
    assert (H : String.length (JS.drop startIndex text) = 0)
      by (rewrite length_drop; lia).
    destruct (JS.drop startIndex text); [now destruct maxLength | discriminate].
  - apply Nat.leb_gt in E.
    rewrite <- (prefix_min maxLength), length_drop. f_equal. lia.
Qed.

End LengthLimits.

(** X1. [applyLengthLimits] returns the code units of the text from
    [startIndex] on, at most [maxLength] of them: its length is the smaller
    of [maxLength] and what is left of the text after [startIndex] (nothing
    when [startIndex] is at or past the end), and its code unit [i] is the
    code unit [startIndex + i] of the text. *)
Theorem applyLengthLimits_slice :
  forall (text : string) (maxLength startIndex : nat),
    String.length (Fetcher.applyLengthLimits text maxLength startIndex)
    = Nat.min maxLength (String.length text - startIndex)
    /\ forall i, i < maxLength ->
         String.get i (Fetcher.applyLengthLimits text maxLength startIndex)
         = String.get (startIndex + i) text.
Proof.
  intros text maxLength startIndex. rewrite applyLengthLimits_window. split.
  - now rewrite prefix_length, length_drop.
  - intros i Hi. now rewrite (get_prefix _ _ _ Hi), get_drop.
Qed.

(** X2. Windows that follow one another join up: the window of [a] code
    units at [startIndex] followed by the window of [b] code units at
    [startIndex + a] is the window of [a + b] code units at [startIndex].
    A window from 0 that is at least as long as the text is the text. *)
Theorem applyLengthLimits_pages :
  forall (text : string) (a b startIndex extra : nat),
    Fetcher.applyLengthLimits text a startIndex
    +:+ Fetcher.applyLengthLimits text b (startIndex + a)
    = Fetcher.applyLengthLimits text (a + b) startIndex
    /\ Fetcher.applyLengthLimits text (String.length text + extra) 0 = text.
Proof.
  intros text a b startIndex extra. rewrite !applyLengthLimits_window. split.
  - now rewrite prefix_add, drop_drop.
  - replace (JS.drop 0 text) with text by (now destruct text).
    apply prefix_all. lia.
Qed.

(* ===================================================================== *)
(** * What an operation does to the world                                 *)
(* ===================================================================== *)



(** X5. The headers of the request are the caller's headers, each with the
    value the caller gave, plus the default [User-Agent] when the caller
    gave none; no other header is added. Without caller headers the
    request carries the default [User-Agent] alone. *)
Theorem requestHeaders_merge :
  forall (h : gmap string string) (name : string),
    Fetcher.requestHeaders (Some h) !! name
    = match h !! name with
      | Some value => Some value
      | None =>
          if String.eqb name "User-Agent" then Some Fetcher.userAgent else None
      end
    /\ Fetcher.requestHeaders None !! name
       = if String.eqb name "User-Agent" then Some Fetcher.userAgent else None.
Proof.
  intros h name.
  assert (Hdefault :
    ({[ "User-Agent" := Fetcher.userAgent ]} : gmap string string) !! name
    = if String.eqb name "User-Agent" then Some Fetcher.userAgent else None).
  { destruct (String.eqb_spec name "User-Agent") as [-> | Hne].
    - apply lookup_singleton_eq.
    - apply lookup_singleton_ne. congruence. }
  split; [| exact Hdefault].
  unfold Fetcher.requestHeaders. rewrite lookup_union.
  rewrite Hdefault.
  destruct (h !! name); destruct (String.eqb name "User-Agent"); reflexivity.
Qed.

(* ===================================================================== *)
(** * What a success result stands for                                    *)
(* ===================================================================== *)

Section ProcessFacts.
Variable P : Platform.

(** The text content that the txt format works on. *)
Lemma visible_text_truthy (textContent : option string) :
  match textContent with
  | Some t => if JS.truthy t then t else EmptyString
  | None => EmptyString
  end = visible_text textContent.
Proof. destruct textContent as [[|c t] |]; reflexivity. Qed.

(** What [process] yields, format by format. *)
Lemma process_content response k content contentType extension :
  Fetcher.process P response k = Normal (content, contentType, extension) ->
  exists body,
    Response_text response = Normal body
    /\ match k with
       | Html => content = body
       | Json =>
           exists value,
             JSON.parse body = Some value /\ content = JSON.stringify value 2
       | Txt =>
           exists textContent,
             JSDOM_body_text P body = Normal textContent
             /\ content
                = JS.trim (JS.collapse_spaces (visible_text textContent))
       | Markdown => turndown P body = Normal content
       end.
Proof.
  destruct k; unfold Fetcher.process, Response_json;
    destruct (Response_text response) as [body |]; try discriminate;
    intros H; exists body; (split; [reflexivity |]).
  - now inversion H.
  - destruct (JSON.parse body) as [value |]; [| discriminate].
    inversion H. now exists value.
  - destruct (JSDOM_body_text P body) as [textContent |]; [| discriminate].
    rewrite visible_text_truthy in H. inversion H. now exists textContent.
  - destruct (turndown P body); [| discriminate]. now inversion H.
Qed.

End ProcessFacts.

(** X6. A success result means that every stage went through: the
    directory was made, the guard let the URL pass, the server answered
    with an ok status and a readable body, and the file that the result
    names holds that body for html, what [JSON.stringify] prints with
    two-space indentation for the value parsed from it for json, the
    white-space-normalised text content for txt, and the output of the
    Markdown converter for markdown. *)
Theorem success_stores_the_transformed_body :
  forall (P : Platform) (k : OutputFormat) (req : RequestPayload)
         (w w' : World) (r : FetchResult),
    operation P k req w = (Normal r, w') ->
    isError r = false ->
    mkdir_error P (downloadDir P) = None
    /\ isIpPrivate P (url req) = false
    /\ exists response body name content,
        fetch_result P (url req) (Fetcher.requestHeaders (headers req))
        = Normal response
        /\ ok response = true
        /\ Response_text response = Normal body
        /\ Fetcher.generateUniqueFilename P (url req) (extension_of k)
           = Normal name
        /\ files w' !! path_join (downloadDir P) name = Some content
        /\ match k with
           | Html => content = body
           | Json =>
               exists value,
                 JSON.parse body = Some value
                 /\ content = JSON.stringify value 2
           | Txt =>
               exists textContent,
                 JSDOM_body_text P body = Normal textContent
                 /\ content
                    = JS.trim (JS.collapse_spaces (visible_text textContent))
           | Markdown => turndown P body = Normal content
           end.
Proof.
  intros P k req w w' r. rewrite operation_run, fetchAndSave_run.
  destruct (mkdir_error P (downloadDir P)) as [m |]; cbn beta iota zeta.
  { intros [= <- <-]; discriminate. }
  destruct (isIpPrivate P (url req)).
  { intros [= <- <-]; discriminate. }
  destruct (fetch_result P (url req) (Fetcher.requestHeaders (headers req)))
    as [response | e].
  2: { intros [= <- <-]; discriminate. }
  destruct (ok response) eqn:Hok; cbn [negb].
  2: { intros [= <- <-]; discriminate. }
  destruct (Fetcher.process P response k) as [[[content ct] ext] | e] eqn:Hprocess.
  2: { intros [= <- <-]; discriminate. }
  destruct (process_types P _ _ _ _ _ Hprocess) as [-> ->].
  destruct (process_content P _ _ _ _ _ Hprocess) as (body & Hbody & Hcontent).
  destruct (Fetcher.generateUniqueFilename P (url req) (extension_of k))
    as [name | e] eqn:Hname.
  2: { intros [= <- <-]; discriminate. }
  cbn beta iota zeta.
  destruct (writeFile_error P (path_join (downloadDir P) name) content).
  { intros [= <- <-]; discriminate. }
  intros [= <- <-] _. split; [reflexivity |]. split; [reflexivity |].
  exists response, body, name, content.
  repeat (split; [reflexivity || assumption |]).
  split; [| exact Hcontent].
  unfold add_file. simpl. apply lookup_insert_eq.
Qed.

Lemma success_stores_the_transformed_body_witness :
  exists content,
    files (snd (operation Demo.platform Html
                  (Demo.request "https://example.com") Demo.nothing))
    !! "/mock/.downloaded_files/20231027T103000Z-a1b2c3d4-example_com.html"
    = Some content
    /\ content = Demo.mockHtml.
Proof.
  destruct (success_stores_the_transformed_body Demo.platform Html
              (Demo.request "https://example.com") Demo.nothing
              (snd (operation Demo.platform Html
                      (Demo.request "https://example.com") Demo.nothing))
              (Fetcher.saved
                 "/mock/.downloaded_files/20231027T103000Z-a1b2c3d4-example_com.html"
                 "text/html"))
    as (_ & _ & response & body & name & content & Hfetch & _ & Hbody & Hname
        & Hfile & Hcontent); [reflexivity | reflexivity |].
  exists content.
  injection Hfetch as <-. injection Hbody as <-. injection Hname as <-.
  split; [exact Hfile | exact Hcontent].
Defined.

(* ===================================================================== *)
(** * The text format: words separated by single spaces                   *)
(* ===================================================================== *)

Section Words.

Lemma space_is_space : JS.is_space " " = true.
Proof. reflexivity. Qed.

Lemma trim_start_collapse b (s : string) :
  JS.trim_start (JS.collapse_from b s) = JS.collapse_from true s.
Proof.
  revert b; induction s as [|c s IH]; intros b; [reflexivity |].
  cbn [JS.collapse_from]. destruct (JS.is_space c) eqn:Hc.
  - destruct b; [apply IH |].
    cbn [JS.trim_start]. rewrite space_is_space. apply IH.
  - cbn [JS.trim_start]. now rewrite Hc.
Qed.

Lemma collapse_false_nonspace c (s : string) :
  JS.is_space c = false ->
  JS.collapse_from false (String c s) = JS.collapse_from true (String c s).
Proof. intros Hc. cbn [JS.collapse_from]. now rewrite Hc. Qed.

Lemma words_are_words (s : string) : Forall is_word (words s).
Proof.
  induction s as [|c s IH]; [constructor |].
  cbn [words]. destruct (JS.is_space c) eqn:Hc; [exact IH |].
  assert (Hone : is_word (String c EmptyString)).
  { split; [discriminate |]. simpl. now rewrite Hc. }
  destruct s as [|d s]; [constructor; [exact Hone | constructor] |].
  destruct (JS.is_space d); [constructor; [exact Hone | exact IH] |].
  destruct (words (String d s)) as [|w ws];
    [constructor; [exact Hone | constructor] |].
  inversion IH as [| ? ? [Hne Hw] Hws]; subst.
  constructor; [| exact Hws].
  split; [discriminate |]. simpl. now rewrite Hc.
Qed.

Lemma words_nonspace_head c (s : string) :
  JS.is_space c = false -> words (String c s) <> [].
Proof.
  intros Hc. cbn [words]. rewrite Hc.
  destruct s as [|d s]; [discriminate |].
  destruct (JS.is_space d); [discriminate |].
  destruct (words (String d s)); discriminate.
Qed.

Lemma join_cons_char sep c (w : string) ws :
  JSON.join sep (String c w :: ws) = String c (JSON.join sep (w :: ws)).
Proof. destruct ws; reflexivity. Qed.

Lemma join_word_not_empty sep (w : string) ws :
  w <> EmptyString -> JSON.join sep (w :: ws) <> EmptyString.
Proof.
  intros Hw. destruct w as [|c w]; [contradiction |].
  rewrite join_cons_char. discriminate.
Qed.

(** Trimming the collapsed text leaves the words and one space between
    two of them. *)
Lemma trim_end_collapse_words (s : string) :
  JS.trim_end (JS.collapse_from true s) = JSON.join " " (words s).
Proof.
  induction s as [|c s IH]; [reflexivity |].
  cbn [JS.collapse_from words]. destruct (JS.is_space c) eqn:Hc; [exact IH |].
  cbn [JS.trim_end].
  destruct s as [|d s]; [simpl; now rewrite Hc |].
  destruct (JS.is_space d) eqn:Hd.
  - (* the word ends here *)
    cbn [JS.collapse_from] in IH |- *. rewrite Hd in IH |- *.
    cbn [JS.trim_end]. rewrite IH, space_is_space.
    pose proof (words_are_words (String d s)) as Hwords.
    destruct (words (String d s)) as [|w ws]; [simpl; now rewrite Hc |].
    inversion Hwords as [| ? ? [Hne _] _]; subst.
    pose proof (join_word_not_empty " " w ws Hne) as Hjoin.
    change (JSON.join " " (String c EmptyString :: w :: ws))
      with (String c (String " " (JSON.join " " (w :: ws)))).
    destruct (JSON.join " " (w :: ws)) as [|x j]; [contradiction |].
    reflexivity.
  - (* the word goes on *)
    rewrite (collapse_false_nonspace _ _ Hd), IH.
    pose proof (words_nonspace_head d s Hd) as Hne.
    pose proof (words_are_words (String d s)) as Hwords.
    destruct (words (String d s)) as [|w ws]; [contradiction |].
    inversion Hwords as [| ? ? [Hw _] _]; subst.
    pose proof (join_word_not_empty " " w ws Hw) as Hjoin.
    rewrite join_cons_char.
    destruct (JSON.join " " (w :: ws)) as [|x j]; [contradiction |].
    reflexivity.
Qed.

Lemma trim_collapse_words (s : string) :
  JS.trim (JS.collapse_spaces s) = JSON.join " " (words s).
Proof.
  unfold JS.trim, JS.collapse_spaces.
  now rewrite trim_start_collapse, trim_end_collapse_words.
Qed.

(** The words of words joined by single spaces. *)
Lemma words_word_then_space (w t : string) :
  is_word w -> words (w +:+ String " " t) = w :: words t.
Proof.
  intros [Hne Hw]. induction w as [|c w IH]; [contradiction |].
  simpl in Hw. apply andb_true_iff in Hw as [Hc Hw].
  apply negb_true_iff in Hc.
  destruct w as [|d w].
  - simpl. now rewrite Hc.
  - change (String c (String d w) +:+ String " " t)
      with (String c (String d w +:+ String " " t)).
    cbn [words]. rewrite Hc.
    change (String d w +:+ String " " t)
      with (String d (w +:+ String " " t)).
    assert (Hd : JS.is_space d = false).
    { simpl in Hw. apply andb_true_iff in Hw as [Hd _].
      now apply negb_true_iff in Hd. }
    cbn iota. rewrite Hd.
    change (String d (w +:+ String " " t))
      with (String d w +:+ String " " t).
    rewrite IH; [reflexivity | discriminate | exact Hw].
Qed.

Lemma words_word (w : string) : is_word w -> words w = [w].
Proof.
  intros [Hne Hw]. induction w as [|c w IH]; [contradiction |].
  simpl in Hw. apply andb_true_iff in Hw as [Hc Hw].
  apply negb_true_iff in Hc.
  cbn [words]. rewrite Hc.
  destruct w as [|d w]; [reflexivity |].
  assert (Hd : JS.is_space d = false).
  { simpl in Hw. apply andb_true_iff in Hw as [Hd _].
    now apply negb_true_iff in Hd. }
  rewrite Hd, IH; [reflexivity | discriminate | exact Hw].
Qed.

Lemma words_join (ws : list string) :
  Forall is_word ws -> words (JSON.join " " ws) = ws.
Proof.
  induction 1 as [| w ws Hw Hws IH]; [reflexivity |].
  destruct ws as [|v ws]; [now apply words_word |].
  change (JSON.join " " (w :: v :: ws))
    with (w +:+ " " +:+ JSON.join " " (v :: ws)).
  change (w +:+ " " +:+ JSON.join " " (v :: ws))
    with (w +:+ String " " (JSON.join " " (v :: ws))).
  now rewrite words_word_then_space, IH.
Qed.

(** Only white space is removed. *)
Lemma remove_space_collapse b (s : string) :
  JS.remove_all JS.is_space (JS.collapse_from b s)
  = JS.remove_all JS.is_space s.
Proof.
  revert b; induction s as [|c s IH]; intros b; [reflexivity |].
  cbn [JS.collapse_from JS.remove_all]. destruct (JS.is_space c) eqn:Hc.
  - destruct b; [apply IH |].
    cbn [JS.remove_all]. rewrite space_is_space. apply IH.
  - cbn [JS.remove_all]. now rewrite Hc, IH.
Qed.

Lemma remove_space_trim_start (s : string) :
  JS.remove_all JS.is_space (JS.trim_start s) = JS.remove_all JS.is_space s.
Proof.
  induction s as [|c s IH]; [reflexivity |].
  cbn [JS.trim_start JS.remove_all].
  destruct (JS.is_space c) eqn:Hc; [exact IH |].
  cbn [JS.remove_all]. now rewrite Hc.
Qed.

Lemma remove_space_trim_end (s : string) :
  JS.remove_all JS.is_space (JS.trim_end s) = JS.remove_all JS.is_space s.
Proof.
  induction s as [|c s IH]; [reflexivity |].
  cbn [JS.trim_end JS.remove_all].
  destruct (JS.trim_end s) as [|x r].
  - cbn [JS.remove_all] in IH. rewrite <- IH.
    destruct (JS.is_space c) eqn:Hc; [reflexivity |].
    cbn [JS.remove_all]. now rewrite Hc.
  - cbn [JS.remove_all]. now rewrite <- IH.
Qed.

End Words.

(** X7. The text that the txt format stores is the words of the text
    content of the body (its maximal runs without white space), in order
    and separated by single spaces: no white space at either end, none
    but single spaces inside. *)
Theorem txt_stores_the_words :
  forall (P : Platform) (response : Response)
         (content contentType extension : string),
    Fetcher.process P response Txt = Normal (content, contentType, extension) ->
    exists body textContent,
      Response_text response = Normal body
      /\ JSDOM_body_text P body = Normal textContent
      /\ content = JSON.join " " (words (visible_text textContent))
      /\ Forall is_word (words (visible_text textContent)).
Proof.
  intros P response content contentType extension H.
  destruct (process_content P _ _ _ _ _ H)
    as (body & Hbody & textContent & Hdom & ->).
  exists body, textContent. split; [exact Hbody |]. split; [exact Hdom |].
  split; [apply trim_collapse_words | apply words_are_words].
Qed.

Lemma txt_stores_the_words_witness :
  exists body textContent,
    Response_text (mkResponse true 200 (Normal Demo.mockHtml)) = Normal body
    /\ JSDOM_body_text Demo.platform body = Normal textContent
    /\ "Hello World This is a test paragraph."
       = JSON.join " " (words (visible_text textContent))
    /\ Forall is_word (words (visible_text textContent)).
Proof.
  apply (txt_stores_the_words Demo.platform
           (mkResponse true 200 (Normal Demo.mockHtml))
           "Hello World This is a test paragraph." "text/plain" "txt").
  reflexivity.
Defined.

(** X8. The normalisation of the txt format touches white space only, and
    doing it again changes nothing: the stored text and the text content
    have the same code units once all white space is taken out, and the
    stored text is its own normal form. *)
Theorem txt_changes_white_space_only :
  forall (P : Platform) (response : Response)
         (content contentType extension : string),
    Fetcher.process P response Txt = Normal (content, contentType, extension) ->
    (exists body textContent,
        Response_text response = Normal body
        /\ JSDOM_body_text P body = Normal textContent
        /\ JS.remove_all JS.is_space content
           = JS.remove_all JS.is_space (visible_text textContent))
    /\ JS.trim (JS.collapse_spaces content) = content.
Proof.
  intros P response content contentType extension H.
  destruct (process_content P _ _ _ _ _ H)
    as (body & Hbody & textContent & Hdom & ->).
  split.
  - exists body, textContent. split; [exact Hbody |]. split; [exact Hdom |].
    unfold JS.trim, JS.collapse_spaces.
    now rewrite remove_space_trim_end, remove_space_trim_start,
      remove_space_collapse.
  - rewrite !trim_collapse_words. f_equal.
    apply words_join, words_are_words.
Qed.

Lemma txt_changes_white_space_only_witness :
  JS.trim (JS.collapse_spaces "Hello World This is a test paragraph.")
  = "Hello World This is a test paragraph.".
Proof.
  apply (txt_changes_white_space_only Demo.platform
           (mkResponse true 200 (Normal Demo.mockHtml))
           "Hello World This is a test paragraph." "text/plain" "txt").
  reflexivity.
Defined.

(* ===================================================================== *)
(** * More failing stages                                                 *)
(* ===================================================================== *)





(** X11. When every stage up to the write goes through and [fs.writeFile]
    rejects, the operation returns the error result with the message
    "Failed to fetch <url>: " followed by the message of the file system.
    The files are as before; the directory and the request stay. *)
Theorem write_failure_reported :
  forall (P : Platform) (k : OutputFormat) (req : RequestPayload) (w : World)
         (response : Response) (content contentType extension name : string)
         (reason : string),
    mkdir_error P (downloadDir P) = None ->
    isIpPrivate P (url req) = false ->
    fetch_result P (url req) (Fetcher.requestHeaders (headers req))
    = Normal response ->
    ok response = true ->
    Fetcher.process P response k = Normal (content, contentType, extension) ->
    Fetcher.generateUniqueFilename P (url req) extension = Normal name ->
    writeFile_error P (path_join (downloadDir P) name) content = Some reason ->
    operation P k req w
    = (Normal (error_result ("Failed to fetch " +:+ url req +:+ ": " +:+ reason)),
       add_request (url req) (Fetcher.requestHeaders (headers req))
         (add_directory (downloadDir P) w)).
Proof.
  intros P k req w response content contentType extension name reason
    Hdir Hpublic Hfetch Hok Hprocess Hname Hwrite.
  rewrite operation_run, fetchAndSave_run, Hdir, Hpublic.
  cbn beta iota zeta. rewrite Hfetch, Hok. cbn [negb].
  rewrite Hprocess, Hname. cbn beta iota zeta. rewrite Hwrite.
  unfold Fetcher.failed, wrapped, error_result, message_of.
  rewrite ?append_assoc; reflexivity.
Qed.

Lemma write_failure_reported_witness :
  operation Demo.disk_full Txt (Demo.request "https://example.com") Demo.nothing
  = (Normal (error_result "Failed to fetch https://example.com: Disk full"),
     add_request "https://example.com" (Fetcher.requestHeaders None)
       (add_directory "/mock/.downloaded_files" Demo.nothing)).
Proof.
  apply (write_failure_reported Demo.disk_full Txt
           (Demo.request "https://example.com") Demo.nothing
           (mkResponse true 200 (Normal Demo.mockHtml))
           "Hello World This is a test paragraph." "text/plain" "txt"
           "20231027T103000Z-a1b2c3d4-example_com.txt" "Disk full");
    reflexivity.
Defined.

(* ===================================================================== *)
(** * Generated names as path segments                                    *)
(* ===================================================================== *)

Section NameFacts.

Lemma all_chars_weaken (p q : ascii -> bool) (s : string) :
  (forall c, p c = true -> q c = true) ->
  all_chars p s = true -> all_chars q s = true.
Proof.
  intros Hpq. induction s as [|c s IH]; simpl; [reflexivity |].
  intros H. apply andb_true_iff in H as [Hc Hs].
  now rewrite (Hpq _ Hc), IH.
Qed.

Lemma safe_is_name_char c : JS.is_filename_safe c = true -> is_name_char c = true.
Proof. intros H. unfold is_name_char. now rewrite H. Qed.

Lemma digit_char_safe d : JS.is_filename_safe (JS.digit_char d) = true.
Proof.
  destruct (digit_char_cases d) as (k & Hk & ->).
  do 10 (destruct k as [|k]; [reflexivity |]). lia.
Qed.

Lemma pad_digits_safe w n :
  all_chars JS.is_filename_safe (JS.pad_digits w n) = true.
Proof.
  revert n; induction w as [|w IH]; intros n; [reflexivity |].
  cbn [JS.pad_digits]. rewrite all_chars_append, IH.
  cbn [all_chars]. now rewrite digit_char_safe.
Qed.

Lemma compact_stamp_safe d :
  all_chars JS.is_filename_safe (compact_stamp d) = true.
Proof.
  unfold compact_stamp.
  repeat rewrite all_chars_append. repeat rewrite pad_digits_safe.
  reflexivity.
Qed.

Lemma hex_digit_safe c : JS.is_hex_digit c = true -> JS.is_filename_safe c = true.
Proof.
  unfold JS.is_hex_digit, JS.is_filename_safe, JS.is_lower, JS.is_upper,
    JS.is_digit, JS.in_range.
  intros H. apply orb_true_iff in H as [H | H].
  - rewrite H. now rewrite !orb_true_r.
  - apply andb_true_iff in H as [Hlo Hhi].
    apply N.leb_le in Hlo, Hhi.
    replace ((97 <=? JS.code c)%N && (JS.code c <=? 122)%N) with true;
      [reflexivity |].
    symmetry. apply andb_true_iff. split; apply N.leb_le; lia.
Qed.

Lemma hex_safe buf : all_chars JS.is_filename_safe (JS.hex buf) = true.
Proof.
  apply (all_chars_weaken JS.is_hex_digit); [apply hex_digit_safe |].
  apply hex_all_hex.
Qed.

Lemma extension_safe k :
  all_chars JS.is_filename_safe (extension_of k) = true
  /\ 2 <= String.length (extension_of k) <= 4.
Proof. destruct k; split; try reflexivity; simpl; lia. Qed.

(** The parts of a generated name. *)
Lemma generateUniqueFilename_inv (P : Platform) url extension name :
  four_digit_year (Date_now P) ->
  Fetcher.generateUniqueFilename P url extension = Normal name ->
  exists baseName,
    name = compact_stamp (Date_now P) +:+ "Z-" +:+ JS.hex (randomBytes P 4)
           +:+ "-" +:+ baseName +:+ "." +:+ extension
    /\ all_chars JS.is_filename_safe baseName = true
    /\ String.length baseName <= 50.
Proof.
  intros Hyear Hname.
  destruct (URL_new P url) as [urlObj | e] eqn:Hurl.
  - rewrite (generateUniqueFilename_parts P _ _ _ Hurl) in Hname.
    rewrite (name_head_compact P Hyear), !append_assoc in Hname.
    match type of Hname with
    | context [JS.prefix 50 ?x] => exists (JS.prefix 50 x)
    end.
    split; [now injection Hname |]. split.
    + apply all_chars_prefix, sanitize_all_safe.
    + rewrite prefix_length. lia.
  - unfold Fetcher.generateUniqueFilename in Hname. rewrite Hurl in Hname.
    discriminate.
Qed.

(** Cancelling in equations between concatenations. *)
Lemma append_cancel_l (a x y : string) : a +:+ x = a +:+ y -> x = y.
Proof.
  induction a as [|c a IH]; simpl; [trivial |].
  intros [= H]. now apply IH.
Qed.

Lemma append_same_length (a b x y : string) :
  String.length a = String.length b -> a +:+ x = b +:+ y -> a = b.
Proof.
  revert b; induction a as [|c a IH]; intros [|d b]; simpl;
    try discriminate; [reflexivity |].
  intros [= Hlen] [= -> H]. f_equal. now apply IH.
Qed.

Lemma Normal_inj {A} (a b : A) : Normal a = Normal b -> a = b.
Proof. now intros [= ->]. Qed.

(** Hexadecimal text determines the bytes. *)
Lemma unhex_hex_of_byte b (r : string) :
  unhex (JS.hex_of_byte b +:+ r) = b :: unhex r.
Proof. destruct b; reflexivity. Qed.

Lemma unhex_hex buf : unhex (JS.hex buf) = buf.
Proof.
  induction buf as [|b buf IH]; [reflexivity |].
  cbn [JS.hex]. now rewrite unhex_hex_of_byte, IH.
Qed.

(** The code units and the length of a generated name. *)
Lemma generated_name_shape (P : Platform) url k name :
  four_digit_year (Date_now P) ->
  Fetcher.generateUniqueFilename P url (extension_of k) = Normal name ->
  all_chars is_name_char name = true
  /\ 29 <= String.length name <= 81.
Proof.
  intros Hyear Hname.
  destruct (generateUniqueFilename_inv P _ _ _ Hyear Hname)
    as (baseName & -> & Hsafe & Hlen).
  destruct (extension_safe k) as [Hext Hextlen].
  split.
  - repeat rewrite all_chars_append.
    rewrite (all_chars_weaken _ _ _ safe_is_name_char (compact_stamp_safe _)).
    rewrite (all_chars_weaken _ _ _ safe_is_name_char (hex_safe _)).
    rewrite (all_chars_weaken _ _ _ safe_is_name_char Hsafe).
    rewrite (all_chars_weaken _ _ _ safe_is_name_char Hext).
    reflexivity.
  - repeat rewrite length_append.
    rewrite length_compact_stamp, length_hex, length_randomBytes.
    cbn [String.length]. lia.
Qed.

Lemma name_char_not_separator c :
  is_name_char c = true -> negb (Ascii.eqb c "/") = true.
Proof.
  intros H. destruct (Ascii.eqb_spec c "/") as [-> | _]; [| reflexivity].
  discriminate H.
Qed.

Lemma name_char_not_space c :
  is_name_char c = true -> negb (JS.is_space c) = true.
Proof.
  destruct c as [[] [] [] [] [] [] [] []]; intros H;
    (reflexivity || discriminate H).
Qed.

End NameFacts.

(** X12. With a four-digit year on the clock, the name generated for any
    URL and any of the four formats is one plain path segment: between 29
    and 81 code units, each a letter, a digit, [_], [-] or [.]; no
    separator, no white space. *)
Theorem generated_name_is_a_plain_segment :
  forall (P : Platform) (url : string) (k : OutputFormat) (name : string),
    four_digit_year (Date_now P) ->
    Fetcher.generateUniqueFilename P url (extension_of k) = Normal name ->
    all_chars is_name_char name = true
    /\ all_chars (fun c => negb (Ascii.eqb c "/")) name = true
    /\ all_chars (fun c => negb (JS.is_space c)) name = true
    /\ 29 <= String.length name <= 81.
Proof.
  intros P url k name Hyear Hname.
  destruct (generated_name_shape P url k name Hyear Hname) as [Hchars Hlen].
  split; [exact Hchars |]. split; [| split; [| exact Hlen]].
  - exact (all_chars_weaken _ _ _ name_char_not_separator Hchars).
  - exact (all_chars_weaken _ _ _ name_char_not_space Hchars).
Qed.

Lemma generated_name_is_a_plain_segment_witness :
  all_chars is_name_char "20231027T103000Z-a1b2c3d4-page.html" = true
  /\ all_chars (fun c => negb (Ascii.eqb c "/"))
       "20231027T103000Z-a1b2c3d4-page.html" = true
  /\ all_chars (fun c => negb (JS.is_space c))
       "20231027T103000Z-a1b2c3d4-page.html" = true
  /\ 29 <= String.length "20231027T103000Z-a1b2c3d4-page.html" <= 81.
Proof.
  apply (generated_name_is_a_plain_segment Demo.platform
           "https://example.com/path/to/page" Html).
  - unfold four_digit_year. simpl. lia.
  - reflexivity.
Defined.

(** X13. Two names generated for the same URL and extension at the same
    instant of the clock coincide exactly when the four random bytes
    coincide: the random part alone keeps such names apart. *)
Theorem names_collide_only_with_the_random_bytes :
  forall (P P' : Platform) (url extension name : string),
    Date_now P' = Date_now P ->
    URL_new P' url = URL_new P url ->
    Fetcher.generateUniqueFilename P url extension = Normal name ->
    Fetcher.generateUniqueFilename P' url extension = Normal name
    <-> randomBytes P' 4 = randomBytes P 4.
Proof.
  intros P P' url extension name Hdate Hparse Hname.
  destruct (URL_new P url) as [urlObj | e] eqn:Hurl.
  2: { unfold Fetcher.generateUniqueFilename in Hname.
       rewrite Hurl in Hname. discriminate. }
  rewrite (generateUniqueFilename_parts P _ _ _ Hurl) in Hname.
  rewrite (generateUniqueFilename_parts P' _ _ _ Hparse).
  apply Normal_inj in Hname. subst name. unfold name_head. rewrite Hdate.
  assert (Hhex : JS.hex (randomBytes P' 4) = JS.hex (randomBytes P 4)
                 <-> randomBytes P' 4 = randomBytes P 4).
  { split; [| now intros ->].
    intros H. rewrite <- (unhex_hex (randomBytes P' 4)), H. apply unhex_hex. }
  rewrite <- Hhex. clear Hhex.
  assert (Hlen : String.length (JS.hex (randomBytes P' 4))
                 = String.length (JS.hex (randomBytes P 4)))
    by (now rewrite !length_hex, !length_randomBytes).
  generalize dependent (JS.hex (randomBytes P' 4)).
  generalize (JS.hex (randomBytes P 4)).
  intros h h' Hlen. split.
  - intros H. apply Normal_inj in H. rewrite !append_assoc in H.
    apply append_cancel_l in H.
    apply (append_cancel_l "Z") in H. apply (append_cancel_l "-") in H.
    exact (append_same_length _ _ _ _ Hlen H).
  - now intros ->.
Qed.

Lemma names_collide_only_with_the_random_bytes_witness :
  Fetcher.generateUniqueFilename Demo.disk_full "https://example.com" "md"
  = Normal "20231027T103000Z-a1b2c3d4-example_com.md"
  <-> randomBytes Demo.disk_full 4 = randomBytes Demo.platform 4.
Proof.
  apply (names_collide_only_with_the_random_bytes Demo.platform Demo.disk_full
           "https://example.com" "md");
    reflexivity.
Defined.

(* ===================================================================== *)
(** * Paths                                                               *)
(* ===================================================================== *)

Section PathFacts.

Lemma plain_not_special (s : string) :
  plain_segment s ->
  String.eqb s EmptyString || String.eqb s "." = false
  /\ String.eqb s ".." = false.
Proof.
  intros (Hne & Hdot & Hdots & _). split.
  - apply orb_false_iff. split; now apply String.eqb_neq.
  - now apply String.eqb_neq.
Qed.

(** Segments in normal form pass through [normalizeString]. *)
Lemma normalize_segments_plain allow (segments res : list string) :
  Forall plain_segment segments ->
  Path.normalize_segments allow res segments = (List.rev res ++ segments)%list.
Proof.
  intros H; revert res; induction H as [| s segments Hs _ IH]; intros res.
  - simpl. now rewrite List.app_nil_r.
  - destruct (plain_not_special _ Hs) as [H1 H2].
    cbn [Path.normalize_segments]. rewrite H1, H2, IH.
    simpl. now rewrite <- List.app_assoc.
Qed.

Lemma normalize_segments_app allow (xs ys res : list string) :
  Path.normalize_segments allow res (xs ++ ys)
  = Path.normalize_segments allow
      (List.rev (Path.normalize_segments allow res xs)) ys.
Proof.
  revert res; induction xs as [| x xs IH]; intros res.
  - simpl. now rewrite List.rev_involutive.
  - cbn [Path.normalize_segments List.app].
    destruct (String.eqb x EmptyString || String.eqb x "."); [apply IH |].
    destruct (String.eqb x ".."); [| apply IH].
    destruct res as [| last before]; [apply IH |].
    destruct (String.eqb last ".."); apply IH.
Qed.

(** Without leave to climb above the root, what is kept is plain. *)
Lemma normalize_segments_keeps_plain (segments res : list string) :
  Forall (fun s => all_chars (fun c => negb (Ascii.eqb c "/")) s = true) segments ->
  Forall plain_segment res ->
  Forall plain_segment (Path.normalize_segments false res segments).
Proof.
  intros H; revert res; induction H as [| s segments Hs _ IH]; intros res Hres.
  - simpl. now apply Forall_rev.
  - cbn [Path.normalize_segments].
    destruct (String.eqb s EmptyString || String.eqb s ".") eqn:E1;
      [now apply IH |].
    destruct (String.eqb_spec s "..") as [E2 | E2].
    + destruct res as [| last before]; [now apply IH |].
      destruct (String.eqb last ".."); [now apply IH |].
      apply IH. now inversion Hres.
    + apply IH. constructor; [| exact Hres].
      apply orb_false_iff in E1 as [E0 E1].
      apply String.eqb_neq in E0, E1. now repeat split.
Qed.

Lemma split_without_separator (s : string) :
  Forall (fun x => all_chars (fun c => negb (Ascii.eqb c "/")) x = true) (JS.split "/" s).
Proof.
  induction s as [|c s IH]; [repeat constructor |].
  cbn [JS.split]. destruct (Ascii.eqb c "/") eqn:E.
  - constructor; [reflexivity | exact IH].
  - destruct (JS.split "/" s) as [|h t]; [repeat constructor; simpl; now rewrite E |].
    inversion IH; subst. constructor; [| assumption].
    simpl. now rewrite E.
Qed.

Lemma split_plain (s : string) : plain_segment s -> JS.split "/" s = [s].
Proof. intros (_ & _ & _ & H). now apply split_no_separator. Qed.

Lemma join_cons_cons sep (x y : string) r :
  JSON.join sep (x :: y :: r) = x +:+ sep +:+ JSON.join sep (y :: r).
Proof. reflexivity. Qed.

Lemma join_snoc (segments : list string) (x : string) :
  segments <> [] ->
  JSON.join "/" (segments ++ [x]) = JSON.join "/" segments +:+ "/" +:+ x.
Proof.
  induction segments as [| s segments IH]; [contradiction |]. intros _.
  destruct segments as [| t segments]; [reflexivity |].
  change ((s :: t :: segments) ++ [x])%list
    with (s :: (t :: segments) ++ [x])%list.
  change ((t :: segments) ++ [x])%list with (t :: segments ++ [x])%list.
  rewrite join_cons_cons.
  change (t :: segments ++ [x])%list with ((t :: segments) ++ [x])%list.
  rewrite IH by discriminate.
  rewrite join_cons_cons. now rewrite !append_assoc.
Qed.

Lemma split_join (segments : list string) :
  Forall plain_segment segments ->
  segments <> [] ->
  JS.split "/" (JSON.join "/" segments) = segments.
Proof.
  induction 1 as [| s segments Hs Hrest IH]; [contradiction |]. intros _.
  destruct segments as [| t segments]; [now apply split_plain |].
  rewrite join_cons_cons.
  change (s +:+ "/" +:+ JSON.join "/" (t :: segments))
    with (s +:+ String "/" (JSON.join "/" (t :: segments))).
  rewrite split_append, (split_plain _ Hs), IH by discriminate.
  reflexivity.
Qed.

(** The segments of a normal path followed by more text. *)
Lemma normalize_after_normal allow (segments : list string) (more : string) :
  Forall plain_segment segments ->
  Path.normalize_segments allow []
    (JS.split "/" (("/" +:+ JSON.join "/" segments) +:+ String "/" more))
  = Path.normalize_segments allow (List.rev segments) (JS.split "/" more).
Proof.
  intros H. rewrite split_append, normalize_segments_app. f_equal. f_equal.
  change ("/" +:+ JSON.join "/" segments)
    with (String "/" (JSON.join "/" segments)).
  cbn [JS.split]. rewrite Ascii.eqb_refl.
  cbn [Path.normalize_segments String.eqb orb].
  destruct segments as [| s segments]; [reflexivity |].
  rewrite split_join by (assumption || discriminate).
  now rewrite normalize_segments_plain.
Qed.

Lemma normal_path_absolute (p : string) :
  normal_path p -> Path.isAbsolute p = true /\ p <> EmptyString.
Proof. intros (segments & _ & ->). split; [reflexivity | discriminate]. Qed.

Lemma eqb_empty_false (p : string) :
  p <> EmptyString -> String.eqb p EmptyString = false.
Proof. now intros H; apply String.eqb_neq. Qed.

(** [path.resolve] on arguments of which the last is a normal path. *)
Lemma resolve_normal (cwd : string) (before : list string) (p : string) :
  normal_path p -> Path.resolve cwd (before ++ [p]) = p.
Proof.
  intros Hp. destruct (normal_path_absolute _ Hp) as [Habs Hne].
  destruct Hp as (segments & Hsegments & ->).
  unfold Path.resolve. rewrite List.rev_app_distr.
  cbn [List.rev List.app Path.resolve_loop].
  rewrite (eqb_empty_false _ Hne), Habs. cbn [negb].
  unfold Path.normalizeString.
  change ((("/" +:+ JSON.join "/" segments) +:+ "/" +:+ EmptyString))
    with (("/" +:+ JSON.join "/" segments) +:+ String "/" EmptyString).
  rewrite (normalize_after_normal _ _ _ Hsegments).
  cbn [JS.split Path.normalize_segments String.eqb orb].
  now rewrite List.rev_involutive.
Qed.

(** [path.resolve] of a plain name, with or without [./] before it, in a
    normal working directory. *)
Lemma resolve_plain_name (cwd name : string) :
  normal_path cwd -> plain_segment name ->
  Path.resolve cwd [name] = path_join cwd name
  /\ Path.resolve cwd ["./" +:+ name] = path_join cwd name
  /\ Path.resolve cwd [cwd; name] = path_join cwd name
  /\ Path.resolve cwd [cwd; "./" +:+ name] = path_join cwd name.
Proof.
  intros Hcwd Hname.
  destruct (normal_path_absolute _ Hcwd) as [Habs Hne].
  destruct Hcwd as (segments & Hsegments & ->).
  destruct Hname as (Hn0 & Hn1 & Hn2 & Hn3).
  assert (Hname : plain_segment name) by (now repeat split).
  assert (Hrel : Path.isAbsolute name = false).
  { destruct name as [|c name]; [contradiction |].
    simpl in Hn3. apply andb_true_iff in Hn3 as [Hc _].
    apply negb_true_iff in Hc. unfold Path.isAbsolute.
    cbn [JS.startsWith]. rewrite Ascii.eqb_sym. now rewrite Hc. }
  assert (Hsplit : JS.split "/" (name +:+ "/" +:+ EmptyString)
                   = [name; EmptyString]).
  { change (name +:+ "/" +:+ EmptyString)
      with (name +:+ String "/" EmptyString).
    now rewrite split_append, (split_plain _ Hname). }
  assert (Hresult :
    "/" +:+ JSON.join "/"
              (Path.normalize_segments false (List.rev segments)
                 [name; EmptyString])
    = path_join ("/" +:+ JSON.join "/" segments) name).
  { destruct (plain_not_special _ Hname) as [H1 H2].
    cbn [Path.normalize_segments]. rewrite H1, H2.
    cbn [String.eqb orb List.rev]. rewrite List.rev_involutive.
    unfold path_join. destruct segments as [| s segments]; [reflexivity |].
    replace (String.eqb ("/" +:+ JSON.join "/" (s :: segments)) "/")
      with false.
    - rewrite join_snoc by discriminate. now rewrite !append_assoc.
    - symmetry. apply String.eqb_neq. intros [= H].
      inversion Hsegments as [| ? ? (Hs & _) _]; subst.
      now apply (join_word_not_empty "/" s segments Hs). }
  assert (Hdotted :
    Path.normalizeString
      (("/" +:+ JSON.join "/" segments) +:+ "/" +:+ ("./" +:+ name)
       +:+ "/" +:+ EmptyString) false
    = JSON.join "/"
        (Path.normalize_segments false (List.rev segments)
           [name; EmptyString])).
  { unfold Path.normalizeString.
    change ((("/" +:+ JSON.join "/" segments) +:+ "/" +:+ ("./" +:+ name)
             +:+ "/" +:+ EmptyString))
      with (("/" +:+ JSON.join "/" segments)
            +:+ String "/" (String "." (String "/" (name +:+ "/" +:+ EmptyString)))).
    rewrite (normalize_after_normal _ _ _ Hsegments).
    change (JS.split "/" (String "." (String "/" (name +:+ "/" +:+ EmptyString))))
      with ("." :: JS.split "/" (name +:+ "/" +:+ EmptyString)).
    now rewrite Hsplit. }
  split; [| split; [| split]].
  4: { unfold Path.resolve.
       cbn [List.rev List.app Path.resolve_loop].
       change (Path.isAbsolute ("./" +:+ name)) with false.
       change (String.eqb ("./" +:+ name) EmptyString) with false.
       rewrite (eqb_empty_false _ Hne), Habs.
       cbn [negb]. rewrite Hdotted. exact Hresult. }
  - unfold Path.resolve.
    cbn [List.rev List.app Path.resolve_loop].
    rewrite (eqb_empty_false _ Hn0), Hrel, (eqb_empty_false _ Hne), Habs.
    cbn [negb]. unfold Path.normalizeString.
    change ((("/" +:+ JSON.join "/" segments) +:+ "/" +:+ name +:+ "/" +:+ EmptyString))
      with (("/" +:+ JSON.join "/" segments)
            +:+ String "/" (name +:+ "/" +:+ EmptyString)).
    rewrite (normalize_after_normal _ _ _ Hsegments), Hsplit.
    exact Hresult.
  - unfold Path.resolve.
    cbn [List.rev List.app Path.resolve_loop].
    change (Path.isAbsolute ("./" +:+ name)) with false.
    change (String.eqb ("./" +:+ name) EmptyString) with false.
    rewrite (eqb_empty_false _ Hne), Habs.
    cbn [negb]. unfold Path.normalizeString.
    change ((("/" +:+ JSON.join "/" segments) +:+ "/" +:+ ("./" +:+ name) +:+ "/" +:+ EmptyString))
      with (("/" +:+ JSON.join "/" segments)
            +:+ String "/" (String "." (String "/" (name +:+ "/" +:+ EmptyString)))).
    rewrite (normalize_after_normal _ _ _ Hsegments).
    change (JS.split "/" (String "." (String "/" (name +:+ "/" +:+ EmptyString))))
      with ("." :: JS.split "/" (name +:+ "/" +:+ EmptyString)).
    rewrite Hsplit.
    change (Path.normalize_segments false (List.rev segments)
              ["."; name; EmptyString])
      with (Path.normalize_segments false (List.rev segments)
              [name; EmptyString]).
    exact Hresult.
  - unfold Path.resolve.
    cbn [List.rev List.app Path.resolve_loop].
    rewrite (eqb_empty_false _ Hn0), Hrel, (eqb_empty_false _ Hne), Habs.
    cbn [negb]. unfold Path.normalizeString.
    change ((("/" +:+ JSON.join "/" segments) +:+ "/" +:+ name +:+ "/" +:+ EmptyString))
      with (("/" +:+ JSON.join "/" segments)
            +:+ String "/" (name +:+ "/" +:+ EmptyString)).
    rewrite (normalize_after_normal _ _ _ Hsegments), Hsplit.
    exact Hresult.
Qed.

(** With an absolute working directory the loop of [path.resolve] ends on
    an absolute path. *)
Lemma resolve_loop_absolute (cwd : string) (pending : list string) acc :
  Path.isAbsolute cwd = true ->
  snd (Path.resolve_loop (pending ++ [cwd]) acc) = true.
Proof.
  intros Hcwd. revert acc; induction pending as [| p pending IH]; intros acc.
  - cbn [List.app Path.resolve_loop].
    destruct cwd as [|c cwd]; [discriminate |].
    cbn [String.eqb]. now rewrite Hcwd.
  - cbn [List.app Path.resolve_loop].
    destruct (String.eqb p EmptyString); [apply IH |].
    destruct (Path.isAbsolute p); [reflexivity | apply IH].
Qed.

Lemma resolve_normal_form (cwd : string) (paths : list string) :
  Path.isAbsolute cwd = true -> normal_path (Path.resolve cwd paths).
Proof.
  intros Hcwd. unfold Path.resolve.
  pose proof (resolve_loop_absolute cwd (List.rev paths) EmptyString Hcwd) as H.
  destruct (Path.resolve_loop (List.rev paths ++ [cwd]) EmptyString)
    as [resolvedPath resolvedAbsolute].
  simpl in H. subst resolvedAbsolute. cbn [negb].
  eexists. split; [| reflexivity].
  apply normalize_segments_keeps_plain; [apply split_without_separator |].
  constructor.
Qed.

Lemma trailingSeparator_append (a b : string) :
  b <> EmptyString ->
  Path.trailingSeparator (a +:+ b) = Path.trailingSeparator b.
Proof.
  intros Hb. induction a as [|c a IH]; [reflexivity |].
  change (String c a +:+ b) with (String c (a +:+ b)).
  cbn [Path.trailingSeparator]. rewrite IH.
  destruct (a +:+ b) eqn:E; [| reflexivity].
  destruct a; [simpl in E; contradiction | discriminate].
Qed.

Lemma trailingSeparator_plain (s : string) :
  all_chars (fun c => negb (Ascii.eqb c "/")) s = true -> Path.trailingSeparator s = false.
Proof.
  induction s as [|c s IH]; [reflexivity |].
  simpl. intros H. apply andb_true_iff in H as [Hc Hs].
  apply negb_true_iff in Hc.
  destruct s; [exact Hc | now apply IH].
Qed.

(** [path.join] of a normal directory and a plain name. *)
Lemma join_normal_plain (dir name : string) :
  normal_path dir -> plain_segment name ->
  Path.join [dir; name] = path_join dir name
  /\ normal_path (path_join dir name).
Proof.
  intros Hdir Hname.
  destruct (normal_path_absolute _ Hdir) as [Habs Hne].
  destruct Hdir as (segments & Hsegments & ->).
  pose proof Hname as (Hn0 & Hn1 & Hn2 & Hn3).
  destruct (plain_not_special _ Hname) as [H1 H2].
  assert (Hnormalized :
    Path.normalizeString
      (JSON.join "/" ["/" +:+ JSON.join "/" segments; name]) false
    = JSON.join "/" (segments ++ [name])).
  { unfold Path.normalizeString. rewrite join_cons_cons.
    change (("/" +:+ JSON.join "/" segments) +:+ "/" +:+ JSON.join "/" [name])
      with (("/" +:+ JSON.join "/" segments) +:+ String "/" name).
    rewrite (normalize_after_normal _ _ _ Hsegments), (split_plain _ Hname).
    cbn [Path.normalize_segments]. rewrite H1, H2.
    cbn [List.rev]. now rewrite List.rev_involutive. }
  assert (Hpath : path_join ("/" +:+ JSON.join "/" segments) name
                  = "/" +:+ JSON.join "/" (segments ++ [name])).
  { unfold path_join. destruct segments as [| s segments]; [reflexivity |].
    replace (String.eqb ("/" +:+ JSON.join "/" (s :: segments)) "/")
      with false.
    - rewrite join_snoc by discriminate. now rewrite !append_assoc.
    - symmetry. apply String.eqb_neq. intros [= H].
      inversion Hsegments as [| ? ? (Hs & _) _]; subst.
      now apply (join_word_not_empty "/" s segments Hs). }
  split.
  - unfold Path.join. cbn [List.filter].
    replace (JS.truthy ("/" +:+ JSON.join "/" segments)) with true
      by reflexivity.
    replace (JS.truthy name) with true by (now destruct name).
    unfold Path.normalize.
    replace (String.eqb (JSON.join "/" ["/" +:+ JSON.join "/" segments; name])
               EmptyString) with false by reflexivity.
    replace (Path.isAbsolute
               (JSON.join "/" ["/" +:+ JSON.join "/" segments; name]))
      with true by reflexivity.
    cbn [negb]. rewrite Hnormalized.
    replace (Path.trailingSeparator
               (JSON.join "/" ["/" +:+ JSON.join "/" segments; name]))
      with false.
    2: { rewrite join_cons_cons. cbn [JSON.join].
         rewrite <- append_assoc.
         rewrite (trailingSeparator_append _ _ Hn0).
         symmetry. now apply trailingSeparator_plain. }
    rewrite Hpath.
    destruct (JSON.join "/" (segments ++ [name])) eqn:E; [| reflexivity].
    exfalso. destruct segments as [| s segments].
    + simpl in E. contradiction.
    + rewrite join_snoc in E by discriminate.
      inversion Hsegments as [| ? ? (Hs & _) _]; subst.
      apply (join_word_not_empty "/" s segments Hs).
      destruct (JSON.join "/" (s :: segments)); [reflexivity | discriminate].
  - rewrite Hpath. eexists. split; [| reflexivity].
    apply Forall_app. split; [exact Hsegments |].
    constructor; [exact Hname | constructor].
Qed.

End PathFacts.

(* ===================================================================== *)
(** * [config.ts]: where the download directory is                        *)
(* ===================================================================== *)

(** X14. The download directory is taken from the first of these that is
    set to text that is not empty: the option [--download-dir], the option
    [--downloadDir], the environment variable [MCP_DOWNLOAD_DIR]; it is
    that text, resolved against the working directory. An option or a
    variable that is missing, empty or otherwise falsy is passed over, and
    when nothing is left the directory is [.downloaded_files], resolved
    against the working directory. *)
Theorem downloadDir_priority :
  forall (p : Config.Process) (s : string),
    s <> EmptyString ->
    (Config.argv_download_dir p = Config.Text s ->
     Config.downloadDir p = Normal (Path.resolve (Config.cwd p) [s]))
    /\ (Config.truthy (Config.argv_download_dir p) = false ->
        Config.argv_downloadDir p = Config.Text s ->
        Config.downloadDir p = Normal (Path.resolve (Config.cwd p) [s]))
    /\ (Config.truthy (Config.argv_download_dir p) = false ->
        Config.truthy (Config.argv_downloadDir p) = false ->
        Config.env_MCP_DOWNLOAD_DIR p = Some s ->
        Config.downloadDir p = Normal (Path.resolve (Config.cwd p) [s]))
    /\ (Config.truthy (Config.argv_download_dir p) = false ->
        Config.truthy (Config.argv_downloadDir p) = false ->
        Config.env_MCP_DOWNLOAD_DIR p = None
        \/ Config.env_MCP_DOWNLOAD_DIR p = Some EmptyString ->
        Config.downloadDir p
        = Normal (Path.resolve (Config.cwd p)
                    [Config.cwd p; ".downloaded_files"])).
Proof.
  intros p s Hs.
  assert (Htruthy : JS.truthy s = true) by (now destruct s).
  unfold Config.downloadDir, Config.downloadDirSource.
  split; [| split; [| split]].
  - intros ->.
    do 3 (cbn [negb Config.truthy]; rewrite ?Htruthy).
    reflexivity.
  - intros -> ->.
    do 3 (cbn [negb Config.truthy]; rewrite ?Htruthy).
    reflexivity.
  - intros -> -> ->.
    do 3 (cbn [negb Config.truthy]; rewrite ?Htruthy).
    reflexivity.
  - intros -> -> [-> | ->]; reflexivity.
Qed.

Lemma downloadDir_priority_witness :
  Config.downloadDir
    (Config.mkProcess (Config.Text "/tmp/arg_downloads") Config.Undefined
       (Some "/tmp/env_downloads") "/home/user/project")
  = Normal "/tmp/arg_downloads".
Proof.
  destruct (downloadDir_priority
              (Config.mkProcess (Config.Text "/tmp/arg_downloads")
                 Config.Undefined (Some "/tmp/env_downloads")
                 "/home/user/project")
              "/tmp/arg_downloads") as [H _]; [discriminate |].
  apply H. reflexivity.
Defined.

(** X15. In a process whose working directory is a normal absolute path:
    with nothing configured the download directory is
    [<cwd>/.downloaded_files]; a configured normal absolute path is taken
    as it is; a configured plain name, with or without [./] before it, is
    the directory of that name in the working directory. *)
Theorem downloadDir_locations :
  forall (p : Config.Process),
    normal_path (Config.cwd p) ->
    (Config.truthy (Config.downloadDirSource p) = false ->
     Config.downloadDir p
     = Normal (path_join (Config.cwd p) ".downloaded_files"))
    /\ (forall s,
          Config.downloadDirSource p = Config.Text s ->
          normal_path s ->
          Config.downloadDir p = Normal s)
    /\ (forall name,
          Config.downloadDirSource p = Config.Text name
          \/ Config.downloadDirSource p = Config.Text ("./" +:+ name) ->
          plain_segment name ->
          Config.downloadDir p = Normal (path_join (Config.cwd p) name)).
Proof.
  intros p Hcwd.
  assert (Hdefault : Path.resolve (Config.cwd p)
                       [Config.cwd p; ".downloaded_files"]
                     = path_join (Config.cwd p) ".downloaded_files").
  { apply (resolve_plain_name (Config.cwd p) ".downloaded_files" Hcwd).
    repeat split; discriminate. }
  unfold Config.downloadDir. split; [| split].
  - destruct (Config.downloadDirSource p) as [| s | [|] rejection];
      cbn [Config.truthy]; intros H; try discriminate H;
      rewrite ?H, Hdefault; reflexivity.
  - intros s -> Hs.
    destruct (normal_path_absolute _ Hs) as [_ Hne].
    replace (JS.truthy s) with true by (now destruct s).
    f_equal. exact (resolve_normal (Config.cwd p) [] s Hs).
  - intros name [-> | ->] Hname.
    + replace (JS.truthy name) with true
        by (destruct Hname as [Hne _]; now destruct name).
      f_equal. apply (resolve_plain_name _ _ Hcwd Hname).
    + change (JS.truthy ("./" +:+ name)) with true. cbn iota.
      f_equal. apply (resolve_plain_name _ _ Hcwd Hname).
Qed.

Lemma downloadDir_locations_witness :
  Config.downloadDir
    (Config.mkProcess Config.Undefined Config.Undefined
       (Some "./custom_downloads") "/home/user/project")
  = Normal "/home/user/project/custom_downloads".
Proof.
  assert (Hplain : forall s,
            s <> EmptyString -> s <> "." -> s <> ".." ->
            all_chars (fun c => negb (Ascii.eqb c "/")) s = true ->
            plain_segment s) by (intros s; repeat split; assumption).
  destruct (downloadDir_locations
              (Config.mkProcess Config.Undefined Config.Undefined
                 (Some "./custom_downloads") "/home/user/project"))
    as (_ & _ & H).
  - exists ["home"; "user"; "project"]. split; [| reflexivity].
    repeat constructor; discriminate.
  - apply (H "custom_downloads"); [right; reflexivity |].
    apply Hplain; [discriminate | discriminate | discriminate | reflexivity].
Defined.

Lemma downloadDir_normal_form (p : Config.Process) (dir : string) :
  Path.isAbsolute (Config.cwd p) = true ->
  Config.downloadDir p = Normal dir ->
  normal_path dir.
Proof.
  intros Hcwd. unfold Config.downloadDir.
  destruct (Config.downloadDirSource p) as [| s | [|] rejection];
    [| destruct (JS.truthy s) | |]; try discriminate;
    intros [= <-]; now apply resolve_normal_form.
Qed.

(** X16. In a process with an absolute working directory, the download
    directory that [config.ts] exports is a normal absolute path: the root,
    or a separator before each of its segments, none of which is empty,
    [.] or [..]. Resolving it again gives it back. *)
Theorem downloadDir_is_normal :
  forall (p : Config.Process) (dir : string),
    Path.isAbsolute (Config.cwd p) = true ->
    Config.downloadDir p = Normal dir ->
    normal_path dir
    /\ Path.isAbsolute dir = true
    /\ Path.resolve (Config.cwd p) [dir] = dir.
Proof.
  intros p dir Hcwd Hdir.
  pose proof (downloadDir_normal_form p dir Hcwd Hdir) as Hnormal.
  split; [exact Hnormal |]. split.
  - apply (normal_path_absolute _ Hnormal).
  - exact (resolve_normal (Config.cwd p) [] dir Hnormal).
Qed.

Lemma downloadDir_is_normal_witness :
  normal_path "/srv/downloads"
  /\ Path.isAbsolute "/srv/downloads" = true
  /\ Path.resolve "/srv" ["/srv/downloads"] = "/srv/downloads".
Proof.
  apply (downloadDir_is_normal
           (Config.mkProcess Config.Undefined
              (Config.Text "cache/../downloads//") None "/srv")).
  - reflexivity.
  - reflexivity.
Defined.



(* ===================================================================== *)
(** * Where the file lands                                                *)
(* ===================================================================== *)

Section Landing.

Lemma generated_name_plain (P : Platform) url k name :
  four_digit_year (Date_now P) ->
  Fetcher.generateUniqueFilename P url (extension_of k) = Normal name ->
  plain_segment name.
Proof.
  intros Hyear Hname.
  destruct (generated_name_shape P url k name Hyear Hname)
    as [Hchars Hlen].
  repeat split.
  - intros ->. simpl in Hlen. lia.
  - intros ->. simpl in Hlen. lia.
  - intros ->. simpl in Hlen. lia.
  - exact (all_chars_weaken _ _ _ name_char_not_separator Hchars).
Qed.

End Landing.

(** X18. The path of the saved file is a direct child of the download
    directory. When the download directory is the one [config.ts] resolved
    in a process with an absolute working directory, and the clock shows a
    four-digit year, [path.join] of that directory and a generated name is
    the directory, one separator and the name, unchanged: nothing in a URL
    can move the file elsewhere. The path is again normal. *)
Theorem saved_file_is_a_child_of_the_download_directory :
  forall (p : Config.Process) (P : Platform) (url : string)
         (k : OutputFormat) (name : string),
    Path.isAbsolute (Config.cwd p) = true ->
    Config.downloadDir p = Normal (downloadDir P) ->
    four_digit_year (Date_now P) ->
    Fetcher.generateUniqueFilename P url (extension_of k) = Normal name ->
    Path.join [downloadDir P; name] = path_join (downloadDir P) name
    /\ normal_path (path_join (downloadDir P) name)
    /\ plain_segment name.
Proof.
  intros p P url k name Hcwd Hdir Hyear Hname.
  pose proof (downloadDir_normal_form p _ Hcwd Hdir) as Hnormal.
  pose proof (generated_name_plain P url k name Hyear Hname) as Hplain.
  destruct (join_normal_plain _ _ Hnormal Hplain) as [Hjoin Hpath].
  split; [exact Hjoin | split; [exact Hpath | exact Hplain]].
Qed.

Lemma saved_file_is_a_child_of_the_download_directory_witness :
  Path.join ["/mock/.downloaded_files"; "20231027T103000Z-a1b2c3d4-page.html"]
  = "/mock/.downloaded_files/20231027T103000Z-a1b2c3d4-page.html".
Proof.
  destruct (saved_file_is_a_child_of_the_download_directory
              (Config.mkProcess Config.Undefined Config.Undefined
                 (Some "/mock/.downloaded_files") "/work")
              Demo.platform "https://example.com/path/to/page" Html
              "20231027T103000Z-a1b2c3d4-page.html") as [H _].
  - reflexivity.
  - reflexivity.
  - unfold four_digit_year. simpl. lia.
  - reflexivity.
  - exact H.
Defined.

(* ===================================================================== *)
(** * [parseVideoId]                                                      *)
(* ===================================================================== *)

Section VideoIds.
Variable URL_new : string -> completion YouTube.Location.

Lemma youtube_host_is_not_short (host : string) :
  YouTube.endsWith "youtube.com" host = true ->
  String.eqb host "youtu.be" = false.
Proof.
  intros H. destruct (String.eqb_spec host "youtu.be") as [-> | _];
    [discriminate H | reflexivity].
Qed.

(** What [recognise] returns, branch by branch. *)
Lemma recognise_watch (u : YouTube.Location) :
  YouTube.endsWith "youtube.com" (hostname (YouTube.address u)) = true ->
  pathname (YouTube.address u) = "/watch"
  \/ pathname (YouTube.address u) = "/embed/"
  \/ pathname (YouTube.address u) = "/shorts/" ->
  YouTube.recognise u
  = match YouTube.get "v" (YouTube.searchParams u) with
    | Some vid =>
        if YouTube.is_video_id vid then Normal vid
        else Throw (ErrorObj "Not a recognized YouTube video URL")
    | None => Throw (ErrorObj "Not a recognized YouTube video URL")
    end.
Proof.
  intros Hhost Hpath. unfold YouTube.recognise, YouTube.has. rewrite Hhost.
  destruct Hpath as [-> | [-> | ->]]; cbn [String.eqb Ascii.eqb Bool.eqb andb orb];
    (destruct (YouTube.get "v" (YouTube.searchParams u)) as [vid |];
     [destruct (YouTube.is_video_id vid) |]; reflexivity).
Qed.

Lemma recognise_short (u : YouTube.Location) :
  hostname (YouTube.address u) = "youtu.be" ->
  YouTube.recognise u
  = if YouTube.is_video_id
         (YouTube.strip_leading_slash (pathname (YouTube.address u)))
    then Normal (YouTube.strip_leading_slash (pathname (YouTube.address u)))
    else Throw (ErrorObj "Not a recognized YouTube video URL").
Proof. intros Hhost. unfold YouTube.recognise. now rewrite Hhost. Qed.

Lemma recognise_other (u : YouTube.Location) :
  YouTube.endsWith "youtube.com" (hostname (YouTube.address u))
  && (String.eqb (pathname (YouTube.address u)) "/watch"
      || String.eqb (pathname (YouTube.address u)) "/embed/"
      || String.eqb (pathname (YouTube.address u)) "/shorts/") = false ->
  String.eqb (hostname (YouTube.address u)) "youtu.be" = false ->
  YouTube.recognise u = Throw (ErrorObj "Not a recognized YouTube video URL").
Proof. intros H1 H2. unfold YouTube.recognise. now rewrite H1, H2. Qed.

End VideoIds.

Example parseVideoId_on_common_addresses :
  YouTube.parseVideoId YouTube.parse_location
    "https://www.youtube.com/watch?v=dQw4w9WgXcQ" = Normal "dQw4w9WgXcQ"
  /\ YouTube.parseVideoId YouTube.parse_location
       "https://youtu.be/dQw4w9WgXcQ" = Normal "dQw4w9WgXcQ"
  /\ YouTube.parseVideoId YouTube.parse_location
       "https://www.youtube.com/embed/dQw4w9WgXcQ"
     = Throw (ErrorObj "Invalid YouTube URL")
  /\ YouTube.parseVideoId YouTube.parse_location
       "https://www.youtube.com/watch?v=short"
     = Throw (ErrorObj "Invalid YouTube URL")
  /\ YouTube.parseVideoId YouTube.parse_location "not a url"
     = Throw (ErrorObj "Invalid YouTube URL").
Proof. repeat split; reflexivity. Qed.

(** X19. [parseVideoId] returns an identifier exactly in two cases, and
    the identifier is then eleven code units from [A-Za-z0-9_-]: the host
    name of the parsed URL ends in [youtube.com], its path is [/watch],
    [/embed/] or [/shorts/], and the identifier is the first [v] parameter
    of the query; or the host name is [youtu.be] and the identifier is the
    path without its leading separator. *)
Theorem parseVideoId_accepts :
  forall (URL_new : string -> completion YouTube.Location) (url id : string),
    YouTube.parseVideoId URL_new url = Normal id
    <-> exists u,
        URL_new url = Normal u
        /\ YouTube.is_video_id id = true
        /\ ((YouTube.endsWith "youtube.com" (hostname (YouTube.address u)) = true
             /\ (pathname (YouTube.address u) = "/watch"
                 \/ pathname (YouTube.address u) = "/embed/"
                 \/ pathname (YouTube.address u) = "/shorts/")
             /\ YouTube.get "v" (YouTube.searchParams u) = Some id)
            \/ (hostname (YouTube.address u) = "youtu.be"
                /\ YouTube.strip_leading_slash (pathname (YouTube.address u))
                   = id)).
Proof.
  intros URL_new url id. unfold YouTube.parseVideoId. split.
  - destruct (URL_new url) as [u | e]; [| discriminate].
    intros H. exists u. split; [reflexivity |].
    destruct (YouTube.endsWith "youtube.com" (hostname (YouTube.address u))
              && (String.eqb (pathname (YouTube.address u)) "/watch"
                  || String.eqb (pathname (YouTube.address u)) "/embed/"
                  || String.eqb (pathname (YouTube.address u)) "/shorts/"))
      eqn:Hfirst.
    + apply andb_true_iff in Hfirst as [Hhost Hpath].
      assert (Hpath' : pathname (YouTube.address u) = "/watch"
                       \/ pathname (YouTube.address u) = "/embed/"
                       \/ pathname (YouTube.address u) = "/shorts/").
      { apply orb_true_iff in Hpath as [Hpath | Hpath];
          [apply orb_true_iff in Hpath as [Hpath | Hpath] |];
          apply String.eqb_eq in Hpath; auto. }
      rewrite (recognise_watch u Hhost Hpath') in H.
      destruct (YouTube.get "v" (YouTube.searchParams u)) as [vid |];
        [| discriminate].
      destruct (YouTube.is_video_id vid) eqn:Hid; [| discriminate].
      injection H as <-. split; [exact Hid |]. left. now repeat split.
    + destruct (String.eqb_spec (hostname (YouTube.address u)) "youtu.be")
        as [Hhost | Hhost].
      * rewrite (recognise_short u Hhost) in H.
        destruct (YouTube.is_video_id
                    (YouTube.strip_leading_slash (pathname (YouTube.address u))))
          eqn:Hid; [| discriminate].
        injection H as <-. split; [exact Hid |]. right. now split.
      * rewrite (recognise_other u Hfirst) in H; [discriminate |].
        now apply String.eqb_neq.
  - intros (u & -> & Hid & [(Hhost & Hpath & Hv) | (Hhost & Hpath)]).
    + rewrite (recognise_watch u Hhost Hpath), Hv, Hid. reflexivity.
    + rewrite (recognise_short u Hhost), Hpath, Hid. reflexivity.
Qed.

(** X20. Whatever goes wrong, [parseVideoId] throws an [Error] with the
    message "Invalid YouTube URL": the message of [new URL] and the
    message "Not a recognized YouTube video URL" never get out. The
    addresses [/embed/<id>] and [/shorts/<id>] on a host that ends in
    [youtube.com] are among those it rejects, since the path has to be
    [/embed/] or [/shorts/] exactly. *)
Theorem parseVideoId_rejects :
  forall (URL_new : string -> completion YouTube.Location) (url : string),
    (forall e,
        YouTube.parseVideoId URL_new url = Throw e ->
        e = ErrorObj "Invalid YouTube URL")
    /\ (forall u id,
          URL_new url = Normal u ->
          YouTube.endsWith "youtube.com" (hostname (YouTube.address u)) = true ->
          id <> EmptyString ->
          pathname (YouTube.address u) = "/embed/" +:+ id
          \/ pathname (YouTube.address u) = "/shorts/" +:+ id ->
          YouTube.parseVideoId URL_new url
          = Throw (ErrorObj "Invalid YouTube URL")).
Proof.
  intros URL_new url. unfold YouTube.parseVideoId. split.
  - intros e.
    destruct (URL_new url) as [u | e']; [| now intros [= <-]].
    destruct (YouTube.recognise u); [discriminate | now intros [= <-]].
  - intros u id -> Hhost Hid Hpath.
    rewrite recognise_other; [reflexivity | |].
    + apply andb_false_iff. right.
      destruct id as [|c id]; [contradiction |].
      destruct Hpath as [-> | ->]; reflexivity.
    + now apply youtube_host_is_not_short.
Qed.

(* ===================================================================== *)
(** * The later [config.ts]                                               *)
(* ===================================================================== *)

Section ParentAndName.

Lemma list_of_append (a b : string) :
  list_ascii_of_string (a +:+ b)
  = (list_ascii_of_string a ++ list_ascii_of_string b)%list.
Proof. induction a as [|c a IH]; simpl; [reflexivity | now rewrite IH]. Qed.

Lemma all_chars_Forall (p : ascii -> bool) (s : string) :
  all_chars p s = true ->
  Forall (fun c => p c = true) (list_ascii_of_string s).
Proof.
  induction s as [|c s IH]; simpl; [constructor |].
  intros H. apply andb_true_iff in H as [Hc Hs]. constructor; auto.
Qed.

Lemma skip_all (p : ascii -> bool) (l rest : list ascii) :
  Forall (fun c => p c = true) l ->
  Path.skip p (l ++ rest) = Path.skip p rest.
Proof.
  induction 1 as [| c l Hc _ IH]; [reflexivity |].
  simpl. now rewrite Hc.
Qed.

Lemma take_all (p : ascii -> bool) (l rest : list ascii) :
  Forall (fun c => p c = true) l ->
  Path.take p (l ++ rest) = (l ++ Path.take p rest)%list.
Proof.
  induction 1 as [| c l Hc _ IH]; [reflexivity |].
  simpl. now rewrite Hc, IH.
Qed.

(** The code units of a plain segment from its end: no separator, and at
    least one code unit. *)
Lemma plain_from_end (name : string) :
  plain_segment name ->
  Forall (fun c => negb (Path.is_separator c) = true)
    (List.rev (list_ascii_of_string name))
  /\ forall rest,
       Path.skip Path.is_separator
         (List.rev (list_ascii_of_string name) ++ rest)
       = (List.rev (list_ascii_of_string name) ++ rest)%list.
Proof.
  intros (Hne & _ & _ & Hchars).
  assert (H : Forall (fun c => negb (Path.is_separator c) = true)
                (List.rev (list_ascii_of_string name)))
    by (apply Forall_rev; exact (all_chars_Forall _ _ Hchars)).
  split; [exact H |]. intros rest.
  destruct (List.rev (list_ascii_of_string name)) as [| c l] eqn:E.
  - exfalso. apply (f_equal (@List.rev ascii)) in E.
    rewrite List.rev_involutive in E. destruct name; [contradiction | discriminate].
  - inversion H as [| ? ? Hc _]; subst. simpl.
    apply negb_true_iff in Hc. now rewrite Hc.
Qed.

Lemma basename_after_separator (before name : string) :
  plain_segment name ->
  Path.basename (before +:+ String "/" name) = name.
Proof.
  intros Hname. destruct (plain_from_end _ Hname) as [Hall Hskip].
  unfold Path.basename. rewrite list_of_append. cbn [list_ascii_of_string].
  rewrite List.rev_app_distr. cbn [List.rev]. rewrite <- List.app_assoc.
  rewrite Hskip, (take_all _ _ _ Hall).
  cbn [List.app Path.take Path.is_separator Ascii.eqb Bool.eqb negb].
  rewrite List.app_nil_r, List.rev_involutive.
  apply string_of_list_ascii_of_string.
Qed.

Lemma path_join_cases (parent name : string) :
  normal_path parent ->
  (parent = "/" /\ path_join parent name = String "/" name)
  \/ (exists inner,
        inner <> EmptyString
        /\ parent = String "/" inner
        /\ path_join parent name = String "/" (inner +:+ String "/" name)).
Proof.
  intros (segments & Hsegments & ->). unfold path_join.
  destruct segments as [| s segments]; [left; now split |].
  right. exists (JSON.join "/" (s :: segments)).
  inversion Hsegments as [| ? ? (Hs & _) _]; subst.
  pose proof (join_word_not_empty "/" s segments Hs) as Hne.
  split; [exact Hne |]. split; [reflexivity |].
  replace (String.eqb ("/" +:+ JSON.join "/" (s :: segments)) "/") with false.
  - change ("/" +:+ JSON.join "/" (s :: segments))
      with (String "/" (JSON.join "/" (s :: segments))).
    cbn [String.append]. reflexivity.
  - symmetry. apply String.eqb_neq. intros [= H]. contradiction.
Qed.

Lemma basename_child (parent name : string) :
  normal_path parent -> plain_segment name ->
  Path.basename (path_join parent name) = name.
Proof.
  intros Hparent Hname.
  destruct (path_join_cases parent name Hparent)
    as [[_ ->] | (inner & _ & _ & ->)].
  - exact (basename_after_separator EmptyString name Hname).
  - exact (basename_after_separator (String "/" inner) name Hname).
Qed.

Lemma dirname_child (parent name : string) :
  normal_path parent -> plain_segment name ->
  Path.dirname (path_join parent name) = parent.
Proof.
  intros Hparent Hname. destruct (plain_from_end _ Hname) as [Hall Hskip].
  destruct (path_join_cases parent name Hparent)
    as [[-> ->] | (inner & Hinner & -> & ->)].
  - unfold Path.dirname.
    rewrite <- (List.app_nil_r (List.rev (list_ascii_of_string name))).
    rewrite Hskip, (skip_all _ _ _ Hall). reflexivity.
  - unfold Path.dirname. rewrite list_of_append. cbn [list_ascii_of_string].
    rewrite List.rev_app_distr. cbn [List.rev]. rewrite <- List.app_assoc.
    rewrite Hskip, (skip_all _ _ _ Hall).
    cbn [List.app Path.skip Path.is_separator Ascii.eqb Bool.eqb negb].
    destruct (List.rev (list_ascii_of_string inner)) as [| c l] eqn:E.
    + exfalso. apply (f_equal (@List.rev ascii)) in E.
      rewrite List.rev_involutive in E.
      destruct inner; [contradiction | discriminate].
    + rewrite <- E, List.rev_involutive.
      now rewrite string_of_list_ascii_of_string.
Qed.

(** Searching a path for a separator. *)
Lemma includes_separator_plain (name : string) :
  all_chars (fun c => negb (Ascii.eqb c "/")) name = true ->
  JS.includes "/" name = false.
Proof.
  induction name as [|c name IH]; [reflexivity |].
  cbn [JS.includes JS.startsWith all_chars].
  intros H. apply andb_true_iff in H as [Hc Hn].
  apply negb_true_iff in Hc. rewrite Ascii.eqb_sym in Hc.
  now rewrite Hc, (IH Hn).
Qed.

(** [path.join] never returns the empty string. *)
Lemma normalize_not_empty (path : string) : Path.normalize path <> EmptyString.
Proof.
  unfold Path.normalize.
  destruct (String.eqb path EmptyString); [discriminate |].
  destruct (String.eqb_spec (Path.normalizeString path
                               (negb (Path.isAbsolute path))) EmptyString)
    as [_ | Hne].
  - destruct (Path.isAbsolute path); [discriminate |].
    destruct (Path.trailingSeparator path); discriminate.
  - destruct (Path.isAbsolute path); [discriminate |].
    destruct (Path.trailingSeparator path); [| exact Hne].
    destruct (Path.normalizeString path (negb false)); [contradiction |].
    discriminate.
Qed.

Lemma join_truthy (paths : list string) : JS.truthy (Path.join paths) = true.
Proof.
  assert (H : Path.join paths <> EmptyString).
  { unfold Path.join. destruct (List.filter JS.truthy paths);
      [discriminate | apply normalize_not_empty]. }
  now destruct (Path.join paths).
Qed.

End ParentAndName.

Section SafeConfigFacts.
Variable h : SafeConfig.Host.

(** Under the home directory the fallback is the path itself. *)
Lemma createSafePath_home (dirName : string) :
  SafeConfig.createSafePath h (SafeConfig.homedir h) dirName
  = Path.join [SafeConfig.homedir h; dirName].
Proof.
  unfold SafeConfig.createSafePath.
  destruct (negb (SafeConfig.existsSync h _)); [reflexivity |].
  destruct (negb (SafeConfig.writable h _)); reflexivity.
Qed.

Lemma createSafePath_truthy (basePath dirName : string) :
  JS.truthy (SafeConfig.createSafePath h basePath dirName) = true.
Proof.
  unfold SafeConfig.createSafePath.
  destruct (negb (SafeConfig.existsSync h _)); [apply join_truthy |].
  destruct (negb (SafeConfig.writable h _)); apply join_truthy.
Qed.

(** The directory of a child of a normal parent: kept when the parent
    exists and can be written, moved under the home directory
    otherwise. *)
Lemma createSafePath_child (parent name : string) :
  normal_path parent -> plain_segment name ->
  SafeConfig.createSafePath h parent name
  = if SafeConfig.existsSync h parent && SafeConfig.writable h parent
    then path_join parent name
    else Path.join [SafeConfig.homedir h; name].
Proof.
  intros Hparent Hname. unfold SafeConfig.createSafePath.
  destruct (join_normal_plain _ _ Hparent Hname) as [-> _].
  rewrite (dirname_child _ _ Hparent Hname).
  destruct (SafeConfig.existsSync h parent); [| reflexivity].
  destruct (SafeConfig.writable h parent); reflexivity.
Qed.

(** The exported constant in terms of [normalizePath]. *)
Lemma downloadDir_of_source :
  SafeConfig.downloadDir h
  = if Config.truthy (SafeConfig.downloadDirSource h)
    then match SafeConfig.normalizePath h (SafeConfig.downloadDirSource h) with
         | Normal resolvedPath =>
             if JS.truthy resolvedPath then resolvedPath
             else Path.join [SafeConfig.homedir h; "fetch_downloads"]
         | Throw _ => Path.join [SafeConfig.homedir h; "fetch_downloads"]
         end
    else Path.join [SafeConfig.homedir h; "fetch_downloads"].
Proof.
  unfold SafeConfig.downloadDir. rewrite !createSafePath_home.
  destruct (Config.truthy (SafeConfig.downloadDirSource h)).
  - destruct (SafeConfig.normalizePath h (SafeConfig.downloadDirSource h))
      as [resolvedPath | e].
    + now destruct (JS.truthy resolvedPath).
    + now rewrite join_truthy.
  - now rewrite join_truthy.
Qed.

Lemma isMcpEnvironment_cases :
  SafeConfig.isMcpEnvironment h
  = SafeConfig.env_set (SafeConfig.env_MCP_HOST h)
    || SafeConfig.env_is (SafeConfig.env_NODE_ENV h) "mcp"
    || String.eqb (SafeConfig.cwd h) "/"
    || SafeConfig.env_is (SafeConfig.env_MCP_DOWNLOAD_DIR h) "/fetch_downloads".
Proof.
  unfold SafeConfig.isMcpEnvironment. cbn [List.existsb].
  destruct (SafeConfig.env_set (SafeConfig.env_MCP_HOST h));
    [reflexivity |].
  destruct (SafeConfig.env_is (SafeConfig.env_NODE_ENV h) "mcp");
    [reflexivity |].
  destruct (String.eqb (SafeConfig.cwd h) "/"); [reflexivity |].
  destruct (SafeConfig.env_is (SafeConfig.env_MCP_DOWNLOAD_DIR h)
              "/fetch_downloads"); [reflexivity |].
  cbn [orb andb]. now rewrite andb_false_r.
Qed.

(** [normalizePath] on a plain name, given as it is or after [./]. *)
Lemma normalizePath_relative (inputPath name : string) :
  plain_segment name ->
  inputPath = "./" +:+ name
  \/ (inputPath = name /\ JS.includes "\" name = false) ->
  SafeConfig.normalizePath h (Config.Text inputPath)
  = if SafeConfig.isMcpEnvironment h
    then Normal (Path.join [SafeConfig.homedir h; name])
    else Normal (SafeConfig.createSafePath h
                   (Path.dirname
                      (Path.resolve (SafeConfig.cwd h)
                         [SafeConfig.cwd h; "./" +:+ name]))
                   (Path.basename
                      (Path.resolve (SafeConfig.cwd h)
                         [SafeConfig.cwd h; "./" +:+ name]))).
Proof.
  intros Hname Hinput.
  pose proof Hname as (Hne & Hdot & Hdots & Hchars).
  assert (Htruthy : JS.truthy name = true) by (now destruct name).
  assert (Hbase : Path.basename ("./" +:+ name) = name)
    by (exact (basename_after_separator "." name Hname)).
  assert (Hmcp : SafeConfig.isMcpEnvironment h = false ->
                 String.eqb (SafeConfig.cwd h) "/" = false).
  { rewrite isMcpEnvironment_cases. intros H.
    apply orb_false_iff in H as [H _]. now apply orb_false_iff in H as [_ H]. }
  unfold SafeConfig.normalizePath, SafeConfig.IS_MCP.
  destruct Hinput as [-> | [-> Hback]].
  - change (JS.truthy ("./" +:+ name)) with true.
    change (String.eqb ("./" +:+ name) "/fetch_downloads") with false.
    change (JS.includes "/" ("./" +:+ name)) with true.
    cbn [negb andb].
    change (JS.startsWith "./" ("./" +:+ name)) with true.
    change (Path.isAbsolute ("./" +:+ name)) with false.
    cbn [orb SafeConfig.given]. rewrite Hbase.
    destruct (SafeConfig.isMcpEnvironment h) eqn:E; cbn [andb].
    + replace (String.eqb name ".") with false
        by (symmetry; now apply String.eqb_neq).
      cbn [negb]. now rewrite createSafePath_home.
    + now rewrite (Hmcp eq_refl).
  - rewrite Htruthy, (includes_separator_plain _ Hchars), Hback.
    cbn [negb andb].
    replace (String.eqb name "/fetch_downloads") with false.
    2: { symmetry. apply String.eqb_neq. intros ->. discriminate Hchars. }
    change (JS.startsWith "./" ("./" +:+ name)) with true.
    change (Path.isAbsolute ("./" +:+ name)) with false.
    cbn [orb SafeConfig.given]. rewrite Htruthy.
    destruct (SafeConfig.isMcpEnvironment h) eqn:E; cbn [andb orb].
    + now rewrite createSafePath_home.
    + now rewrite (Hmcp eq_refl).
Qed.

(** [normalizePath] on a child of a normal absolute path. *)
Lemma normalizePath_absolute (parent name : string) :
  normal_path parent -> plain_segment name ->
  path_join parent name <> "/fetch_downloads" ->
  SafeConfig.normalizePath h (Config.Text (path_join parent name))
  = Normal (SafeConfig.createSafePath h parent name).
Proof.
  intros Hparent Hname Hnot.
  pose proof (dirname_child _ _ Hparent Hname) as Hdir.
  pose proof (basename_child _ _ Hparent Hname) as Hbase.
  assert (Hshape : JS.truthy (path_join parent name) = true
                   /\ JS.includes "/" (path_join parent name) = true
                   /\ JS.startsWith "./" (path_join parent name) = false
                   /\ JS.startsWith "../" (path_join parent name) = false
                   /\ Path.isAbsolute (path_join parent name) = true).
  { destruct (path_join_cases parent name Hparent)
      as [[_ ->] | (inner & _ & _ & ->)]; repeat split. }
  destruct Hshape as (Htruthy & Hincludes & Hdot & Hdots & Habs).
  unfold SafeConfig.normalizePath.
  rewrite Htruthy, Hincludes.
  replace (String.eqb (path_join parent name) "/fetch_downloads") with false
    by (symmetry; now apply String.eqb_neq).
  cbn [negb andb]. rewrite Hdot, Hdots, Habs, Hdir, Hbase.
  cbn [orb]. now rewrite andb_false_r.
Qed.

End SafeConfigFacts.

(** The cases of [config.unit.test.ts], replayed on the host
    [SafeConfig.desktop]. *)
Example config_tests_replayed :
  SafeConfig.downloadDir (SafeConfig.desktop None None)
  = "/home/user/fetch_downloads"
  /\ SafeConfig.downloadDir
       (SafeConfig.desktop None (Some "/tmp/custom_downloads"))
     = "/tmp/custom_downloads"
  /\ SafeConfig.downloadDir
       (SafeConfig.desktop None (Some "./custom_downloads"))
     = Path.resolve "/home/user/project" ["./custom_downloads"]
  /\ SafeConfig.downloadDir
       (SafeConfig.desktop (Some "true") (Some "./mcp_custom_downloads"))
     = "/home/user/mcp_custom_downloads"
  /\ SafeConfig.downloadDir
       (SafeConfig.desktop (Some "true") (Some "/fetch_downloads"))
     = "/home/user/fetch_downloads".
Proof. repeat split; reflexivity. Qed.

(** X21. [isMcpEnvironment] answers yes exactly when [MCP_HOST] is set and
    not empty, or [NODE_ENV] is [mcp], or the working directory is the
    root, or [MCP_DOWNLOAD_DIR] is [/fetch_downloads]. The fifth signal
    and the probe of the root directory never change the answer: the file
    system has no part in it. *)
Theorem isMcpEnvironment_signals :
  forall (h : SafeConfig.Host),
    SafeConfig.isMcpEnvironment h
    = SafeConfig.env_set (SafeConfig.env_MCP_HOST h)
      || SafeConfig.env_is (SafeConfig.env_NODE_ENV h) "mcp"
      || String.eqb (SafeConfig.cwd h) "/"
      || SafeConfig.env_is (SafeConfig.env_MCP_DOWNLOAD_DIR h)
           "/fetch_downloads".
Proof. intros h. apply isMcpEnvironment_cases. Qed.

(** X22. The later [config.ts] puts the download directory under the home
    directory, whatever the file system says, in these cases: nothing is
    configured, or the setting is [/fetch_downloads], or the option holds
    [true] or a number other than zero (then it is
    [<home>/fetch_downloads]); and, in an MCP environment, for a plain
    name, given after [./] or, when it has no backslash, as it is (then it
    is [<home>/<name>]). *)
Theorem downloadDir_under_home :
  forall (h : SafeConfig.Host),
    (Config.truthy (SafeConfig.downloadDirSource h) = false ->
     SafeConfig.downloadDir h
     = Path.join [SafeConfig.homedir h; "fetch_downloads"])
    /\ (SafeConfig.downloadDirSource h = Config.Text "/fetch_downloads" ->
        SafeConfig.downloadDir h
        = Path.join [SafeConfig.homedir h; "fetch_downloads"])
    /\ (forall received,
          SafeConfig.downloadDirSource h = Config.Other true received ->
          SafeConfig.downloadDir h
          = Path.join [SafeConfig.homedir h; "fetch_downloads"])
    /\ (forall name,
          SafeConfig.isMcpEnvironment h = true ->
          plain_segment name ->
          SafeConfig.downloadDirSource h = Config.Text ("./" +:+ name)
          \/ (SafeConfig.downloadDirSource h = Config.Text name
              /\ JS.includes "\" name = false) ->
          SafeConfig.downloadDir h = Path.join [SafeConfig.homedir h; name]).
Proof.
  intros h. rewrite downloadDir_of_source.
  split; [| split; [| split]].
  - now intros ->.
  - intros ->. cbn [Config.truthy JS.truthy SafeConfig.normalizePath negb].
    cbn [String.eqb Ascii.eqb Bool.eqb].
    now rewrite createSafePath_home, join_truthy.
  - intros received ->. reflexivity.
  - intros name Hmcp Hname Hsource.
    assert (Hinput : exists inputPath,
               SafeConfig.downloadDirSource h = Config.Text inputPath
               /\ JS.truthy inputPath = true
               /\ (inputPath = "./" +:+ name
                   \/ (inputPath = name /\ JS.includes "\" name = false))).
    { destruct Hsource as [H | [H Hback]].
      - exists ("./" +:+ name). split; [exact H |]. split; [reflexivity |].
        now left.
      - exists name. split; [exact H |]. split.
        + destruct Hname as [Hne _]. now destruct name.
        + right. now split. }
    destruct Hinput as (inputPath & -> & Htruthy & Hinput).
    cbn [Config.truthy]. rewrite Htruthy.
    rewrite (normalizePath_relative h inputPath name Hname Hinput), Hmcp.
    now rewrite join_truthy.
Qed.

(** X23. A configured absolute path [<parent>/<name>] in normal form, other
    than [/fetch_downloads], is the download directory when its parent
    exists and can be written; otherwise the download directory is
    [<home>/<name>]. *)
Theorem downloadDir_absolute_setting :
  forall (h : SafeConfig.Host) (parent name : string),
    normal_path parent ->
    plain_segment name ->
    path_join parent name <> "/fetch_downloads" ->
    SafeConfig.downloadDirSource h = Config.Text (path_join parent name) ->
    SafeConfig.downloadDir h
    = if SafeConfig.existsSync h parent && SafeConfig.writable h parent
      then path_join parent name
      else Path.join [SafeConfig.homedir h; name].
Proof.
  intros h parent name Hparent Hname Hnot Hsource.
  rewrite downloadDir_of_source, Hsource.
  rewrite (normalizePath_absolute h _ _ Hparent Hname Hnot).
  rewrite createSafePath_truthy.
  replace (Config.truthy (Config.Text (path_join parent name))) with true.
  - apply (createSafePath_child h _ _ Hparent Hname).
  - destruct (path_join_cases parent name Hparent)
      as [[_ ->] | (inner & _ & _ & ->)]; reflexivity.
Qed.

Lemma downloadDir_absolute_setting_witness :
  SafeConfig.downloadDir
    (SafeConfig.desktop None (Some "/tmp/custom_downloads"))
  = "/tmp/custom_downloads".
Proof.
  assert (Hplain : forall s,
            s <> EmptyString -> s <> "." -> s <> ".." ->
            all_chars (fun c => negb (Ascii.eqb c "/")) s = true ->
            plain_segment s) by (intros s; repeat split; assumption).
  apply (downloadDir_absolute_setting
           (SafeConfig.desktop None (Some "/tmp/custom_downloads"))
           "/tmp" "custom_downloads").
  - exists ["tmp"]. split; [| reflexivity].
    constructor; [| constructor].
    apply Hplain; [discriminate | discriminate | discriminate | reflexivity].
  - apply Hplain; [discriminate | discriminate | discriminate | reflexivity].
  - discriminate.
  - reflexivity.
Defined.

(** X24. Outside an MCP environment, with a working directory in normal
    form, a configured plain name, given after [./] or, when it has no
    backslash, as it is, stands for [<cwd>/<name>], which is the download
    directory when the working directory exists and can be written;
    otherwise the download directory is [<home>/<name>]. *)
Theorem downloadDir_relative_setting :
  forall (h : SafeConfig.Host) (name : string),
    SafeConfig.isMcpEnvironment h = false ->
    normal_path (SafeConfig.cwd h) ->
    plain_segment name ->
    SafeConfig.downloadDirSource h = Config.Text ("./" +:+ name)
    \/ (SafeConfig.downloadDirSource h = Config.Text name
        /\ JS.includes "\" name = false) ->
    SafeConfig.downloadDir h
    = if SafeConfig.existsSync h (SafeConfig.cwd h)
         && SafeConfig.writable h (SafeConfig.cwd h)
      then path_join (SafeConfig.cwd h) name
      else Path.join [SafeConfig.homedir h; name].
Proof.
  intros h name Hmcp Hcwd Hname Hsource.
  rewrite downloadDir_of_source.
  assert (Hinput : exists inputPath,
             SafeConfig.downloadDirSource h = Config.Text inputPath
             /\ JS.truthy inputPath = true
             /\ (inputPath = "./" +:+ name
                 \/ (inputPath = name /\ JS.includes "\" name = false))).
  { destruct Hsource as [H | [H Hback]].
    - exists ("./" +:+ name). split; [exact H |]. split; [reflexivity |].
      now left.
    - exists name. split; [exact H |]. split.
      + destruct Hname as [Hne _]. now destruct name.
      + right. now split. }
  destruct Hinput as (inputPath & -> & Htruthy & Hinput).
  cbn [Config.truthy]. rewrite Htruthy.
  rewrite (normalizePath_relative h inputPath name Hname Hinput), Hmcp.
  destruct (resolve_plain_name _ _ Hcwd Hname) as (_ & _ & _ & ->).
  rewrite (dirname_child _ _ Hcwd Hname), (basename_child _ _ Hcwd Hname).
  rewrite createSafePath_truthy.
  apply (createSafePath_child h _ _ Hcwd Hname).
Qed.

Lemma downloadDir_relative_setting_witness :
  SafeConfig.downloadDir
    (SafeConfig.desktop None (Some "./custom_downloads"))
  = "/home/user/project/custom_downloads".
Proof.
  assert (Hplain : forall s,
            s <> EmptyString -> s <> "." -> s <> ".." ->
            all_chars (fun c => negb (Ascii.eqb c "/")) s = true ->
            plain_segment s) by (intros s; repeat split; assumption).
  apply (downloadDir_relative_setting
           (SafeConfig.desktop None (Some "./custom_downloads"))
           "custom_downloads").
  - reflexivity.
  - exists ["home"; "user"; "project"]. split; [| reflexivity].
    repeat (constructor;
            [apply Hplain;
             [discriminate | discriminate | discriminate | reflexivity] |]).
    constructor.
  - apply Hplain; [discriminate | discriminate | discriminate | reflexivity].
  - left. reflexivity.
Defined.
